(** * Black Magic Probe: ARM Cortex-A debug target driver (src/cortexa.c)

    A shallow embedding of the driver.  The driver's private state
    ([struct cortexa_priv]) is a record; everything the driver does to the
    outside world (ADIv5 access-port transactions, the platform's reset
    line and delays, the target list, the morse and gdb consoles) is a call
    to an environment that is a parameter of the model: the environment
    answers each call from the history of the calls made so far, and every
    call and its answer is appended to a trace.  A call may also raise one
    of the exceptions of exception.h, which [TRY_CATCH] catches.

    Integers are [Z] with the C wrap-around written out ([u32], [u64]);
    array indices and loop counters are [nat]. *)

From Stdlib Require Import ZArith List Lia String QArith Qround.
From Stdlib.Strings Require Import Byte.
From stdpp Require Import base list.

Local Open Scope Z_scope.

(** ** Machine integers *)

Definition u8 (z : Z) : Z := z mod 2 ^ 8.
Definition u32 (z : Z) : Z := z mod 2 ^ 32.
Definition u64 (z : Z) : Z := z mod 2 ^ 64.

(** ** Register and bit definitions (the #defines of cortexa.c) *)

Definition SIGINT : Z := 2.
Definition SIGTRAP : Z := 5.
Definition SIGSEGV : Z := 11.
Definition SIGLOST : Z := 29.

Definition CACHE_LINE_LENGTH : Z := 8 * 4.

Definition DBGDIDR : Z := 0.
Definition DBGDTRRX : Z := 32.
Definition DBGITR : Z := 33.
Definition DBGDSCR : Z := 34.
Definition DBGDSCR_TXFULL : Z := Z.shiftl 1 29.
Definition DBGDSCR_INSTRCOMPL : Z := Z.shiftl 1 24.
Definition DBGDSCR_EXTDCCMODE_STALL : Z := Z.shiftl 1 20.
Definition DBGDSCR_EXTDCCMODE_FAST : Z := Z.shiftl 2 20.
Definition DBGDSCR_EXTDCCMODE_MASK : Z := Z.shiftl 3 20.
Definition DBGDSCR_HDBGEN : Z := Z.shiftl 1 14.
Definition DBGDSCR_ITREN : Z := Z.shiftl 1 13.
Definition DBGDSCR_INTDIS : Z := Z.shiftl 1 11.
Definition DBGDSCR_UND_I : Z := Z.shiftl 1 8.
Definition DBGDSCR_SDABORT_L : Z := Z.shiftl 1 6.
Definition DBGDSCR_MOE_MASK : Z := Z.shiftl 15 2.
Definition DBGDSCR_MOE_HALT_REQ : Z := Z.shiftl 0 2.
Definition DBGDSCR_RESTARTED : Z := Z.shiftl 1 1.
Definition DBGDSCR_HALTED : Z := Z.shiftl 1 0.
Definition DBGDTRTX : Z := 35.
Definition DBGDRCR : Z := 36.
Definition DBGDRCR_CSE : Z := Z.shiftl 1 2.
Definition DBGDRCR_RRQ : Z := Z.shiftl 1 1.
Definition DBGDRCR_HRQ : Z := Z.shiftl 1 0.

Definition DBGBVR (i : nat) : Z := 64 + Z.of_nat i.
Definition DBGBCR (i : nat) : Z := 80 + Z.of_nat i.
Definition DBGBCR_INST_MISMATCH : Z := Z.shiftl 4 20.
Definition DBGBCR_BAS_ANY : Z := Z.shiftl 15 5.
Definition DBGBCR_BAS_LOW_HW : Z := Z.shiftl 3 5.
Definition DBGBCR_BAS_HIGH_HW : Z := Z.shiftl 12 5.
Definition DBGBCR_EN : Z := Z.shiftl 1 0.

Definition MCR : Z := 0xee000010.
Definition MRC : Z := 0xee100010.
Definition CPREG (coproc opc1 rt crn crm opc2 : Z) : Z :=
  Z.lor (Z.lor (Z.lor (Z.lor (Z.lor (Z.shiftl opc1 21) (Z.shiftl crn 16))
                              (Z.shiftl rt 12))
                       (Z.shiftl coproc 8))
                (Z.shiftl opc2 5))
        crm.

Definition DBGDTRRXint : Z := CPREG 14 0 0 0 5 0.
Definition DBGDTRTXint : Z := CPREG 14 0 0 0 5 0.
Definition PAR : Z := CPREG 15 0 0 7 4 0.
Definition ATS1CPR : Z := CPREG 15 0 0 7 8 0.
Definition ICIALLU : Z := CPREG 15 0 0 7 5 0.
Definition DCCIMVAC : Z := CPREG 15 0 0 7 14 1.
Definition DCCMVAC : Z := CPREG 15 0 0 7 10 1.

Definition CPSR_THUMB : Z := Z.shiftl 1 5.

(** ** The driver's state *)

(** The debug port has two access ports behind it: the APB with the debug
    registers and, when there is one, the AHB to system memory. *)
Inductive ADIv5_AP_t := APB_AP | AHB_AP.

Record reg_cache_t := mk_reg_cache {
  r : list Z;        (* uint32_t r[16] *)
  cpsr : Z;          (* uint32_t *)
  fpscr : Z;         (* uint32_t *)
  d : list Z         (* uint64_t d[16] *)
}.

Record cortexa_priv := mk_priv {
  base : Z;
  ahb : option ADIv5_AP_t;       (* None is the NULL pointer *)
  reg_cache : reg_cache_t;
  hw_breakpoint_max : nat;
  hw_breakpoint : list Z;        (* unsigned hw_breakpoint[16] *)
  bpc0 : Z;
  mmu_fault : bool
}.

(** ** The outside world *)

(** exception.h *)
Inductive exception_type := EXCEPTION_ERROR | EXCEPTION_TIMEOUT.

Definition EXCEPTION_ALL (e : exception_type) : bool := true.
Definition only_EXCEPTION_TIMEOUT (e : exception_type) : bool :=
  match e with EXCEPTION_TIMEOUT => true | EXCEPTION_ERROR => false end.

(** adiv5.h: the registers and directions the driver names. *)
Inductive adiv5_reg :=
  ADIV5_AP_CSW | ADIV5_AP_TAR | ADIV5_AP_DRW | ADIV5_DP_RDBUFF.
Inductive adiv5_rnw := ADIV5_LOW_WRITE | ADIV5_LOW_READ.

Inductive call :=
| AP_WRITE (ap : ADIv5_AP_t) (reg : adiv5_reg) (val : Z)
| DP_LOW_ACCESS (rnw : adiv5_rnw) (reg : adiv5_reg) (val : Z)
| DP_ERROR
| NEW_AP (apsel : Z)
| AP_REF (ap : ADIv5_AP_t)
| AP_UNREF (ap : ADIv5_AP_t)
| TARGET_NEW
| SRST_GET_VAL
| SRST_SET_VAL (assert : bool)
| DELAY (ms : Z)
| TARGET_LIST_FREE
| MORSE (msg : string) (repeat : bool)
| GDB_OUT (msg : string).

Inductive reply := Ret (v : Z) | Raise (e : exception_type).

Definition event : Type := call * reply.

Definition environment : Type := list event -> call -> reply.

Record target := mk_target {
  priv : cortexa_priv;
  trace : list event
}.

(** ** The monad of driver code: state, exceptions, undefined behaviour *)

Inductive outcome (A : Type) :=
| Done (a : A)
| Throw (e : exception_type)
| Undef.
Arguments Done {A} a.
Arguments Throw {A} e.
Arguments Undef {A}.

Definition M (A : Type) : Type := target -> outcome A * target.

Definition ret {A} (a : A) : M A := fun t => (Done a, t).

Definition bind {A B} (m : M A) (k : A -> M B) : M B := fun t =>
  match m t with
  | (Done a, t') => k a t'
  | (Throw e, t') => (Throw e, t')
  | (Undef, t') => (Undef, t')
  end.

Notation "x <- m ;; k" := (bind m (fun x => k))
  (at level 90, m at level 89, right associativity).
Notation "m ;;; k" := (bind m (fun _ => k))
  (at level 90, right associativity).

Definition undef {A} : M A := fun t => (Undef, t).

Definition get_priv : M cortexa_priv := fun t => (Done (priv t), t).

Definition modify_priv (f : cortexa_priv -> cortexa_priv) : M unit := fun t =>
  (Done tt, mk_target (f (priv t)) (trace t)).

(** [TRY_CATCH (e, mask) { body }]: the exceptions of the mask end the body
    and are left in [e]; the others go on to the enclosing handler. *)
Definition TRY_CATCH {A} (mask : exception_type -> bool) (body : M A)
  : M (exception_type + A) := fun t =>
  match body t with
  | (Done a, t') => (Done (inr a), t')
  | (Throw e, t') => if mask e then (Done (inl e), t') else (Throw e, t')
  | (Undef, t') => (Undef, t')
  end.

(** Field updates of [struct cortexa_priv]. *)
Definition set_mmu_fault (b : bool) (p : cortexa_priv) : cortexa_priv :=
  mk_priv (base p) (ahb p) (reg_cache p) (hw_breakpoint_max p)
          (hw_breakpoint p) (bpc0 p) b.
Definition set_bpc0 (v : Z) (p : cortexa_priv) : cortexa_priv :=
  mk_priv (base p) (ahb p) (reg_cache p) (hw_breakpoint_max p)
          (hw_breakpoint p) v (mmu_fault p).
Definition set_hw_breakpoint (l : list Z) (p : cortexa_priv) : cortexa_priv :=
  mk_priv (base p) (ahb p) (reg_cache p) (hw_breakpoint_max p)
          l (bpc0 p) (mmu_fault p).
Definition set_reg_cache (c : reg_cache_t) (p : cortexa_priv) : cortexa_priv :=
  mk_priv (base p) (ahb p) c (hw_breakpoint_max p)
          (hw_breakpoint p) (bpc0 p) (mmu_fault p).

Definition set_r (l : list Z) (c : reg_cache_t) : reg_cache_t :=
  mk_reg_cache l (cpsr c) (fpscr c) (d c).
Definition set_cpsr (v : Z) (c : reg_cache_t) : reg_cache_t :=
  mk_reg_cache (r c) v (fpscr c) (d c).
Definition set_fpscr (v : Z) (c : reg_cache_t) : reg_cache_t :=
  mk_reg_cache (r c) (cpsr c) v (d c).
Definition set_d (l : list Z) (c : reg_cache_t) : reg_cache_t :=
  mk_reg_cache (r c) (cpsr c) (fpscr c) l.

(** An array element read or written past the end of the array is
    undefined behaviour. *)
Definition array_get (l : list Z) (i : nat) : M Z :=
  match l !! i with
  | Some v => ret v
  | None => undef
  end.

Definition array_set (l : list Z) (i : nat) (v : Z) : M (list Z) :=
  if decide (i < length l)%nat then ret (<[i := v]> l) else undef.

(** ** Bytes and object representations

    The probe and its hosts are little-endian: the object representation
    of a [uint32_t] or [uint64_t] is its bytes from the least significant
    one. *)

Definition byte_of_Z (z : Z) : byte :=
  match Byte.of_N (Z.to_N (z mod 256)) with
  | Some b => b
  | None => x00
  end.

Definition Z_of_byte (b : byte) : Z := Z.of_N (Byte.to_N b).

Fixpoint le_bytes (n : nat) (z : Z) : list byte :=
  match n with
  | O => []
  | S n' => byte_of_Z z :: le_bytes n' (Z.shiftr z 8)
  end.

Fixpoint le_value (bs : list byte) : Z :=
  match bs with
  | [] => 0
  | b :: bs' => Z_of_byte b + 256 * le_value bs'
  end.

(** An array of [w]-byte integers, and its [n] elements read back. *)
Definition array_repr (w : nat) (l : list Z) : list byte :=
  concat (map (le_bytes w) l).

Fixpoint array_of_repr (w n : nat) (bs : list byte) : list Z :=
  match n with
  | O => []
  | S n' => le_value (take w bs) :: array_of_repr w n' (drop w bs)
  end.

(** [struct { uint32_t r[16]; uint32_t cpsr; uint32_t fpscr; uint64_t d[16]; }]
    has no padding: 64 + 4 + 4 + 128 bytes. *)
Definition reg_cache_repr (c : reg_cache_t) : list byte :=
  array_repr 4 (r c) ++ le_bytes 4 (cpsr c) ++ le_bytes 4 (fpscr c)
  ++ array_repr 8 (d c).

Definition reg_cache_of_repr (bs : list byte) : reg_cache_t :=
  mk_reg_cache (array_of_repr 4 16 bs)
               (le_value (take 4 (drop 64 bs)))
               (le_value (take 4 (drop 68 bs)))
               (array_of_repr 8 16 (drop 72 bs)).

Definition sizeof_reg_cache : nat := 16 * 4 + 4 + 4 + 16 * 8.

(** [t->regs_size], which [cortexa_probe] sets to [sizeof(priv->reg_cache)]. *)
Definition regs_size : nat := sizeof_reg_cache.

(** [memcpy(dst, src, n)]: the new contents of [dst].  Reading or writing
    past the end of either object is undefined behaviour. *)
Definition memcpy (dst src : list byte) (n : nat) : M (list byte) :=
  if decide (n <= length src)%nat then
    if decide (n <= length dst)%nat then ret (take n src ++ drop n dst)
    else undef
  else undef.

(** [size_t] arithmetic of the probe's 32-bit firmware. *)
Definition size_t (z : Z) : Z := z mod 2 ^ 32.

Section Driver.

Variable env : environment.

(** One call to the outside: the environment answers from the history. *)
Definition extcall (c : call) : M Z := fun t =>
  match env (trace t) c with
  | Ret v => (Done v, mk_target (priv t) (trace t ++ [(c, Ret v)]))
  | Raise e => (Throw e, mk_target (priv t) (trace t ++ [(c, Raise e)]))
  end.

(** *** The collaborators (adiv5.h, platform.h, target.h, morse.h, gdb_packet.h) *)

Definition adiv5_ap_write (ap : ADIv5_AP_t) (reg : adiv5_reg) (val : Z) : M unit :=
  extcall (AP_WRITE ap reg val) ;;; ret tt.

Definition adiv5_dp_low_access (rnw : adiv5_rnw) (reg : adiv5_reg) (val : Z) : M Z :=
  v <- extcall (DP_LOW_ACCESS rnw reg val) ;; ret (u32 v).

Definition adiv5_dp_error : M Z :=
  v <- extcall DP_ERROR ;; ret (u32 v).

(** The new access port is known to the driver by its [idr]. *)
Definition adiv5_new_ap (apsel : Z) : M Z :=
  idr <- extcall (NEW_AP apsel) ;; ret (u32 idr).

Definition adiv5_ap_ref (ap : ADIv5_AP_t) : M unit :=
  extcall (AP_REF ap) ;;; ret tt.

Definition adiv5_ap_unref (ap : ADIv5_AP_t) : M unit :=
  extcall (AP_UNREF ap) ;;; ret tt.

Definition target_new : M unit :=
  extcall TARGET_NEW ;;; ret tt.

Definition platform_srst_get_val : M bool :=
  v <- extcall SRST_GET_VAL ;; ret (negb (v =? 0)).

Definition platform_srst_set_val (assert : bool) : M unit :=
  extcall (SRST_SET_VAL assert) ;;; ret tt.

Definition platform_delay (ms : Z) : M unit :=
  extcall (DELAY ms) ;;; ret tt.

Definition target_list_free : M unit :=
  extcall TARGET_LIST_FREE ;;; ret tt.

Definition morse (msg : string) (repeat : bool) : M unit :=
  extcall (MORSE msg repeat) ;;; ret tt.

Definition gdb_out (msg : string) : M unit :=
  extcall (GDB_OUT msg) ;;; ret tt.

(** *** APB transport *)

Definition apb_write (reg : Z) (val : Z) : M unit :=
  p <- get_priv ;;
  let addr := u32 (base p + 4 * reg) in
  adiv5_ap_write APB_AP ADIV5_AP_TAR addr ;;;
  adiv5_dp_low_access ADIV5_LOW_WRITE ADIV5_AP_DRW val ;;;
  ret tt.

Definition apb_read (reg : Z) : M Z :=
  p <- get_priv ;;
  let addr := u32 (base p + 4 * reg) in
  adiv5_ap_write APB_AP ADIV5_AP_TAR addr ;;;
  adiv5_dp_low_access ADIV5_LOW_READ ADIV5_AP_DRW 0 ;;;
  adiv5_dp_low_access ADIV5_LOW_READ ADIV5_DP_RDBUFF 0.

(** *** CPU proxy: general-purpose registers over the DCC *)

Definition read_gpreg (regno : Z) : M Z :=
  let instr := Z.lor (Z.lor MCR DBGDTRTXint) (Z.shiftl (Z.land regno 0xf) 12) in
  apb_write DBGITR instr ;;;
  apb_read DBGDTRTX.

Definition write_gpreg (regno : Z) (val : Z) : M unit :=
  apb_write DBGDTRRX val ;;;
  let instr := Z.lor (Z.lor MRC DBGDTRRXint) (Z.shiftl (Z.land regno 0xf) 12) in
  apb_write DBGITR instr.

(** *** Address translation *)

Definition va_to_pa (va : Z) : M Z :=
  write_gpreg 0 va ;;;
  apb_write DBGITR (Z.lor MCR ATS1CPR) ;;;
  apb_write DBGITR (Z.lor MRC PAR) ;;;
  par <- read_gpreg 0 ;;
  (if negb (Z.land par 1 =? 0) then modify_priv (set_mmu_fault true) else ret tt) ;;;
  let pa := Z.lor (Z.land par (Z.lnot 0xfff)) (Z.land va 0xfff) in
  ret pa.

(** *** Error check *)

Definition cortexa_check_error : M bool :=
  p <- get_priv ;;
  dp_err <- match ahb p with
            | Some _ => e <- adiv5_dp_error ;; ret (negb (e =? 0))
            | None => ret false
            end ;;
  p <- get_priv ;;
  let err := dp_err || mmu_fault p in
  modify_priv (set_mmu_fault false) ;;;
  ret err.

(** *** Register cache and the snapshot taken on halt *)

(** [for (i = lo; i < lo + n; i++) body(i)] *)
Fixpoint for_loop (i n : nat) (body : nat -> M unit) : M unit :=
  match n with
  | O => ret tt
  | S n' => body i ;;; for_loop (S i) n' body
  end.

Definition store_r (i : nat) (v : Z) : M unit :=
  p <- get_priv ;;
  l <- array_set (r (reg_cache p)) i v ;;
  modify_priv (set_reg_cache (set_r l (reg_cache p))).

Definition store_d (i : nat) (v : Z) : M unit :=
  p <- get_priv ;;
  l <- array_set (d (reg_cache p)) i v ;;
  modify_priv (set_reg_cache (set_d l (reg_cache p))).

Definition store_cpsr (v : Z) : M unit :=
  p <- get_priv ;; modify_priv (set_reg_cache (set_cpsr v (reg_cache p))).

Definition store_fpscr (v : Z) : M unit :=
  p <- get_priv ;; modify_priv (set_reg_cache (set_fpscr v (reg_cache p))).

(** The two operands of [|] in the assignment of [d[i]] are evaluated here
    from left to right: r1 (the high word) is read before r0. *)
Definition cortexa_regs_read_internal : M unit :=
  for_loop 0 15 (fun i =>
    v <- read_gpreg (Z.of_nat i) ;; store_r i v) ;;;
  apb_write DBGITR 0xe1a0000f ;;;
  pc <- read_gpreg 0 ;;
  store_r 15 pc ;;;
  apb_write DBGITR 0xE10F0000 ;;;
  c <- read_gpreg 0 ;;
  store_cpsr c ;;;
  apb_write DBGITR 0xeef10a10 ;;;
  f <- read_gpreg 0 ;;
  store_fpscr f ;;;
  for_loop 0 16 (fun i =>
    apb_write DBGITR (Z.lor 0xEC510B10 (Z.of_nat i)) ;;;
    hi <- read_gpreg 1 ;;
    lo <- read_gpreg 0 ;;
    store_d i (Z.lor (Z.shiftl hi 32) lo)) ;;;
  p <- get_priv ;;
  r15 <- array_get (r (reg_cache p)) 15 ;;
  store_r 15 (u32 (r15 - (if negb (Z.land (cpsr (reg_cache p)) CPSR_THUMB =? 0)
                          then 4 else 8))).

(** *** Halt request and halt wait *)

Definition newline : string := String (Ascii.ascii_of_nat 10) EmptyString.

Definition cortexa_halt_request : M unit :=
  e <- TRY_CATCH only_EXCEPTION_TIMEOUT (apb_write DBGDRCR DBGDRCR_HRQ) ;;
  match e with
  | inl _ =>
      gdb_out ("Timeout sending interrupt, is target in WFI?" ++ newline)%string
  | inr _ => ret tt
  end.

Definition cortexa_halt_wait : M Z :=
  e <- TRY_CATCH EXCEPTION_ALL (apb_read DBGDSCR) ;;
  match e with
  | inl EXCEPTION_ERROR =>
      target_list_free ;;;
      morse "TARGET LOST." true ;;;
      ret SIGLOST
  | inl EXCEPTION_TIMEOUT => ret 0
  | inr dbgdscr =>
      if Z.land dbgdscr DBGDSCR_HALTED =? 0 then ret 0
      else
        let dbgdscr := Z.lor dbgdscr DBGDSCR_ITREN in
        apb_write DBGDSCR dbgdscr ;;;
        let sig := if Z.land dbgdscr DBGDSCR_MOE_MASK =? DBGDSCR_MOE_HALT_REQ
                   then SIGINT else SIGTRAP in
        cortexa_regs_read_internal ;;;
        ret sig
  end.

(** *** Attach *)

(** target.h sends [target_check_error], [target_halt_request] and
    [target_halt_wait] to the operations that [cortexa_probe] installs. *)
Definition target_check_error : M bool := cortexa_check_error.
Definition target_halt_request : M unit := cortexa_halt_request.
Definition target_halt_wait : M Z := cortexa_halt_wait.

(** [while (!platform_srst_get_val() && !target_halt_wait(t) && --tries)
      platform_delay(200);]
    with [tries] positive on entry (it is 10); the result is the value of
    [tries] when the loop ends. *)
Fixpoint attach_poll (tries : nat) : M nat :=
  match tries with
  | O => ret O
  | S n =>
      srst <- platform_srst_get_val ;;
      if srst then ret tries
      else
        sig <- target_halt_wait ;;
        if negb (sig =? 0) then ret tries
        else
          match n with
          | O => ret O
          | S _ => platform_delay 200 ;;; attach_poll n
          end
  end.

Definition store_hw_breakpoint (i : nat) (v : Z) : M unit :=
  p <- get_priv ;;
  l <- array_set (hw_breakpoint p) i v ;;
  modify_priv (set_hw_breakpoint l).

Definition cortexa_attach : M bool :=
  target_check_error ;;;
  dbgdscr <- apb_read DBGDSCR ;;
  let dbgdscr := Z.lor dbgdscr (Z.lor DBGDSCR_HDBGEN DBGDSCR_ITREN) in
  let dbgdscr := Z.lor (Z.land dbgdscr (Z.lnot DBGDSCR_EXTDCCMODE_MASK))
                       DBGDSCR_EXTDCCMODE_STALL in
  apb_write DBGDSCR dbgdscr ;;;
  target_halt_request ;;;
  tries <- attach_poll 10 ;;
  match tries with
  | O => ret false
  | S _ =>
      p <- get_priv ;;
      for_loop 0 (hw_breakpoint_max p) (fun i =>
        apb_write (DBGBCR i) 0 ;;;
        store_hw_breakpoint i 0) ;;;
      platform_srst_set_val false ;;;
      ret true
  end.

(** *** Breakpoints *)

Definition bp_bas (addr : Z) (len : Z) : Z :=
  if len =? 4 then DBGBCR_BAS_ANY
  else if negb (Z.land addr 2 =? 0) then DBGBCR_BAS_HIGH_HW
  else DBGBCR_BAS_LOW_HW.

(** [for (i = i0; i < i0 + n; i++) if (test(hw_breakpoint[i])) break;]
    The result is the value of [i] when the loop ends. *)
Fixpoint bp_scan (test : Z -> bool) (i n : nat) : M nat :=
  match n with
  | O => ret i
  | S n' =>
      p <- get_priv ;;
      e <- array_get (hw_breakpoint p) i ;;
      if test e then ret i else bp_scan test (S i) n'
  end.

Definition cortexa_set_hw_bp (addr : Z) (len : Z) : M Z :=
  p <- get_priv ;;
  i <- bp_scan (fun e => Z.land e 1 =? 0) 0 (hw_breakpoint_max p) ;;
  if decide (i = hw_breakpoint_max p) then ret (-1)
  else
    store_hw_breakpoint i (Z.lor addr 1) ;;;
    apb_write (DBGBVR i) (Z.land addr (Z.lnot 3)) ;;;
    let bpc := Z.lor (bp_bas addr len) DBGBCR_EN in
    apb_write (DBGBCR i) bpc ;;;
    (if decide (i = O) then modify_priv (set_bpc0 bpc) else ret tt) ;;;
    ret 0.

Definition cortexa_clear_hw_bp (addr : Z) (len : Z) : M Z :=
  p <- get_priv ;;
  i <- bp_scan (fun e => Z.land e (Z.lnot 1) =? addr) 0 (hw_breakpoint_max p) ;;
  if decide (i = hw_breakpoint_max p) then ret (-1)
  else
    store_hw_breakpoint i 0 ;;;
    apb_write (DBGBCR i) 0 ;;;
    (if decide (i = O) then modify_priv (set_bpc0 0) else ret tt) ;;;
    ret 0.

(** *** Register access of the facade *)

(** The result is the caller's buffer after the call. *)
Definition cortexa_regs_read (data : list byte) : M (list byte) :=
  p <- get_priv ;;
  memcpy data (reg_cache_repr (reg_cache p)) regs_size.

Definition cortexa_regs_write (data : list byte) : M unit :=
  p <- get_priv ;;
  bs <- memcpy (reg_cache_repr (reg_cache p)) data regs_size ;;
  modify_priv (set_reg_cache (reg_cache_of_repr bs)).

(** *** Memory read through the APB *)

(** [for (i = 0; i < words; i++) dest32[i] = apb_read(t, DBGDTRTX);] *)
Fixpoint read_words (words : nat) : M (list Z) :=
  match words with
  | O => ret []
  | S n => w <- apb_read DBGDTRTX ;; ws <- read_words n ;; ret (w :: ws)
  end.

(** The result is the [len] bytes stored at [dest]. *)
Definition cortexa_slow_mem_read (src : Z) (len : Z) : M (list byte) :=
  let words := u32 (size_t (len + Z.land src 3 + 3) / 4) in
  write_gpreg 0 (Z.land src (Z.lnot 3)) ;;;
  dbgdscr <- apb_read DBGDSCR ;;
  let dbgdscr := Z.lor (Z.land dbgdscr (Z.lnot DBGDSCR_EXTDCCMODE_MASK))
                       DBGDSCR_EXTDCCMODE_FAST in
  apb_write DBGDSCR dbgdscr ;;;
  apb_write DBGITR 0xecb05e01 ;;;
  apb_read DBGDTRTX ;;;
  dest32 <- read_words (Z.to_nat words) ;;
  dest <- (let from := drop (Z.to_nat (Z.land src 3)) (array_repr 4 dest32) in
           if decide (Z.to_nat len <= length from)%nat
           then ret (take (Z.to_nat len) from) else undef) ;;
  let dbgdscr := Z.lor (Z.land dbgdscr (Z.lnot DBGDSCR_EXTDCCMODE_MASK))
                       DBGDSCR_EXTDCCMODE_STALL in
  apb_write DBGDSCR dbgdscr ;;;
  s <- apb_read DBGDSCR ;;
  (if negb (Z.land s DBGDSCR_SDABORT_L =? 0) then
     apb_write DBGDRCR DBGDRCR_CSE ;;;
     modify_priv (set_mmu_fault true)
   else
     apb_read DBGDTRTX ;;; ret tt) ;;;
  ret dest.

(** *** Probe *)

(** The zeroed [struct cortexa_priv] that [calloc] returns. *)
Definition calloc_priv : cortexa_priv :=
  mk_priv 0 None (mk_reg_cache (replicate 16 0) 0 0 (replicate 16 0))
          0 (replicate 16 0) 0 false.

Definition set_base (v : Z) (p : cortexa_priv) : cortexa_priv :=
  mk_priv v (ahb p) (reg_cache p) (hw_breakpoint_max p)
          (hw_breakpoint p) (bpc0 p) (mmu_fault p).
Definition set_ahb (a : option ADIv5_AP_t) (p : cortexa_priv) : cortexa_priv :=
  mk_priv (base p) a (reg_cache p) (hw_breakpoint_max p)
          (hw_breakpoint p) (bpc0 p) (mmu_fault p).
Definition set_hw_breakpoint_max (n : nat) (p : cortexa_priv) : cortexa_priv :=
  mk_priv (base p) (ahb p) (reg_cache p) n
          (hw_breakpoint p) (bpc0 p) (mmu_fault p).

(** [ADIV5_AP_CSW_SIZE_WORD] of adiv5.h and the [csw] field of the APB are
    taken as they come.  The operations that the probe installs in the
    target are the definitions of this section; of the two pairs of memory
    routines, the pair is chosen by [ahb] being there or not. *)
Definition cortexa_probe (ADIV5_AP_CSW_SIZE_WORD apb_csw debug_base : Z) : M bool :=
  target_new ;;;
  adiv5_ap_ref APB_AP ;;;
  modify_priv (fun _ => calloc_priv) ;;;
  idr <- adiv5_new_ap 0 ;;
  modify_priv (set_ahb (Some AHB_AP)) ;;;
  adiv5_ap_ref AHB_AP ;;;
  (if Z.land idr 0xfffe00f =? 0x4770001 then ret tt
   else adiv5_ap_unref AHB_AP ;;; modify_priv (set_ahb None)) ;;;
  modify_priv (set_base debug_base) ;;;
  let csw := Z.lor apb_csw ADIV5_AP_CSW_SIZE_WORD in
  adiv5_ap_write APB_AP ADIV5_AP_CSW csw ;;;
  dbgdidr <- apb_read DBGDIDR ;;
  modify_priv (set_hw_breakpoint_max
                 (Z.to_nat (Z.land (Z.shiftr dbgdidr 24) 15 + 1))) ;;;
  ret true.

End Driver.

(** ** The rest of the driver: write-back, resume, detach, memory writes *)

Section DriverOps.

Variable env : environment.

(** *** Register write-back *)

Definition cortexa_regs_write_internal : M unit :=
  for_loop 0 16 (fun i =>
    p <- get_priv ;;
    dv <- array_get (d (reg_cache p)) i ;;
    write_gpreg env 1 (u32 (Z.shiftr dv 32)) ;;;
    p <- get_priv ;;
    dv <- array_get (d (reg_cache p)) i ;;
    write_gpreg env 0 (u32 dv) ;;;
    apb_write env DBGITR (Z.lor 0xec410b10 (Z.of_nat i))) ;;;
  p <- get_priv ;;
  write_gpreg env 0 (fpscr (reg_cache p)) ;;;
  apb_write env DBGITR 0xeee10a10 ;;;
  p <- get_priv ;;
  write_gpreg env 0 (cpsr (reg_cache p)) ;;;
  apb_write env DBGITR 0xe12ff000 ;;;
  p <- get_priv ;;
  pc <- array_get (r (reg_cache p)) 15 ;;
  write_gpreg env 0 pc ;;;
  apb_write env DBGITR 0xe1a0f000 ;;;
  for_loop 0 15 (fun i =>
    p <- get_priv ;;
    v <- array_get (r (reg_cache p)) i ;;
    write_gpreg env (Z.of_nat i) v).

(** *** Detach *)

Definition cortexa_detach : M unit :=
  p <- get_priv ;;
  for_loop 0 (hw_breakpoint_max p) (fun i =>
    store_hw_breakpoint i 0 ;;;
    apb_write env (DBGBCR i) 0) ;;;
  cortexa_regs_write_internal ;;;
  apb_write env DBGITR (Z.lor MCR ICIALLU) ;;;
  dbgdscr <- apb_read env DBGDSCR ;;
  let dbgdscr := Z.land dbgdscr (Z.lnot (Z.lor DBGDSCR_HDBGEN DBGDSCR_ITREN)) in
  apb_write env DBGDSCR dbgdscr ;;;
  apb_write env DBGDRCR (Z.lor DBGDRCR_CSE DBGDRCR_RRQ).

(** *** Resume *)

(** [do { apb_write(t, DBGDRCR, CSE | RRQ); dbgdscr = apb_read(t, DBGDSCR); }
     while (!(dbgdscr & DBGDSCR_RESTARTED));]
    The loop has no bound of its own: [fuel] is the number of rounds the
    model follows it for, and the result is [None] when the loop is still
    running after them. *)
Fixpoint restart_loop (fuel : nat) : M (option unit) :=
  match fuel with
  | O => ret None
  | S fuel' =>
      apb_write env DBGDRCR (Z.lor DBGDRCR_CSE DBGDRCR_RRQ) ;;;
      dbgdscr <- apb_read env DBGDSCR ;;
      if Z.land dbgdscr DBGDSCR_RESTARTED =? 0 then restart_loop fuel'
      else ret (Some tt)
  end.

Definition cortexa_halt_resume (fuel : nat) (step : bool) : M (option unit) :=
  p <- get_priv ;;
  (if step then
     addr <- array_get (r (reg_cache p)) 15 ;;
     let bas := bp_bas addr (if negb (Z.land (cpsr (reg_cache p)) CPSR_THUMB =? 0)
                             then 2 else 4) in
     pc <- array_get (r (reg_cache p)) 15 ;;
     apb_write env (DBGBVR 0) (Z.land pc (Z.lnot 3)) ;;;
     apb_write env (DBGBCR 0) (Z.lor (Z.lor DBGBCR_INST_MISMATCH bas) DBGBCR_EN)
   else
     e <- array_get (hw_breakpoint p) 0 ;;
     apb_write env (DBGBVR 0) (Z.land e (Z.lnot 3)) ;;;
     p <- get_priv ;;
     apb_write env (DBGBCR 0) (bpc0 p)) ;;;
  cortexa_regs_write_internal ;;;
  apb_write env DBGITR (Z.lor MCR ICIALLU) ;;;
  dbgdscr <- apb_read env DBGDSCR ;;
  let dbgdscr := if step then Z.lor dbgdscr DBGDSCR_INTDIS
                 else Z.land dbgdscr (Z.lnot DBGDSCR_INTDIS) in
  let dbgdscr := Z.land dbgdscr (Z.lnot DBGDSCR_ITREN) in
  apb_write env DBGDSCR dbgdscr ;;;
  restart_loop fuel.

(** *** Memory write through the APB *)

(** [while (len--) { ... *src++ ... return; ... }]: a [return] from inside
    the loop ends the routine, which has nothing after the loop.  Reading
    [*src] past the end of the caller's object is undefined behaviour. *)
Fixpoint write_bytes (len : nat) (src : list byte) : M unit :=
  match len with
  | O => ret tt
  | S len' =>
      match src with
      | [] => undef
      | b :: src' =>
          write_gpreg env 0 (Z_of_byte b) ;;;
          apb_write env DBGITR 0xe4cd0001 ;;;
          s <- apb_read env DBGDSCR ;;
          if negb (Z.land s DBGDSCR_SDABORT_L =? 0) then
            apb_write env DBGDRCR DBGDRCR_CSE ;;;
            modify_priv (set_mmu_fault true)
          else write_bytes len' src'
      end
  end.

Definition cortexa_slow_mem_write_bytes (dest : Z) (src : list byte) (len : Z)
  : M unit :=
  write_gpreg env 13 dest ;;;
  write_bytes (Z.to_nat len) src.

(** [for (; len; len -= 4) apb_write(t, DBGDTRRX, *src32++);] where [len] is
    a multiple of 4: [words] is [len / 4], the number of rounds after which
    [len] is 0. *)
Fixpoint write_words (words : nat) (src : list byte) : M unit :=
  match words with
  | O => ret tt
  | S words' =>
      if decide (4 <= length src)%nat then
        apb_write env DBGDTRRX (le_value (take 4 src)) ;;;
        write_words words' (drop 4 src)
      else undef
  end.

Definition cortexa_slow_mem_write (dest : Z) (src : list byte) (len : Z) : M unit :=
  if len =? 0 then ret tt
  else if negb (Z.land dest 3 =? 0) || negb (Z.land len 3 =? 0) then
    cortexa_slow_mem_write_bytes dest src len
  else
    write_gpreg env 0 dest ;;;
    dbgdscr <- apb_read env DBGDSCR ;;
    let dbgdscr := Z.lor (Z.land dbgdscr (Z.lnot DBGDSCR_EXTDCCMODE_MASK))
                         DBGDSCR_EXTDCCMODE_FAST in
    apb_write env DBGDSCR dbgdscr ;;;
    apb_write env DBGITR 0xeca05e01 ;;;
    write_words (Z.to_nat (len / 4)) src ;;;
    let dbgdscr := Z.lor (Z.land dbgdscr (Z.lnot DBGDSCR_EXTDCCMODE_MASK))
                         DBGDSCR_EXTDCCMODE_STALL in
    apb_write env DBGDSCR dbgdscr ;;;
    s <- apb_read env DBGDSCR ;;
    if negb (Z.land s DBGDSCR_SDABORT_L =? 0) then
      apb_write env DBGDRCR DBGDRCR_CSE ;;;
      modify_priv (set_mmu_fault true)
    else ret tt.

(** *** Memory access through the AHB *)

(** [for (uint32_t cl = start; cl < end; cl += CACHE_LINE_LENGTH)
       { write_gpreg(t, 0, cl); apb_write(t, DBGITR, MCR | op); }]
    The loop has no bound of its own, since [cl] wraps around: [fuel] is
    the number of rounds the model follows it for, and the result is [None]
    when the loop is still running after them. *)
Fixpoint clean_lines (fuel : nat) (op cl last : Z) : M (option unit) :=
  if cl <? last then
    match fuel with
    | O => ret None
    | S fuel' =>
        write_gpreg env 0 cl ;;;
        apb_write env DBGITR (Z.lor MCR op) ;;;
        clean_lines fuel' op (u32 (cl + CACHE_LINE_LENGTH)) last
    end
  else ret (Some tt).

(** adiv5.h: the block transfers through an access port.  The result of
    [adiv5_mem_read] is the [len] bytes stored at [dest]. *)
Variable adiv5_mem_read : ADIv5_AP_t -> Z -> Z -> M (list byte).
Variable adiv5_mem_write : ADIv5_AP_t -> Z -> list byte -> Z -> M unit.

(** The access port that the block transfer dereferences. *)
Definition deref_ahb (a : option ADIv5_AP_t) : M ADIv5_AP_t :=
  match a with
  | Some ap => ret ap
  | None => undef
  end.

Definition cortexa_mem_read (fuel : nat) (src len : Z) : M (option (list byte)) :=
  c <- clean_lines fuel DCCMVAC (Z.land src (Z.lnot (CACHE_LINE_LENGTH - 1)))
         (size_t (src + len)) ;;
  match c with
  | None => ret None
  | Some _ =>
      p <- get_priv ;;
      pa <- va_to_pa env src ;;
      ap <- deref_ahb (ahb p) ;;
      dest <- adiv5_mem_read ap pa len ;;
      ret (Some dest)
  end.

Definition cortexa_mem_write (fuel : nat) (dest : Z) (src : list byte) (len : Z)
  : M (option unit) :=
  c <- clean_lines fuel DCCIMVAC (Z.land dest (Z.lnot (CACHE_LINE_LENGTH - 1)))
         (size_t (dest + len)) ;;
  match c with
  | None => ret None
  | Some _ =>
      p <- get_priv ;;
      pa <- va_to_pa env dest ;;
      ap <- deref_ahb (ahb p) ;;
      adiv5_mem_write ap pa src len ;;;
      ret (Some tt)
  end.

End DriverOps.

(** ** Environments used in the examples *)

(** Every call is answered with 0: the reset line is not asserted, DBGDSCR
    never shows HALTED, nothing faults. *)
Definition env_running : environment := fun _ _ => Ret 0.

(** The reset line is held asserted; everything else is answered with 0. *)
Definition env_reset_held : environment := fun _ c =>
  match c with
  | SRST_GET_VAL => Ret 1
  | _ => Ret 0
  end.

(** Every word read is 1 (DBGDSCR shows HALTED, PAR shows a fault), the
    reset line is not asserted and the debug port reports no error. *)
Definition env_halted : environment := fun _ c =>
  match c with
  | SRST_GET_VAL | DP_ERROR => Ret 0
  | _ => Ret 1
  end.

(** Every word read is all ones: DBGDSCR shows the sticky abort. *)
Definition env_abort : environment := fun _ c =>
  match c with
  | SRST_GET_VAL | DP_ERROR => Ret 0
  | _ => Ret 0xffffffff
  end.

(** The n-th call is answered with 0x1000 + n - 1. *)
Definition env_count : environment := fun h _ => Ret (0x1000 + Z.of_nat (length h)).

(** The link is lost after the first hundred calls. *)
Definition env_lost : environment := fun h _ =>
  if (length h <? 100)%nat then Ret (0x1000 + Z.of_nat (length h))
  else Raise EXCEPTION_ERROR.

(** A target as the probe leaves it on a core with six comparators. *)
Definition priv0 : cortexa_priv :=
  mk_priv 0x80090000 None
          (mk_reg_cache (replicate 16 0) 0 0 (replicate 16 0))
          6 (replicate 16 0) 0 false.

Definition target0 : target := mk_target priv0 [].

(** The same target after [cortexa_set_hw_bp(1, 4)]: slot 0 holds the
    entry 1 of a breakpoint at address 1, the other slots are free. *)
Definition target_bp1 : target := snd (cortexa_set_hw_bp env_running 1 4 target0).

(** The same target with an AHB and a fault pending. *)
Definition target_fault : target :=
  mk_target (set_mmu_fault true (set_ahb (Some AHB_AP) priv0)) [].

(** Two buffers of [regs_size] bytes. *)
Definition buffer_zero : list byte := replicate 200 x00.
Definition buffer_ones : list byte := replicate 200 xff.

(** ** What a run shows: calls made, words read *)

Definition calls (evs : list event) : list call := map fst evs.

(** The words that [apb_read] returned: the answers to the reads of RDBUFF. *)
Definition word_read (ev : event) : option Z :=
  match ev with
  | (DP_LOW_ACCESS ADIV5_LOW_READ ADIV5_DP_RDBUFF _, Ret v) => Some (u32 v)
  | _ => None
  end.

Definition words_read (evs : list event) : list Z := omap word_read evs.

(** The transactions of [apb_write], [apb_read] and the register proxies. *)
Definition apb_write_calls (b reg val : Z) : list call :=
  [AP_WRITE APB_AP ADIV5_AP_TAR (u32 (b + 4 * reg));
   DP_LOW_ACCESS ADIV5_LOW_WRITE ADIV5_AP_DRW val].

Definition apb_read_calls (b reg : Z) : list call :=
  [AP_WRITE APB_AP ADIV5_AP_TAR (u32 (b + 4 * reg));
   DP_LOW_ACCESS ADIV5_LOW_READ ADIV5_AP_DRW 0;
   DP_LOW_ACCESS ADIV5_LOW_READ ADIV5_DP_RDBUFF 0].

Definition read_gpreg_calls (b regno : Z) : list call :=
  apb_write_calls b DBGITR
    (Z.lor (Z.lor MCR DBGDTRTXint) (Z.shiftl (Z.land regno 0xf) 12))
  ++ apb_read_calls b DBGDTRTX.

Definition write_gpreg_calls (b regno val : Z) : list call :=
  apb_write_calls b DBGDTRRX val
  ++ apb_write_calls b DBGITR
       (Z.lor (Z.lor MRC DBGDTRRXint) (Z.shiftl (Z.land regno 0xf) 12)).

(** The environment never raises an exception. *)
Definition reliable (env : environment) : Prop :=
  forall h c, exists v, env h c = Ret v.

(** [m], started in [t], returns normally with a result and a state that
    satisfy [Q]. *)
Definition returns {A} (m : M A) (t : target) (Q : A -> target -> Prop) : Prop :=
  exists a t', m t = (Done a, t') /\ Q a t'.

(** The events [evs] that follow the history [h] carry the answers of the
    environment. *)
Fixpoint answered (env : environment) (h : list event) (evs : list event) : Prop :=
  match evs with
  | [] => True
  | (c, rp) :: evs' => env h c = rp /\ answered env (h ++ [(c, rp)]) evs'
  end.

(** The trace grew from [h] to [h'] by the calls [cs] and the answers of
    the environment to them, and [apb_read] returned the words [vs]. *)
Definition io (env : environment) (h h' : list event) (cs : list call) (vs : list Z)
  : Prop :=
  exists evs, h' = h ++ evs /\ calls evs = cs /\ words_read evs = vs /\
              answered env h evs.

(** The same, with what the reads of the reset line returned. *)
Definition srst_read (ev : event) : option bool :=
  match ev with
  | (SRST_GET_VAL, Ret v) => Some (negb (v =? 0))
  | _ => None
  end.

Definition srst_reads (evs : list event) : list bool := omap srst_read evs.

Definition io_srst (env : environment) (h h' : list event)
    (cs : list call) (vs : list Z) (ss : list bool) : Prop :=
  exists evs, h' = h ++ evs /\ calls evs = cs /\ words_read evs = vs /\
              srst_reads evs = ss /\ answered env h evs.

Definition is_u32 (z : Z) : Prop := 0 <= z < 2 ^ 32.
Definition is_u64 (z : Z) : Prop := 0 <= z < 2 ^ 64.

(** The shape that [cortexa_probe] gives the state and every operation
    keeps. *)
Definition priv_wf (p : cortexa_priv) : Prop :=
  length (hw_breakpoint p) = 16%nat /\
  (1 <= hw_breakpoint_max p <= 16)%nat /\
  length (r (reg_cache p)) = 16%nat /\
  length (d (reg_cache p)) = 16%nat.

Definition va_to_pa_calls (b va : Z) : list call :=
  write_gpreg_calls b 0 va
  ++ apb_write_calls b DBGITR (Z.lor MCR ATS1CPR)
  ++ apb_write_calls b DBGITR (Z.lor MRC PAR)
  ++ read_gpreg_calls b 0.

(** Whether the debug port behind the AHB reports an error when it is
    asked now; false when there is no AHB. *)
Definition ahb_error (env : environment) (t : target) : bool :=
  match ahb (priv t) with
  | Some _ =>
      match env (trace t) DP_ERROR with
      | Ret v => negb (u32 v =? 0)
      | Raise _ => false
      end
  | None => false
  end.

(** The debug port never reports an error. *)
Definition ahb_quiet (env : environment) : Prop :=
  forall h, exists v, env h DP_ERROR = Ret v /\ u32 v = 0.

(** [check_error] called [n] times in a row, with the results in order. *)
Fixpoint check_error_times (env : environment) (n : nat) : M (list bool) :=
  match n with
  | O => ret []
  | S n' =>
      b <- cortexa_check_error env ;;
      bs <- check_error_times env n' ;;
      ret (b :: bs)
  end.

(** *** Breakpoint table *)

(** The tests of the two scans. *)
Definition slot_free (e : Z) : bool := Z.land e 1 =? 0.
Definition slot_at (addr : Z) (e : Z) : bool := Z.land e (Z.lnot 1) =? addr.

(** Slot [i] is the first of the [hw_breakpoint_max] slots to pass [test]. *)
Definition first_slot (test : Z -> bool) (p : cortexa_priv) (i : nat) : Prop :=
  (i < hw_breakpoint_max p)%nat /\
  (exists e, hw_breakpoint p !! i = Some e /\ test e = true) /\
  forall j e, (j < i)%nat -> hw_breakpoint p !! j = Some e -> test e = false.

(** None of the [hw_breakpoint_max] slots passes [test]. *)
Definition no_slot (test : Z -> bool) (p : cortexa_priv) : Prop :=
  forall j e, (j < hw_breakpoint_max p)%nat ->
    hw_breakpoint p !! j = Some e -> test e = false.

Definition free_slots (p : cortexa_priv) : nat :=
  length (List.filter slot_free (take (hw_breakpoint_max p) (hw_breakpoint p))).

(** Every slot holds 0 or an address with the live bit. *)
Definition table_ok (p : cortexa_priv) : Prop :=
  forall j e, (j < hw_breakpoint_max p)%nat ->
    hw_breakpoint p !! j = Some e -> e = 0 \/ Z.testbit e 0 = true.

(** The state after [cortexa_set_hw_bp] took slot [i] and after
    [cortexa_clear_hw_bp] released it. *)
Definition bp_set_priv (i : nat) (addr len : Z) (p : cortexa_priv) : cortexa_priv :=
  let p' := set_hw_breakpoint (<[i := Z.lor addr 1]> (hw_breakpoint p)) p in
  if decide (i = O) then set_bpc0 (Z.lor (bp_bas addr len) DBGBCR_EN) p' else p'.

Definition bp_clear_priv (i : nat) (p : cortexa_priv) : cortexa_priv :=
  let p' := set_hw_breakpoint (<[i := 0]> (hw_breakpoint p)) p in
  if decide (i = O) then set_bpc0 0 p' else p'.

(** [cortexa_set_hw_bp] called for each request in turn. *)
Fixpoint set_hw_bp_each (env : environment) (reqs : list (Z * Z)) : M (list Z) :=
  match reqs with
  | [] => ret []
  | (addr, len) :: reqs' =>
      x <- cortexa_set_hw_bp env addr len ;;
      xs <- set_hw_bp_each env reqs' ;;
      ret (x :: xs)
  end.

(** Set a breakpoint, then clear it twice. *)
Definition set_clear_clear (env : environment) (addr len len1 len2 : Z) : M (Z * Z * Z) :=
  x <- cortexa_set_hw_bp env addr len ;;
  y <- cortexa_clear_hw_bp env addr len1 ;;
  z <- cortexa_clear_hw_bp env addr len2 ;;
  ret (x, y, z).

(** The register cache holds values of its types. *)
Definition reg_cache_ok (c : reg_cache_t) : Prop :=
  Forall is_u32 (r c) /\ is_u32 (cpsr c) /\ is_u32 (fpscr c) /\ Forall is_u64 (d c).

(** The facade sequence [regs_read(buf); regs_write(buf); regs_read(buf2)],
    with the two buffers as they are at the end. *)
Definition regs_read_write_read (buf buf2 : list byte) : M (list byte * list byte) :=
  b1 <- cortexa_regs_read buf ;;
  cortexa_regs_write b1 ;;;
  b2 <- cortexa_regs_read buf2 ;;
  ret (b1, b2).

(** *** The snapshot taken on halt *)

(** The transactions of [cortexa_regs_read_internal], in order. *)
Definition snapshot_vfp_calls (b : Z) (i : nat) : list call :=
  apb_write_calls b DBGITR (Z.lor 0xEC510B10 (Z.of_nat i))
  ++ read_gpreg_calls b 1 ++ read_gpreg_calls b 0.

Definition snapshot_calls (b : Z) : list call :=
  flat_map (fun i => read_gpreg_calls b (Z.of_nat i)) (seq 0 15)
  ++ (apb_write_calls b DBGITR 0xe1a0000f ++ read_gpreg_calls b 0)
  ++ (apb_write_calls b DBGITR 0xE10F0000 ++ read_gpreg_calls b 0)
  ++ (apb_write_calls b DBGITR 0xeef10a10 ++ read_gpreg_calls b 0)
  ++ flat_map (snapshot_vfp_calls b) (seq 0 16).

(** The doubles made of the words read in pairs, high word first. *)
Fixpoint doubles (ws : list Z) : list Z :=
  match ws with
  | hi :: lo :: ws' => Z.lor (Z.shiftl hi 32) lo :: doubles ws'
  | _ => []
  end.

(** *** Memory read through the APB *)

(** DBGDSCR with its DCC mode field replaced. *)
Definition dscr_mode (dbgdscr mode : Z) : Z :=
  Z.lor (Z.land dbgdscr (Z.lnot DBGDSCR_EXTDCCMODE_MASK)) mode.

(** The transactions of [cortexa_slow_mem_read] when it reads [words] words
    into its buffer, DBGDSCR read [dscr0] at first, and the sticky abort bit
    was found set ([abort]) or clear at the end. *)
Definition slow_mem_read_calls (b src : Z) (words : nat) (dscr0 : Z) (abort : bool)
  : list call :=
  write_gpreg_calls b 0 (Z.land src (Z.lnot 3))
  ++ apb_read_calls b DBGDSCR
  ++ apb_write_calls b DBGDSCR (dscr_mode dscr0 DBGDSCR_EXTDCCMODE_FAST)
  ++ apb_write_calls b DBGITR 0xecb05e01
  ++ apb_read_calls b DBGDTRTX
  ++ concat (replicate words (apb_read_calls b DBGDTRTX))
  ++ apb_write_calls b DBGDSCR
       (dscr_mode (dscr_mode dscr0 DBGDSCR_EXTDCCMODE_FAST) DBGDSCR_EXTDCCMODE_STALL)
  ++ apb_read_calls b DBGDSCR
  ++ (if abort then apb_write_calls b DBGDRCR DBGDRCR_CSE
      else apb_read_calls b DBGDTRTX).

(** How many times the calls [cs] address the debug register [reg]. *)
Definition is_tar (addr : Z) (c : call) : bool :=
  match c with
  | AP_WRITE APB_AP ADIV5_AP_TAR a => a =? addr
  | _ => false
  end.

Definition apb_accesses (b reg : Z) (cs : list call) : nat :=
  length (List.filter (is_tar (u32 (b + 4 * reg))) cs).

(** *** Attach *)

(** The transactions of [cortexa_halt_wait] that read [dscr] from DBGDSCR. *)
Definition halt_wait_calls (b dscr : Z) : list call :=
  apb_read_calls b DBGDSCR
  ++ (if Z.testbit dscr 0
      then apb_write_calls b DBGDSCR (Z.lor dscr DBGDSCR_ITREN) ++ snapshot_calls b
      else []).

(** How the polling of [cortexa_attach] ended: a poll found the reset line
    asserted, or found the core halted with [dscr] in DBGDSCR, or the
    last of the polls found neither. *)
Inductive poll_end :=
| Reset_asserted
| Halted (dscr : Z)
| Gave_up.

Definition gave_up (e : poll_end) : bool :=
  match e with Gave_up => true | _ => false end.

Definition reset_asserted (e : poll_end) : bool :=
  match e with Reset_asserted => true | _ => false end.

(** [k] polls that found nothing, each followed by the delay, and the poll
    that ended the loop. *)
Definition poll_calls (b : Z) (k : nat) (e : poll_end) : list call :=
  concat (replicate k (SRST_GET_VAL :: apb_read_calls b DBGDSCR ++ [DELAY 200]))
  ++ SRST_GET_VAL ::
     match e with
     | Reset_asserted => []
     | Halted dscr => halt_wait_calls b dscr
     | Gave_up => apb_read_calls b DBGDSCR
     end.

(** DBGDSCR as [cortexa_attach] writes it back. *)
Definition dscr_attach (dbgdscr : Z) : Z :=
  dscr_mode (Z.lor dbgdscr (Z.lor DBGDSCR_HDBGEN DBGDSCR_ITREN))
            DBGDSCR_EXTDCCMODE_STALL.

Definition clear_breakpoints_calls (b : Z) (n : nat) : list call :=
  flat_map (fun i => apb_write_calls b (DBGBCR i) 0) (seq 0 n).

Definition attach_calls (p : cortexa_priv) (dscr0 : Z) (k : nat) (e : poll_end)
  : list call :=
  (match ahb p with Some _ => [DP_ERROR] | None => [] end)
  ++ apb_read_calls (base p) DBGDSCR
  ++ apb_write_calls (base p) DBGDSCR (dscr_attach dscr0)
  ++ apb_write_calls (base p) DBGDRCR DBGDRCR_HRQ
  ++ poll_calls (base p) k e
  ++ (if gave_up e then []
      else clear_breakpoints_calls (base p) (hw_breakpoint_max p)
           ++ [SRST_SET_VAL false]).

Definition no_srst_get (cs : list call) : bool :=
  forallb (fun c => match c with SRST_GET_VAL => false | _ => true end) cs.

(** The environment says that the reset line is asserted, whenever asked. *)
Definition reset_held (env : environment) : Prop :=
  forall h, exists v, env h SRST_GET_VAL = Ret v /\ v <> 0.

(** The environment says that the reset line is not asserted and shows no
    word with bit 0 set, so DBGDSCR never shows HALTED. *)
Definition never_halts (env : environment) : Prop :=
  (forall h, env h SRST_GET_VAL = Ret 0) /\
  (forall h val, exists v,
     env h (DP_LOW_ACCESS ADIV5_LOW_READ ADIV5_DP_RDBUFF val) = Ret v
     /\ Z.testbit (u32 v) 0 = false).

(** The words that the last poll read. *)
Definition poll_end_words (e : poll_end) (fin : list Z) : Prop :=
  match e with
  | Reset_asserted => fin = []
  | Halted dscr =>
      Z.testbit dscr 0 = true /\
      exists rest, fin = dscr :: rest /\ length rest = 50%nat
  | Gave_up => exists w, fin = [w] /\ Z.testbit w 0 = false
  end.

(** A session of breakpoint requests, with the status of each. *)
Inductive bp_op :=
| Set_bp (addr len : Z)
| Clear_bp (addr len : Z).

Fixpoint run_bp_ops (env : environment) (ops : list bp_op) : M (list Z) :=
  match ops with
  | [] => ret []
  | op :: ops' =>
      x <- match op with
           | Set_bp addr len => cortexa_set_hw_bp env addr len
           | Clear_bp addr len => cortexa_clear_hw_bp env addr len
           end ;;
      xs <- run_bp_ops env ops' ;;
      ret (x :: xs)
  end.

(** *** What a run that may end in an exception leaves behind *)

(** The result and state of [m] started in [t], whatever the outcome,
    satisfy [Q]. *)
Definition runs {A} (m : M A) (t : target) (Q : outcome A -> target -> Prop) : Prop :=
  Q (fst (m t)) (snd (m t)).

(** Since the state [t0], r[15] of the cache was left alone or was given
    the sixteenth word read since. *)
Definition raw_pc_kept (t0 t : target) : Prop :=
  exists evs, trace t = trace t0 ++ evs /\
    (r (reg_cache (priv t)) !! 15%nat = r (reg_cache (priv t0)) !! 15%nat \/
     exists w, words_read evs !! 15%nat = Some w /\
               r (reg_cache (priv t)) !! 15%nat = Some w).

(** The same after exactly [k] words read. *)
Definition snap_inv (t0 : target) (k : nat) (t : target) : Prop :=
  exists evs, trace t = trace t0 ++ evs /\
    length (words_read evs) = k /\
    length (r (reg_cache (priv t))) = 16%nat /\
    length (d (reg_cache (priv t))) = 16%nat /\
    ((k <= 15)%nat ->
       r (reg_cache (priv t)) !! 15%nat = r (reg_cache (priv t0)) !! 15%nat) /\
    ((16 <= k)%nat ->
       exists w, words_read evs !! 15%nat = Some w /\
                 r (reg_cache (priv t)) !! 15%nat = Some w).

(** From [k] words read, [m] either returns with [k'] words read or ends
    otherwise, with r[15] not adjusted either way. *)
Definition phase (t0 : target) (k k' : nat) {A} (m : M A) : Prop :=
  forall t, snap_inv t0 k t ->
    runs m t (fun o t' =>
      match o with
      | Done _ => snap_inv t0 k' t'
      | _ => raw_pc_kept t0 t'
      end).

(** From [k] words read, [m] returns, or ends otherwise with r[15] not
    adjusted. *)
Definition phase_end (t0 : target) (k : nat) {A} (m : M A) : Prop :=
  forall t, snap_inv t0 k t ->
    runs m t (fun o t' =>
      match o with
      | Done _ => True
      | _ => raw_pc_kept t0 t'
      end).

(** A store that makes no call, keeps the arrays' lengths and r[15]. *)
Definition quiet_store (m : M unit) : Prop :=
  forall t,
    length (r (reg_cache (priv t))) = 16%nat ->
    length (d (reg_cache (priv t))) = 16%nat ->
    returns m t (fun _ t' =>
      trace t' = trace t /\
      length (r (reg_cache (priv t'))) = 16%nat /\
      length (d (reg_cache (priv t'))) = 16%nat /\
      r (reg_cache (priv t')) !! 15%nat = r (reg_cache (priv t)) !! 15%nat).

(** *** What the calls write to the debug registers *)

(** The register writes that the calls [cs] make through the APB, as
    (address, value): a write of TAR followed at once by a write of DRW. *)
Fixpoint apb_writes (cs : list call) : list (Z * Z) :=
  match cs with
  | [] => []
  | c :: cs' =>
      match c, cs' with
      | AP_WRITE APB_AP ADIV5_AP_TAR a,
        DP_LOW_ACCESS ADIV5_LOW_WRITE ADIV5_AP_DRW v :: _ => (a, v) :: apb_writes cs'
      | _, _ => apb_writes cs'
      end
  end.

(** The values that [cs] write to the debug register [reg], in order. *)
Definition written_to (b reg : Z) (cs : list call) : list Z :=
  map snd (List.filter (fun av => fst av =? u32 (b + 4 * reg)) (apb_writes cs)).

(** *** Register write-back *)

Definition restore_vfp_calls (b : Z) (c : reg_cache_t) (i : nat) : list call :=
  write_gpreg_calls b 1 (u32 (Z.shiftr (nth i (d c) 0) 32))
  ++ write_gpreg_calls b 0 (u32 (nth i (d c) 0))
  ++ apb_write_calls b DBGITR (Z.lor 0xec410b10 (Z.of_nat i)).

(** The transactions of [cortexa_regs_write_internal], in order. *)
Definition restore_calls (b : Z) (c : reg_cache_t) : list call :=
  flat_map (restore_vfp_calls b c) (seq 0 16)
  ++ (write_gpreg_calls b 0 (fpscr c) ++ apb_write_calls b DBGITR 0xeee10a10)
  ++ (write_gpreg_calls b 0 (cpsr c) ++ apb_write_calls b DBGITR 0xe12ff000)
  ++ (write_gpreg_calls b 0 (nth 15 (r c) 0) ++ apb_write_calls b DBGITR 0xe1a0f000)
  ++ flat_map (fun i => write_gpreg_calls b (Z.of_nat i) (nth i (r c) 0)) (seq 0 15).

(** The two halves of a double, high word first. *)
Definition halves (dv : Z) : list Z := [u32 (Z.shiftr dv 32); u32 dv].

(** The words that the write-back sends to the core through DBGDTRRX. *)
Definition restore_words (c : reg_cache_t) : list Z :=
  flat_map halves (d c) ++ [fpscr c; cpsr c; nth 15 (r c) 0] ++ take 15 (r c).

(** *** Detach and resume *)

(** DBGDSCR as [cortexa_detach] writes it back. *)
Definition dscr_detach (dbgdscr : Z) : Z :=
  Z.land dbgdscr (Z.lnot (Z.lor DBGDSCR_HDBGEN DBGDSCR_ITREN)).

(** The transactions of [cortexa_detach] that read [dscr] from DBGDSCR. *)
Definition detach_calls (p : cortexa_priv) (dscr : Z) : list call :=
  clear_breakpoints_calls (base p) (hw_breakpoint_max p)
  ++ restore_calls (base p) (reg_cache p)
  ++ apb_write_calls (base p) DBGITR (Z.lor MCR ICIALLU)
  ++ apb_read_calls (base p) DBGDSCR
  ++ apb_write_calls (base p) DBGDSCR (dscr_detach dscr)
  ++ apb_write_calls (base p) DBGDRCR (Z.lor DBGDRCR_CSE DBGDRCR_RRQ).

(** The table with the entries of the comparators zeroed. *)
Definition cleared_table (p : cortexa_priv) : list Z :=
  replicate (hw_breakpoint_max p) 0 ++ drop (hw_breakpoint_max p) (hw_breakpoint p).

(** DBGDSCR as [cortexa_halt_resume] writes it back. *)
Definition dscr_resume (step : bool) (dbgdscr : Z) : Z :=
  Z.land (if step then Z.lor dbgdscr DBGDSCR_INTDIS
          else Z.land dbgdscr (Z.lnot DBGDSCR_INTDIS))
         (Z.lnot DBGDSCR_ITREN).

(** What [cortexa_halt_resume] writes to DBGBVR[0] and DBGBCR[0]. *)
Definition resume_bvr (step : bool) (p : cortexa_priv) : Z :=
  if step then Z.land (nth 15 (r (reg_cache p)) 0) (Z.lnot 3)
  else Z.land (nth 0 (hw_breakpoint p) 0) (Z.lnot 3).

Definition resume_bcr (step : bool) (p : cortexa_priv) : Z :=
  if step then
    Z.lor (Z.lor DBGBCR_INST_MISMATCH
                 (bp_bas (nth 15 (r (reg_cache p)) 0)
                         (if Z.testbit (cpsr (reg_cache p)) 5 then 2 else 4)))
          DBGBCR_EN
  else bpc0 p.

(** [k] rounds of the restart request and the read of DBGDSCR. *)
Definition restart_calls (b : Z) (k : nat) : list call :=
  concat (replicate k (apb_write_calls b DBGDRCR (Z.lor DBGDRCR_CSE DBGDRCR_RRQ)
                       ++ apb_read_calls b DBGDSCR)).

(** The transactions of [cortexa_halt_resume] that writes [bvr] and [bcr]
    to the comparator 0, reads [dscr] from DBGDSCR and makes [k] rounds of
    the restart request. *)
Definition resume_calls (p : cortexa_priv) (step : bool) (bvr bcr dscr : Z) (k : nat)
  : list call :=
  apb_write_calls (base p) (DBGBVR 0) bvr
  ++ apb_write_calls (base p) (DBGBCR 0) bcr
  ++ restore_calls (base p) (reg_cache p)
  ++ apb_write_calls (base p) DBGITR (Z.lor MCR ICIALLU)
  ++ apb_read_calls (base p) DBGDSCR
  ++ apb_write_calls (base p) DBGDSCR (dscr_resume step dscr)
  ++ restart_calls (base p) k.

(** How the restart loop ended within the rounds followed: the last of the
    reads [polls] showed RESTARTED, or none of the [fuel] reads did. *)
Definition restart_end (fuel : nat) (res : option unit) (polls : list Z) : Prop :=
  match res with
  | Some _ =>
      exists ps w, polls = ps ++ [w] /\
        Forall (fun x => Z.testbit x 1 = false) ps /\ Z.testbit w 1 = true
  | None =>
      length polls = fuel /\ Forall (fun x => Z.testbit x 1 = false) polls
  end.

(** The environment shows no word with bit 1 set, so DBGDSCR never shows
    RESTARTED. *)
Definition never_restarts (env : environment) : Prop :=
  forall h val, exists v,
    env h (DP_LOW_ACCESS ADIV5_LOW_READ ADIV5_DP_RDBUFF val) = Ret v
    /\ Z.testbit (u32 v) 1 = false.

(** *** Memory write through the APB *)

(** The transactions of one round of the byte loop. *)
Definition write_byte_calls (b : Z) (x : byte) : list call :=
  write_gpreg_calls b 0 (Z_of_byte x)
  ++ apb_write_calls b DBGITR 0xe4cd0001
  ++ apb_read_calls b DBGDSCR.

(** The transactions of [cortexa_slow_mem_write_bytes] that sent the bytes
    [sent] and found the sticky abort bit set ([abort]) after the last of
    them, or never. *)
Definition slow_mem_write_bytes_calls (b dest : Z) (sent : list byte) (abort : bool)
  : list call :=
  write_gpreg_calls b 13 dest
  ++ flat_map (write_byte_calls b) sent
  ++ (if abort then apb_write_calls b DBGDRCR DBGDRCR_CSE else []).

(** The transactions of the word path of [cortexa_slow_mem_write] that sent
    the words [ws]. *)
Definition slow_mem_write_calls (b dest : Z) (ws : list Z) (dscr0 : Z) (abort : bool)
  : list call :=
  write_gpreg_calls b 0 dest
  ++ apb_read_calls b DBGDSCR
  ++ apb_write_calls b DBGDSCR (dscr_mode dscr0 DBGDSCR_EXTDCCMODE_FAST)
  ++ apb_write_calls b DBGITR 0xeca05e01
  ++ flat_map (apb_write_calls b DBGDTRRX) ws
  ++ apb_write_calls b DBGDSCR
       (dscr_mode (dscr_mode dscr0 DBGDSCR_EXTDCCMODE_FAST) DBGDSCR_EXTDCCMODE_STALL)
  ++ apb_read_calls b DBGDSCR
  ++ (if abort then apb_write_calls b DBGDRCR DBGDRCR_CSE else []).

(** How the byte loop ended: the last of the status words [ss] showed the
    sticky abort, or none of the [n] status words did. *)
Definition bytes_end (n : nat) (abort : bool) (ss : list Z) : Prop :=
  if abort then
    exists ss' s, ss = ss' ++ [s] /\
      Forall (fun x => Z.testbit x 6 = false) ss' /\ Z.testbit s 6 = true
  else length ss = n /\ Forall (fun x => Z.testbit x 6 = false) ss.

(** *** Memory access through the AHB *)

(** The cache line that holds the address [a]. *)
Definition line_of (a : Z) : Z := Z.land a (Z.lnot (CACHE_LINE_LENGTH - 1)).

(** The transactions of one round of the cache maintenance loop. *)
Definition line_calls (b op cl : Z) : list call :=
  write_gpreg_calls b 0 cl ++ apb_write_calls b DBGITR (Z.lor MCR op).

(** [n] rounds, from the line at [start] on, in 32-bit arithmetic. *)
Definition clean_calls (b op start : Z) (n : nat) : list call :=
  flat_map (fun j => line_calls b op (u32 (start + CACHE_LINE_LENGTH * Z.of_nat j)))
           (seq 0 n).

(** The number of lines from the line at [start] up to the address [last],
    not included. *)
Definition lines_upto (start last : Z) : nat :=
  Z.to_nat ((last - start + (CACHE_LINE_LENGTH - 1)) / CACHE_LINE_LENGTH).

(** Block transfers for the examples: a memory of zeros, and a write that
    is dropped. *)
Definition mem_read_zeros (ap : ADIv5_AP_t) (src len : Z) : M (list byte) :=
  ret (replicate (Z.to_nat len) x00).

Definition mem_write_dropped (ap : ADIv5_AP_t) (dest : Z) (src : list byte) (len : Z)
  : M unit :=
  ret tt.

(** A target with an AHB. *)
Definition target_ahb : target := mk_target (set_ahb (Some AHB_AP) priv0) [].

(** *** A link that fails *)

(** Every write to an access port times out, as with a core in WFI whose
    debug clock is stopped; every other call is answered with 0. *)
Definition env_wfi : environment := fun _ c =>
  match c with
  | AP_WRITE _ _ _ => Raise EXCEPTION_TIMEOUT
  | _ => Ret 0
  end.

(** Every write to an access port fails; every other call is answered
    with 0. *)
Definition env_dead : environment := fun _ c =>
  match c with
  | AP_WRITE _ _ _ => Raise EXCEPTION_ERROR
  | _ => Ret 0
  end.

(** The state [t] after the call [c] was answered with [v]. *)
Definition answered_with (t : target) (c : call) (v : Z) : target :=
  mk_target (priv t) (trace t ++ [(c, Ret v)]).

(** *** Probe *)

(** The test that [cortexa_probe] makes on the IDR of the access port 0. *)
Definition is_ahb_idr (idr : Z) : bool := Z.land idr 0xfffe00f =? 0x4770001.

(** The calls of [cortexa_probe], with or without an AHB found. *)
Definition probe_calls (with_ahb : bool) (csw debug_base : Z) : list call :=
  [TARGET_NEW; AP_REF APB_AP; NEW_AP 0; AP_REF AHB_AP]
  ++ (if with_ahb then [] else [AP_UNREF AHB_AP])
  ++ [AP_WRITE APB_AP ADIV5_AP_CSW csw]
  ++ apb_read_calls debug_base DBGDIDR.

(** The references on [ap] that the calls [cs] take and do not release. *)
Definition refs_held (ap : ADIv5_AP_t) (cs : list call) : Z :=
  fold_right (fun c n =>
    match c, ap with
    | AP_REF APB_AP, APB_AP | AP_REF AHB_AP, AHB_AP => n + 1
    | AP_UNREF APB_AP, APB_AP | AP_UNREF AHB_AP, AHB_AP => n - 1
    | _, _ => n
    end) 0 cs.

(** *** What a session of breakpoint requests keeps *)

(** [bpc0] is 0 exactly when the entry of slot 0 is. *)
Definition bpc0_in_step (p : cortexa_priv) : Prop :=
  nth 0 (hw_breakpoint p) 0 = 0 <-> bpc0 p = 0.

(** Two states that differ in the comparators' entries and [bpc0] only. *)
Definition same_but_table (p p' : cortexa_priv) : Prop :=
  base p' = base p /\ ahb p' = ahb p /\ reg_cache p' = reg_cache p /\
  hw_breakpoint_max p' = hw_breakpoint_max p /\
  mmu_fault p' = mmu_fault p /\
  drop (hw_breakpoint_max p) (hw_breakpoint p')
  = drop (hw_breakpoint_max p) (hw_breakpoint p).

(** *** The register file that gdb writes *)

(** The words of a list of doubles stored low word first, as they are
    sent: high word first. *)
Fixpoint swap_pairs (ws : list Z) : list Z :=
  match ws with
  | lo :: hi :: ws' => hi :: lo :: swap_pairs ws'
  | _ => []
  end.

(** The fifty little-endian words of a buffer of [regs_size] bytes. *)
Definition buffer_words (data : list byte) : list Z := array_of_repr 4 50 data.

(** A buffer of [regs_size] bytes that counts up. *)
Definition buffer_count : list byte := map (fun i => byte_of_Z (Z.of_nat i)) (seq 0 200).

(** *** The shape that every operation keeps *)


(** * Verification *)

Arguments u8 : simpl never.
Arguments u32 : simpl never.
Arguments u64 : simpl never.
Arguments size_t : simpl never.
Arguments Z.mul : simpl never.
Arguments Z.add : simpl never.
Arguments Z.sub : simpl never.
Arguments Z.lor : simpl never.
Arguments Z.land : simpl never.
Arguments Z.shiftl : simpl never.
Arguments Z.shiftr : simpl never.
Arguments Z.lnot : simpl never.

Ltac conjs := repeat match goal with |- _ /\ _ => split end.

(** ** Rules for [returns] *)

Lemma returns_ret {A} (a : A) t (Q : A -> target -> Prop) :
  Q a t -> returns (ret a) t Q.
Proof. intros H. exists a, t. split; [reflexivity | exact H]. Qed.

Lemma returns_bind {A B} (m : M A) (k : A -> M B) t (Q : B -> target -> Prop) :
  returns m t (fun a t' => returns (k a) t' Q) -> returns (bind m k) t Q.
Proof.
  intros (a & t1 & Hm & b & t2 & Hk & HQ).
  exists b, t2. split; [| exact HQ].
  unfold bind. rewrite Hm. exact Hk.
Qed.

Lemma returns_conseq {A} (m : M A) t (Q Q' : A -> target -> Prop) :
  returns m t Q -> (forall a t', Q a t' -> Q' a t') -> returns m t Q'.
Proof. intros (a & t' & Hm & HQ) H. exists a, t'. auto. Qed.

Lemma returns_get_priv t (Q : cortexa_priv -> target -> Prop) :
  Q (priv t) t -> returns get_priv t Q.
Proof. intros H. exists (priv t), t. split; [reflexivity | exact H]. Qed.

Lemma returns_modify_priv f t (Q : unit -> target -> Prop) :
  Q tt (mk_target (f (priv t)) (trace t)) -> returns (modify_priv f) t Q.
Proof. intros H. eexists _, _. split; [reflexivity | exact H]. Qed.

Lemma returns_TRY_CATCH {A} mask (m : M A) t (Q : exception_type + A -> target -> Prop) :
  returns m t (fun a t' => Q (inr a) t') -> returns (TRY_CATCH mask m) t Q.
Proof.
  intros (a & t' & Hm & HQ). exists (inr a), t'. split; [| exact HQ].
  unfold TRY_CATCH. rewrite Hm. reflexivity.
Qed.

Lemma returns_det {A} (m : M A) t (Q : A -> target -> Prop) a t' :
  returns m t Q -> m t = (Done a, t') -> Q a t'.
Proof. intros (a0 & t0 & Hm & HQ) E. rewrite Hm in E. injection E as -> ->. exact HQ. Qed.

(** ** Rules for [io] *)

Lemma words_read_app evs1 evs2 :
  words_read (evs1 ++ evs2) = words_read evs1 ++ words_read evs2.
Proof. unfold words_read. apply omap_app. Qed.

Lemma calls_app evs1 evs2 : calls (evs1 ++ evs2) = calls evs1 ++ calls evs2.
Proof. unfold calls. apply map_app. Qed.

Lemma answered_app env evs1 : forall h evs2,
  answered env h (evs1 ++ evs2)
  <-> answered env h evs1 /\ answered env (h ++ evs1) evs2.
Proof.
  induction evs1 as [| [c rp] evs1 IH]; intros h evs2; simpl.
  - rewrite app_nil_r. tauto.
  - rewrite IH, <- app_assoc. simpl. tauto.
Qed.

Lemma io_refl env h : io env h h [] [].
Proof. exists []. rewrite app_nil_r. simpl. auto. Qed.

Lemma io_trans env h1 h2 h3 cs1 cs2 vs1 vs2 :
  io env h1 h2 cs1 vs1 -> io env h2 h3 cs2 vs2 ->
  io env h1 h3 (cs1 ++ cs2) (vs1 ++ vs2).
Proof.
  intros (e1 & T1 & C1 & W1 & A1) (e2 & T2 & C2 & W2 & A2).
  exists (e1 ++ e2). rewrite T2, T1, calls_app, words_read_app, C1, C2, W1, W2.
  rewrite app_assoc. conjs; auto. apply answered_app. rewrite <- T1. auto.
Qed.

Lemma io_eq env h h' cs vs cs' vs' :
  io env h h' cs vs -> cs = cs' -> vs = vs' -> io env h h' cs' vs'.
Proof. intros H -> ->. exact H. Qed.

Lemma io_length env h h' cs vs :
  io env h h' cs vs -> length h' = (length h + length cs)%nat.
Proof.
  intros (evs & T & C & _). rewrite T, length_app, <- C. unfold calls.
  rewrite length_map. reflexivity.
Qed.

Lemma u32_range z : is_u32 (u32 z).
Proof. unfold is_u32, u32. apply Z.mod_pos_bound. lia. Qed.

Lemma u32_id z : is_u32 z -> u32 z = z.
Proof. unfold is_u32, u32. intros H. apply Z.mod_small. exact H. Qed.

(** Chains the [io] facts of consecutive steps into one. *)
Ltac io_chain :=
  repeat match goal with
  | H1 : io ?e ?a ?b _ _, H2 : io ?e ?b ?c _ _ |- _ =>
      let H := fresh "Hio" in
      pose proof (io_trans _ _ _ _ _ _ _ _ H1 H2) as H; clear H1 H2
  end.

(** Closes an [io] goal from the [io] facts of the steps. *)
Ltac io_done :=
  simpl trace in *; io_chain;
  match goal with
  | H : io ?e ?a ?b _ _ |- io ?e ?a ?b _ _ =>
      eapply io_eq; [exact H | try reflexivity ..]
  | |- io _ ?a ?a _ _ => eapply io_eq; [apply io_refl | try reflexivity ..]
  end.

Ltac mstep :=
  lazymatch goal with
  | |- returns (bind _ _) _ _ => apply returns_bind
  | |- returns (ret _) _ _ => apply returns_ret
  | |- returns get_priv _ _ => apply returns_get_priv
  | |- returns (modify_priv _) _ _ => apply returns_modify_priv
  | |- returns (TRY_CATCH _ _) _ _ => apply returns_TRY_CATCH
  end.

(** Runs the next operation by its specification [L]. *)
Tactic Notation "muse" uconstr(L) :=
  eapply returns_conseq; [eapply L | cbv beta; intros ? ? ?].

(** Reduces the projections of updated states, and nothing else. *)
Ltac simpl_priv :=
  cbn [priv trace base ahb reg_cache hw_breakpoint_max hw_breakpoint bpc0
       mmu_fault r cpsr fpscr d set_reg_cache set_r set_d set_cpsr set_fpscr
       set_mmu_fault set_bpc0 set_hw_breakpoint] in *.

(** Rewrites the state of every step to the state it started from. *)
Ltac privs :=
  repeat match goal with
  | H : priv ?x = _ |- _ => is_var x; progress (rewrite H in * )
  end.

Tactic Notation "muse" uconstr(L) "as" ident(a) ident(t) ident(H) :=
  eapply returns_conseq; [eapply L | cbv beta; intros a t H].

Lemma land_1_bit0 x : Z.land x 1 = Z.b2z (Z.testbit x 0).
Proof.
  change 1 with (Z.ones 1). rewrite Z.land_ones by lia.
  rewrite Z.bit0_mod. reflexivity.
Qed.

Lemma land_1_eqb x : (Z.land x 1 =? 0) = negb (Z.testbit x 0).
Proof. rewrite land_1_bit0. destruct (Z.testbit x 0); reflexivity. Qed.

Lemma page_offset_kept par va :
  Z.land (Z.lor (Z.land par (Z.lnot 0xfff)) (Z.land va 0xfff)) 0xfff
  = Z.land va 0xfff.
Proof.
  apply Z.bits_inj'. intros n Hn.
  rewrite !Z.land_spec, Z.lor_spec, !Z.land_spec, Z.lnot_spec by lia.
  destruct (Z.testbit par n), (Z.testbit va n), (Z.testbit 0xfff n); reflexivity.
Qed.

Section Reliable.

Variable env : environment.
Hypothesis Hrel : reliable env.

Ltac answer :=
  match goal with
  | |- context [env ?h ?c] =>
      let v := fresh "v" in
      let E := fresh "E" in
      destruct (Hrel h c) as [v E]; rewrite E; simpl
  end.

Lemma apb_write_spec reg val t :
  returns (apb_write env reg val) t (fun _ t' =>
    priv t' = priv t /\ io env (trace t) (trace t') (apb_write_calls (base (priv t)) reg val) []).
Proof.
  unfold returns, apb_write, adiv5_ap_write, adiv5_dp_low_access, bind, get_priv,
    extcall, ret. simpl.
  do 2 answer. eexists _, _. split; [reflexivity |]. simpl. split; [reflexivity |].
  eexists [_; _]. simpl. rewrite <- app_assoc. simpl. conjs; auto.
  simpl. auto.
Qed.

Lemma apb_read_spec reg t :
  returns (apb_read env reg) t (fun v t' =>
    priv t' = priv t /\ is_u32 v /\
    io env (trace t) (trace t') (apb_read_calls (base (priv t)) reg) [v]).
Proof.
  unfold returns, apb_read, adiv5_ap_write, adiv5_dp_low_access, bind, get_priv,
    extcall, ret. simpl.
  do 3 answer. eexists _, _. split; [reflexivity |]. simpl. split; [reflexivity |].
  split; [apply u32_range |].
  eexists [_; _; _]. simpl. rewrite <- !app_assoc. simpl. conjs; auto.
  simpl. auto.
Qed.

Lemma read_gpreg_spec regno t :
  returns (read_gpreg env regno) t (fun v t' =>
    priv t' = priv t /\ is_u32 v /\
    io env (trace t) (trace t') (read_gpreg_calls (base (priv t)) regno) [v]).
Proof.
  unfold read_gpreg. mstep. muse apb_write_spec. destruct H as [P1 I1].
  muse apb_read_spec. destruct H as (P2 & U & I2).
  privs. conjs; auto. io_done.
Qed.

Lemma write_gpreg_spec regno val t :
  returns (write_gpreg env regno val) t (fun _ t' =>
    priv t' = priv t /\
    io env (trace t) (trace t') (write_gpreg_calls (base (priv t)) regno val) []).
Proof.
  unfold write_gpreg. mstep. muse apb_write_spec. destruct H as [P1 I1].
  muse apb_write_spec. destruct H as (P2 & I2).
  privs. conjs; auto. io_done.
Qed.

(** ** Address translation *)

(** C6.  For every virtual address [va], [va_to_pa] makes the transactions
    of writing r0, ATS1CPR, reading PAR into r0 and reading r0, and returns
    [(par & ~0xfff) | (va & 0xfff)] for the word [par] it read, whether bit
    0 of [par] is set or not; the low 12 bits of the result are those of
    [va]; with bit 0 of [par] set, [mmu_fault] is set and nothing else of
    the state changes; with bit 0 clear the state is unchanged. *)
Theorem va_to_pa_returns_page_and_offset va t :
  exists par pa t',
    va_to_pa env va t = (Done pa, t') /\
    io env (trace t) (trace t') (va_to_pa_calls (base (priv t)) va) [par] /\
    pa = Z.lor (Z.land par (Z.lnot 0xfff)) (Z.land va 0xfff) /\
    Z.land pa 0xfff = Z.land va 0xfff /\
    (Z.testbit par 0 = true -> priv t' = set_mmu_fault true (priv t)) /\
    (Z.testbit par 0 = false -> priv t' = priv t).
Proof.
  assert (returns (va_to_pa env va) t (fun pa t' => exists par,
    io env (trace t) (trace t') (va_to_pa_calls (base (priv t)) va) [par] /\
    pa = Z.lor (Z.land par (Z.lnot 0xfff)) (Z.land va 0xfff) /\
    priv t' = if Z.testbit par 0 then set_mmu_fault true (priv t) else priv t)) as R.
  { unfold va_to_pa.
    mstep. muse write_gpreg_spec. destruct H as [P1 I1].
    mstep. muse apb_write_spec. destruct H as [P2 I2].
    mstep. muse apb_write_spec. destruct H as [P3 I3].
    mstep. muse read_gpreg_spec. destruct H as (P4 & U4 & I4).
    privs. rewrite land_1_eqb, negb_involutive.
    mstep. destruct (Z.testbit a2 0) eqn:B.
    - mstep. mstep. exists a2. rewrite B. simpl. rewrite P4.
      split; [io_done | auto].
    - mstep. mstep. exists a2. rewrite B. split; [io_done | auto]. }
  destruct R as (pa & t' & E & par & I & Hpa & P).
  exists par, pa, t'. split; [exact E |]. split; [exact I |]. split; [exact Hpa |].
  split; [subst pa; apply page_offset_kept |].
  split; intros B; rewrite B in P; exact P.
Qed.

(** ** Error check *)

Lemma cortexa_check_error_spec t :
  returns (cortexa_check_error env) t (fun b t' =>
    b = ahb_error env t || mmu_fault (priv t) /\
    priv t' = set_mmu_fault false (priv t) /\
    exists cs, io env (trace t) (trace t') cs [] /\
      cs = match ahb (priv t) with Some _ => [DP_ERROR] | None => [] end).
Proof.
  unfold returns, cortexa_check_error, ahb_error, adiv5_dp_error, bind, get_priv,
    modify_priv, extcall, ret. simpl.
  destruct (ahb (priv t)) as [a |]; simpl.
  - destruct (Hrel (trace t) DP_ERROR) as [v E]. rewrite E. simpl.
    eexists _, _. split; [reflexivity |]. simpl. conjs; auto.
    eexists. split; [| reflexivity]. exists [(DP_ERROR, Ret v)]. simpl. auto.
  - eexists _, _. split; [reflexivity |]. simpl. conjs; auto.
    eexists. split; [| reflexivity]. apply io_refl.
Qed.

Lemma check_error_times_false n t :
  ahb_quiet env -> mmu_fault (priv t) = false ->
  returns (check_error_times env n) t (fun bs t' =>
    bs = replicate n false /\ priv t' = priv t).
Proof.
  intros Hq. revert t. induction n as [| n IH]; intros t Hf; simpl.
  - mstep. auto.
  - mstep. muse cortexa_check_error_spec. destruct H as (Hb & Hp & _).
    assert (a = false) as ->.
    { rewrite Hb, Hf. unfold ahb_error. destruct (ahb (priv t)); [| reflexivity].
      destruct (Hq (trace t)) as (v & -> & ->). reflexivity. }
    mstep. muse IH.
    + rewrite Hp. reflexivity.
    + destruct H as [-> Hp']. mstep. split; [reflexivity |].
      rewrite Hp', Hp. destruct (priv t). simpl in *. subst. reflexivity.
Qed.

(** C2.  [cortexa_check_error] returns true if and only if the debug port
    behind the AHB reports an error or [mmu_fault] is set, and it leaves
    [mmu_fault] cleared and the rest of the state as it was.  So with
    [mmu_fault] set and a debug port that reports no error, the first of any
    number of calls in a row returns true and every later one false. *)
Theorem cortexa_check_error_reads_and_clears t :
  exists b t',
    cortexa_check_error env t = (Done b, t') /\
    (b = true <-> ahb_error env t = true \/ mmu_fault (priv t) = true) /\
    priv t' = set_mmu_fault false (priv t) /\
    mmu_fault (priv t') = false /\
    (ahb_quiet env -> mmu_fault (priv t) = true ->
     forall n, exists t'',
       check_error_times env (S n) t = (Done (true :: replicate n false), t'')).
Proof.
  destruct (cortexa_check_error_spec t) as (b & t' & E & Hb & Hp & _).
  exists b, t'. split; [exact E |].
  split; [rewrite Hb; apply orb_true_iff |].
  split; [exact Hp |]. split; [rewrite Hp; reflexivity |].
  intros Hq Hf n. simpl. unfold bind at 1. rewrite E.
  assert (b = true) as -> by (rewrite Hb, Hf; apply orb_true_r).
  destruct (check_error_times_false n t' Hq) as (bs & t'' & E' & -> & _).
  { rewrite Hp. reflexivity. }
  exists t''. unfold bind. rewrite E'. reflexivity.
Qed.

End Reliable.

(** ** Breakpoint table: the scan *)

Lemma bp_scan_found test n : forall i0 i e t,
  (i0 <= i < i0 + n)%nat ->
  hw_breakpoint (priv t) !! i = Some e -> test e = true ->
  (forall j e', (i0 <= j < i)%nat ->
     hw_breakpoint (priv t) !! j = Some e' -> test e' = false) ->
  bp_scan test i0 n t = (Done i, t).
Proof.
  induction n as [| n IH]; intros i0 i e t Hi He Ht Hlt; [lia |].
  simpl. unfold bind, get_priv, array_get. simpl.
  destruct (decide (i0 = i)) as [-> | Hne].
  - rewrite He. unfold ret. rewrite Ht. reflexivity.
  - destruct (hw_breakpoint (priv t) !! i0) as [e0 |] eqn:E0.
    + unfold ret. rewrite (Hlt i0 e0) by (auto; lia).
      apply (IH (S i0) i e); auto; try lia.
      intros j e' Hj. apply Hlt. lia.
    + apply lookup_ge_None in E0. apply lookup_lt_Some in He. lia.
Qed.

Lemma bp_scan_none test n : forall i0 t,
  (i0 + n <= length (hw_breakpoint (priv t)))%nat ->
  (forall j e', (i0 <= j < i0 + n)%nat ->
     hw_breakpoint (priv t) !! j = Some e' -> test e' = false) ->
  bp_scan test i0 n t = (Done (i0 + n)%nat, t).
Proof.
  induction n as [| n IH]; intros i0 t Hlen Hno; simpl.
  - unfold ret. rewrite Nat.add_0_r. reflexivity.
  - unfold bind, get_priv, array_get. simpl.
    destruct (hw_breakpoint (priv t) !! i0) as [e0 |] eqn:E0.
    + unfold ret. rewrite (Hno i0 e0) by (auto; lia).
      rewrite IH; [f_equal; f_equal; lia | lia |].
      intros j e' Hj. apply Hno. lia.
    + apply lookup_ge_None in E0. lia.
Qed.

Lemma first_or_none (f : nat -> bool) n :
  (exists i, (i < n)%nat /\ f i = true /\ forall j, (j < i)%nat -> f j = false)
  \/ (forall j, (j < n)%nat -> f j = false).
Proof.
  induction n as [| n [(i & Hi & Hf & Hlt) | Hno]].
  - right. intros j Hj. lia.
  - left. exists i. split; [lia | auto].
  - destruct (f n) eqn:E.
    + left. exists n. split; [lia | auto].
    + right. intros j Hj. destruct (decide (j = n)) as [-> | ?]; [exact E |].
      apply Hno. lia.
Qed.

Lemma first_slot_or_no_slot test p :
  priv_wf p -> (exists i, first_slot test p i) \/ no_slot test p.
Proof.
  intros (Hlen & Hmax & _).
  destruct (first_or_none
              (fun j => match hw_breakpoint p !! j with
                        | Some e => test e | None => false end)
              (hw_breakpoint_max p)) as [(i & Hi & Hf & Hlt) | Hno].
  - left. exists i. split; [exact Hi |]. split.
    + destruct (hw_breakpoint p !! i) as [e |]; [eauto | discriminate].
    + intros j e Hj E. specialize (Hlt j Hj). rewrite E in Hlt. exact Hlt.
  - right. intros j e Hj E. specialize (Hno j Hj). rewrite E in Hno. exact Hno.
Qed.

Lemma first_slot_unique test p i j :
  first_slot test p i -> first_slot test p j -> i = j.
Proof.
  intros (Hi & (ei & Ei & Ti) & Li) (Hj & (ej & Ej & Tj) & Lj).
  destruct (Nat.lt_trichotomy i j) as [H | [H | H]]; [| exact H |].
  - rewrite (Lj i ei H Ei) in Ti. discriminate.
  - rewrite (Li j ej H Ej) in Tj. discriminate.
Qed.

Lemma first_slot_not_no_slot test p i : first_slot test p i -> ~ no_slot test p.
Proof.
  intros (Hi & (e & E & T) & _) Hno. rewrite (Hno i e Hi E) in T. discriminate.
Qed.

Lemma scan_first_slot test t i :
  first_slot test (priv t) i ->
  bp_scan test 0 (hw_breakpoint_max (priv t)) t = (Done i, t).
Proof.
  intros (Hi & (e & E & T) & Hlt).
  apply (bp_scan_found test _ 0%nat i e); auto; try lia.
  intros j e' Hj. apply Hlt. lia.
Qed.

Lemma scan_no_slot test t :
  priv_wf (priv t) -> no_slot test (priv t) ->
  bp_scan test 0 (hw_breakpoint_max (priv t)) t
  = (Done (hw_breakpoint_max (priv t)), t).
Proof.
  intros (Hlen & Hmax & _) Hno.
  apply (bp_scan_none test _ 0%nat); [simpl; lia |].
  intros j e' Hj. apply Hno. lia.
Qed.

Lemma store_hw_breakpoint_spec i v t :
  (i < length (hw_breakpoint (priv t)))%nat ->
  returns (store_hw_breakpoint i v) t (fun _ t' =>
    t' = mk_target (set_hw_breakpoint (<[i := v]> (hw_breakpoint (priv t))) (priv t))
                   (trace t)).
Proof.
  intros Hi. unfold store_hw_breakpoint, array_set.
  mstep. mstep. destruct (decide _) as [_ | ?]; [| lia].
  mstep. mstep. mstep. reflexivity.
Qed.

Lemma returns_eq {A} (m : M A) t a t' (Q : A -> target -> Prop) :
  m t = (Done a, t') -> Q a t' -> returns m t Q.
Proof. intros E H. exists a, t'. auto. Qed.

Section Breakpoints.

Variable env : environment.
Hypothesis Hrel : reliable env.

Lemma cortexa_set_hw_bp_spec addr len t i :
  first_slot slot_free (priv t) i ->
  returns (cortexa_set_hw_bp env addr len) t (fun x t' =>
    x = 0 /\
    priv t' = bp_set_priv i addr len (priv t) /\
    io env (trace t) (trace t')
       (apb_write_calls (base (priv t)) (DBGBVR i) (Z.land addr (Z.lnot 3))
        ++ apb_write_calls (base (priv t)) (DBGBCR i)
             (Z.lor (bp_bas addr len) DBGBCR_EN)) []).
Proof.
  intros Hfs. pose proof Hfs as (Hi & (e & E & T) & Hlt).
  unfold cortexa_set_hw_bp. mstep. mstep.
  mstep. eapply returns_eq; [apply (scan_first_slot slot_free t i Hfs) |].
  destruct (decide (i = hw_breakpoint_max (priv t))) as [-> | _]; [lia |].
  mstep. muse store_hw_breakpoint_spec; [eapply lookup_lt_Some; eassumption |].
  subst t'.
  mstep. muse (apb_write_spec env Hrel). destruct H as [P1 I1].
  mstep. muse (apb_write_spec env Hrel). destruct H as [P2 I2].
  privs. simpl in *. unfold bp_set_priv.
  mstep. destruct (decide (i = O)) as [-> | Hne].
  - mstep. mstep. simpl. rewrite P2. conjs; auto. io_done.
  - mstep. mstep. conjs; auto. io_done.
Qed.

Lemma cortexa_set_hw_bp_full addr len t :
  priv_wf (priv t) -> no_slot slot_free (priv t) ->
  cortexa_set_hw_bp env addr len t = (Done (-1), t).
Proof.
  intros Hwf Hno. unfold cortexa_set_hw_bp, bind at 1, get_priv. simpl.
  unfold bind. change (fun e => Z.land e 1 =? 0) with slot_free.
  rewrite (scan_no_slot slot_free t Hwf Hno).
  destruct (decide _) as [_ | ?]; [reflexivity | congruence].
Qed.

Lemma cortexa_clear_hw_bp_spec addr len t i :
  first_slot (slot_at addr) (priv t) i ->
  returns (cortexa_clear_hw_bp env addr len) t (fun x t' =>
    x = 0 /\
    priv t' = bp_clear_priv i (priv t) /\
    io env (trace t) (trace t') (apb_write_calls (base (priv t)) (DBGBCR i) 0) []).
Proof.
  intros Hfs. pose proof Hfs as (Hi & (e & E & T) & Hlt).
  unfold cortexa_clear_hw_bp. mstep. mstep.
  mstep. eapply returns_eq; [apply (scan_first_slot (slot_at addr) t i Hfs) |].
  destruct (decide (i = hw_breakpoint_max (priv t))) as [-> | _]; [lia |].
  mstep. muse store_hw_breakpoint_spec; [eapply lookup_lt_Some; eassumption |].
  subst t'.
  mstep. muse (apb_write_spec env Hrel). destruct H as [P1 I1].
  privs. simpl in *. unfold bp_clear_priv.
  mstep. destruct (decide (i = O)) as [-> | Hne].
  - mstep. mstep. simpl. rewrite P1. conjs; auto.
  - mstep. mstep. conjs; auto.
Qed.

Lemma cortexa_clear_hw_bp_none addr len t :
  priv_wf (priv t) -> no_slot (slot_at addr) (priv t) ->
  cortexa_clear_hw_bp env addr len t = (Done (-1), t).
Proof.
  intros Hwf Hno. unfold cortexa_clear_hw_bp, bind at 1, get_priv. simpl.
  unfold bind. change (fun e => Z.land e (Z.lnot 1) =? addr) with (slot_at addr).
  rewrite (scan_no_slot (slot_at addr) t Hwf Hno).
  destruct (decide _) as [_ | ?]; [reflexivity | congruence].
Qed.

End Breakpoints.

(** ** Breakpoint table: counting free slots *)

Lemma filter_length_insert (test : Z -> bool) v : forall (l : list Z) i e,
  l !! i = Some e ->
  (length (List.filter test (<[i := v]> l)) + (if test e then 1 else 0)
   = length (List.filter test l) + (if test v then 1 else 0))%nat.
Proof.
  induction l as [| x l IH]; intros i e E; [discriminate |].
  destruct i as [| i]; simpl in *.
  - injection E as ->. destruct (test e), (test v); simpl; lia.
  - specialize (IH i e E). destruct (test x); simpl; lia.
Qed.

Lemma filter_nil_lookup (test : Z -> bool) (l : list Z) :
  (forall j e, l !! j = Some e -> test e = false) -> List.filter test l = [].
Proof.
  induction l as [| x l IH]; intros H; [reflexivity |]. simpl.
  rewrite (H O x eq_refl). apply IH. intros j e E. apply (H (S j) e E).
Qed.

Lemma filter_lookup_pos (test : Z -> bool) : forall (l : list Z) j e,
  l !! j = Some e -> test e = true -> (0 < length (List.filter test l))%nat.
Proof.
  induction l as [| x l IH]; intros j e E T; [discriminate |]. simpl.
  destruct j as [| j]; simpl in *.
  - injection E as ->. rewrite T. simpl. lia.
  - specialize (IH j e E T). destruct (test x); simpl; lia.
Qed.

Lemma free_slots_zero p : no_slot slot_free p -> free_slots p = O.
Proof.
  intros Hno. unfold free_slots. rewrite filter_nil_lookup; [reflexivity |].
  intros j e E. apply lookup_take_Some in E as [E Hj]. eapply Hno; eauto.
Qed.

Lemma free_slots_pos p i : first_slot slot_free p i -> (0 < free_slots p)%nat.
Proof.
  intros (Hi & (e & E & T) & _). unfold free_slots.
  apply (filter_lookup_pos slot_free _ i e); [| exact T].
  rewrite lookup_take_lt by exact Hi. exact E.
Qed.

Lemma free_slots_insert p i e v :
  (i < hw_breakpoint_max p)%nat -> hw_breakpoint p !! i = Some e ->
  (free_slots (set_hw_breakpoint (<[i := v]> (hw_breakpoint p)) p)
   + (if slot_free e then 1 else 0)
   = free_slots p + (if slot_free v then 1 else 0))%nat.
Proof.
  intros Hi E. unfold free_slots. simpl.
  rewrite take_insert_lt by exact Hi.
  apply filter_length_insert. rewrite lookup_take_lt by exact Hi. exact E.
Qed.

Lemma free_slots_set_bpc0 v p : free_slots (set_bpc0 v p) = free_slots p.
Proof. reflexivity. Qed.

Lemma lor_1_live addr : slot_free (Z.lor addr 1) = false.
Proof.
  unfold slot_free. rewrite land_1_eqb, Z.lor_spec. simpl.
  rewrite orb_true_r. reflexivity.
Qed.

Lemma free_slots_bp_set p i addr len :
  first_slot slot_free p i ->
  S (free_slots (bp_set_priv i addr len p)) = free_slots p.
Proof.
  intros (Hi & (e & E & T) & _).
  pose proof (free_slots_insert p i e (Z.lor addr 1) Hi E) as H.
  rewrite T, lor_1_live in H. unfold bp_set_priv. simpl.
  destruct (decide (i = O)); [rewrite free_slots_set_bpc0 |]; lia.
Qed.

Lemma free_slots_bp_clear p i e :
  (i < hw_breakpoint_max p)%nat -> hw_breakpoint p !! i = Some e ->
  slot_free e = false ->
  free_slots (bp_clear_priv i p) = S (free_slots p).
Proof.
  intros Hi E T.
  pose proof (free_slots_insert p i e 0 Hi E) as H.
  rewrite T in H. change (slot_free 0) with true in H. cbv iota in H.
  unfold bp_clear_priv. simpl.
  destruct (decide (i = O)); [rewrite free_slots_set_bpc0 |]; lia.
Qed.

Lemma priv_wf_bp_set p i addr len : priv_wf p -> priv_wf (bp_set_priv i addr len p).
Proof.
  unfold priv_wf, bp_set_priv. intros (H1 & H2 & H3 & H4).
  destruct (decide (i = O)); simpl; rewrite length_insert; auto.
Qed.

Lemma priv_wf_bp_clear p i : priv_wf p -> priv_wf (bp_clear_priv i p).
Proof.
  unfold priv_wf, bp_clear_priv. intros (H1 & H2 & H3 & H4).
  destruct (decide (i = O)); simpl; rewrite length_insert; auto.
Qed.

Lemma hw_breakpoint_bp_set p i addr len :
  hw_breakpoint (bp_set_priv i addr len p) = <[i := Z.lor addr 1]> (hw_breakpoint p).
Proof. unfold bp_set_priv. destruct (decide (i = O)); reflexivity. Qed.

Lemma hw_breakpoint_bp_clear p i :
  hw_breakpoint (bp_clear_priv i p) = <[i := 0]> (hw_breakpoint p).
Proof. unfold bp_clear_priv. destruct (decide (i = O)); reflexivity. Qed.

Lemma hw_breakpoint_max_bp_set p i addr len :
  hw_breakpoint_max (bp_set_priv i addr len p) = hw_breakpoint_max p.
Proof. unfold bp_set_priv. destruct (decide (i = O)); reflexivity. Qed.

Lemma hw_breakpoint_max_bp_clear p i :
  hw_breakpoint_max (bp_clear_priv i p) = hw_breakpoint_max p.
Proof. unfold bp_clear_priv. destruct (decide (i = O)); reflexivity. Qed.

Section BreakpointClaims.

Variable env : environment.
Hypothesis Hrel : reliable env.

Lemma first_free_slot_exists p :
  priv_wf p -> (0 < free_slots p)%nat -> exists i, first_slot slot_free p i.
Proof.
  intros Hwf Hpos. destruct (first_slot_or_no_slot slot_free p Hwf) as [H | H].
  - exact H.
  - apply free_slots_zero in H. lia.
Qed.

Lemma no_free_slot p : priv_wf p -> free_slots p = O -> no_slot slot_free p.
Proof.
  intros Hwf Hz. destruct (first_slot_or_no_slot slot_free p Hwf) as [[i H] | H].
  - apply free_slots_pos in H. lia.
  - exact H.
Qed.

Lemma set_hw_bp_each_spec reqs : forall t,
  priv_wf (priv t) -> (length reqs <= free_slots (priv t))%nat ->
  returns (set_hw_bp_each env reqs) t (fun xs t' =>
    xs = replicate (length reqs) 0 /\
    priv_wf (priv t') /\
    (free_slots (priv t') + length reqs = free_slots (priv t))%nat).
Proof.
  induction reqs as [| [addr len] reqs IH]; intros t Hwf Hk; simpl in *.
  - mstep. auto.
  - destruct (first_free_slot_exists (priv t) Hwf) as [i Hi]; [lia |].
    mstep. muse (cortexa_set_hw_bp_spec env Hrel addr len t i Hi).
    destruct H as (-> & Hp & _).
    pose proof (free_slots_bp_set (priv t) i addr len Hi) as Hfree.
    rewrite <- Hp in Hfree.
    mstep. muse IH.
    + rewrite Hp. apply priv_wf_bp_set. exact Hwf.
    + lia.
    + destruct H as (-> & Hwf' & Hfree'). mstep. conjs; auto. lia.
Qed.

(** C3.  In a state of the shape the probe sets up, [cortexa_set_hw_bp]
    finds the first of the slots 0 .. hw_breakpoint_max-1 whose entry has
    bit 0 clear.  If there is none it returns -1 and the state, the trace of
    transactions included, is what it was.  Otherwise it returns 0, the slot
    holds [addr | 1], DBGBVR[i] was written with [addr & ~3] and then
    DBGBCR[i] with [bp_bas(addr, len) | EN], and [bpc0] holds that control
    value when i = 0.  Any k requests, k at most the number of free slots,
    all return 0 and use up k free slots; once none is left the next request
    returns -1 and changes nothing. *)
Theorem cortexa_set_hw_bp_takes_first_free_slot addr len t :
  priv_wf (priv t) ->
  (no_slot slot_free (priv t) ->
   cortexa_set_hw_bp env addr len t = (Done (-1), t)) /\
  (forall i, first_slot slot_free (priv t) i ->
   exists t',
     cortexa_set_hw_bp env addr len t = (Done 0, t') /\
     hw_breakpoint (priv t') = <[i := Z.lor addr 1]> (hw_breakpoint (priv t)) /\
     bpc0 (priv t') = (if decide (i = O)
                       then Z.lor (bp_bas addr len) DBGBCR_EN
                       else bpc0 (priv t)) /\
     priv t' = bp_set_priv i addr len (priv t) /\
     io env (trace t) (trace t')
        (apb_write_calls (base (priv t)) (DBGBVR i) (Z.land addr (Z.lnot 3))
         ++ apb_write_calls (base (priv t)) (DBGBCR i)
              (Z.lor (bp_bas addr len) DBGBCR_EN)) []) /\
  (forall reqs, (length reqs <= free_slots (priv t))%nat ->
   exists t',
     set_hw_bp_each env reqs t = (Done (replicate (length reqs) 0), t') /\
     (free_slots (priv t') + length reqs = free_slots (priv t))%nat /\
     (length reqs = free_slots (priv t) ->
      forall addr' len', cortexa_set_hw_bp env addr' len' t' = (Done (-1), t'))).
Proof.
  intros Hwf. split; [| split].
  - intros Hno. apply cortexa_set_hw_bp_full; assumption.
  - intros i Hi.
    destruct (cortexa_set_hw_bp_spec env Hrel addr len t i Hi)
      as (x & t' & E & -> & Hp & Hio).
    exists t'. split; [exact E |]. rewrite Hp.
    split; [apply hw_breakpoint_bp_set |].
    split; [unfold bp_set_priv; destruct (decide (i = O)); reflexivity |].
    split; [reflexivity | exact Hio].
  - intros reqs Hk.
    destruct (set_hw_bp_each_spec reqs t Hwf Hk) as (xs & t' & E & -> & Hwf' & Hfree).
    exists t'. split; [exact E |]. split; [exact Hfree |].
    intros Hall addr' len'. apply cortexa_set_hw_bp_full; [exact Hwf' |].
    apply no_free_slot; [exact Hwf' | lia].
Qed.

End BreakpointClaims.

(** ** The live bit *)

Lemma testbit_1 n : 0 <= n -> Z.testbit 1 n = (n =? 0).
Proof.
  intros Hn. destruct (Z.eqb_spec n 0) as [-> | Hne]; [reflexivity |].
  change 1 with (Z.ones 1). apply Z.ones_spec_high. lia.
Qed.

Lemma lor_1_odd a : Z.testbit a 0 = true -> Z.lor a 1 = a.
Proof.
  intros H. apply Z.bits_inj'. intros n Hn.
  rewrite Z.lor_spec, testbit_1 by exact Hn.
  destruct (Z.eqb_spec n 0) as [-> | _].
  - rewrite H. reflexivity.
  - apply orb_false_r.
Qed.

Lemma land_lor_1_even a :
  Z.testbit a 0 = false -> Z.land (Z.lor a 1) (Z.lnot 1) = a.
Proof.
  intros H. apply Z.bits_inj'. intros n Hn.
  rewrite Z.land_spec, Z.lor_spec, Z.lnot_spec, testbit_1 by exact Hn.
  destruct (Z.eqb_spec n 0) as [-> | _].
  - rewrite H. reflexivity.
  - simpl. rewrite orb_false_r, andb_true_r. reflexivity.
Qed.

Lemma land_lnot_1_bit0 e : Z.testbit (Z.land e (Z.lnot 1)) 0 = false.
Proof. rewrite Z.land_spec, Z.lnot_spec by lia. simpl. apply andb_false_r. Qed.

Lemma slot_at_odd addr e : Z.testbit addr 0 = true -> slot_at addr e = false.
Proof.
  intros H. unfold slot_at. apply Z.eqb_neq. intros E.
  rewrite <- E, land_lnot_1_bit0 in H. discriminate.
Qed.

Lemma land_lnot_1_zero e : Z.land e (Z.lnot 1) = 0 -> e = 0 \/ e = 1.
Proof.
  intros H.
  assert (e = Z.b2z (Z.testbit e 0)) as E.
  { rewrite <- land_1_bit0. apply Z.bits_inj'. intros n Hn.
    rewrite Z.land_spec, testbit_1 by exact Hn.
    destruct (Z.eqb_spec n 0) as [-> | Hne]; [rewrite andb_true_r; reflexivity |].
    rewrite andb_false_r.
    assert (Z.testbit (Z.land e (Z.lnot 1)) n = false) as B
      by (rewrite H; apply Z.bits_0).
    rewrite Z.land_spec, Z.lnot_spec, testbit_1 in B by exact Hn.
    destruct (Z.eqb_spec n 0); [contradiction |].
    simpl in B. rewrite andb_true_r in B. exact B. }
  destruct (Z.testbit e 0); simpl in E; auto.
Qed.

Lemma slot_free_false_bit0 e : slot_free e = false <-> Z.testbit e 0 = true.
Proof.
  unfold slot_free. rewrite land_1_eqb. destruct (Z.testbit e 0); simpl; split; congruence.
Qed.

Lemma slot_at_zero_entry addr : addr <> 0 -> slot_at addr 0 = false.
Proof. intros H. unfold slot_at. rewrite Z.land_0_l. apply Z.eqb_neq. congruence. Qed.

Lemma no_slot_after_clear addr p i :
  addr <> 0 ->
  (forall j e, j <> i -> (j < hw_breakpoint_max p)%nat ->
     hw_breakpoint p !! j = Some e -> slot_at addr e = false) ->
  no_slot (slot_at addr) (bp_clear_priv i p).
Proof.
  intros Hz Hother j e Hj E.
  rewrite hw_breakpoint_max_bp_clear in Hj. rewrite hw_breakpoint_bp_clear in E.
  apply list_lookup_insert_Some in E as [(-> & <- & _) | (Hne & E)].
  - apply slot_at_zero_entry. exact Hz.
  - apply (Hother j e); auto.
Qed.

Lemma first_slot_at_after_set addr len p i :
  Z.testbit addr 0 = false ->
  first_slot slot_free p i -> no_slot (slot_at addr) p ->
  first_slot (slot_at addr) (bp_set_priv i addr len p) i /\
  (forall j e, j <> i -> (j < hw_breakpoint_max (bp_set_priv i addr len p))%nat ->
     hw_breakpoint (bp_set_priv i addr len p) !! j = Some e ->
     slot_at addr e = false).
Proof.
  intros Hev (Hi & (e & E & T) & Hlt) Hno. unfold first_slot.
  rewrite !hw_breakpoint_max_bp_set, !hw_breakpoint_bp_set. split.
  - split; [exact Hi |]. split.
    + exists (Z.lor addr 1). split.
      * apply list_lookup_insert_eq. eapply lookup_lt_Some. exact E.
      * unfold slot_at. rewrite land_lor_1_even by exact Hev. apply Z.eqb_refl.
    + intros j e' Hj E'. rewrite list_lookup_insert_ne in E' by lia.
      apply (Hno j e'); [lia | exact E'].
  - intros j e' Hne Hj E'. rewrite list_lookup_insert_ne in E' by congruence.
    apply (Hno j e'); assumption.
Qed.

Section ClearClaims.

Variable env : environment.
Hypothesis Hrel : reliable env.

(** What [cortexa_clear_hw_bp] does, and where clearing is idempotent.  The
    [len] argument is ignored.  The scan takes the first of the slots
    0 .. hw_breakpoint_max-1 whose entry without bit 0 equals [addr]; if
    there is none the call returns -1 and changes nothing; otherwise the
    entry becomes 0, DBGBCR[i] is written with 0, [bpc0] becomes 0 when
    i = 0, and the call returns 0.  When the slot taken was live, exactly
    one more slot is free afterwards; when moreover [addr] is not 0 and no
    other slot holds it, a second clear of [addr] returns -1.  A breakpoint
    set at an even address other than 0 that no slot held is cleared by the
    first clear and the second returns -1. *)
Lemma cortexa_clear_hw_bp_first_match addr len t :
  priv_wf (priv t) ->
  (forall len',
     cortexa_clear_hw_bp env addr len' t = cortexa_clear_hw_bp env addr len t) /\
  (no_slot (slot_at addr) (priv t) ->
   cortexa_clear_hw_bp env addr len t = (Done (-1), t)) /\
  (forall i, first_slot (slot_at addr) (priv t) i ->
   exists t',
     cortexa_clear_hw_bp env addr len t = (Done 0, t') /\
     hw_breakpoint (priv t') = <[i := 0]> (hw_breakpoint (priv t)) /\
     bpc0 (priv t') = (if decide (i = O) then 0 else bpc0 (priv t)) /\
     priv t' = bp_clear_priv i (priv t) /\
     io env (trace t) (trace t') (apb_write_calls (base (priv t)) (DBGBCR i) 0) [] /\
     (forall e, hw_breakpoint (priv t) !! i = Some e -> slot_free e = false ->
        free_slots (priv t') = S (free_slots (priv t))) /\
     (addr <> 0 ->
      (forall j e, j <> i -> (j < hw_breakpoint_max (priv t))%nat ->
         hw_breakpoint (priv t) !! j = Some e -> slot_at addr e = false) ->
      forall len', cortexa_clear_hw_bp env addr len' t' = (Done (-1), t'))) /\
  (Z.testbit addr 0 = false -> addr <> 0 ->
   no_slot (slot_at addr) (priv t) -> (0 < free_slots (priv t))%nat ->
   forall len1 len2, exists t',
     set_clear_clear env addr len len1 len2 t = (Done (0, 0, -1), t') /\
     free_slots (priv t') = free_slots (priv t)).
Proof.
  intros Hwf. split; [| split; [| split]].
  - intros len'. reflexivity.
  - intros Hno. apply cortexa_clear_hw_bp_none; assumption.
  - intros i Hi.
    destruct (cortexa_clear_hw_bp_spec env Hrel addr len t i Hi)
      as (x & t' & E & -> & Hp & Hio).
    exists t'. split; [exact E |]. rewrite Hp.
    split; [apply hw_breakpoint_bp_clear |].
    split; [unfold bp_clear_priv; destruct (decide (i = O)); reflexivity |].
    split; [reflexivity |]. split; [exact Hio |].
    destruct Hi as (Hlt & _). split.
    + intros e E' T. apply (free_slots_bp_clear (priv t) i e); assumption.
    + intros Hz Hother len'. apply cortexa_clear_hw_bp_none.
      * rewrite Hp. apply priv_wf_bp_clear. exact Hwf.
      * rewrite Hp. apply no_slot_after_clear; assumption.
  - intros Hev Hz Hno Hfree len1 len2.
    destruct (first_free_slot_exists (priv t) Hwf Hfree) as [i Hi].
    destruct (cortexa_set_hw_bp_spec env Hrel addr len t i Hi)
      as (x & t1 & E1 & -> & Hp1 & _).
    destruct (first_slot_at_after_set addr len (priv t) i Hev Hi Hno) as [Hat Hother].
    rewrite <- Hp1 in Hat, Hother.
    destruct (cortexa_clear_hw_bp_spec env Hrel addr len1 t1 i Hat)
      as (y & t2 & E2 & -> & Hp2 & _).
    assert (cortexa_clear_hw_bp env addr len2 t2 = (Done (-1), t2)) as E3.
    { apply cortexa_clear_hw_bp_none.
      - rewrite Hp2, Hp1. apply priv_wf_bp_clear, priv_wf_bp_set. exact Hwf.
      - rewrite Hp2. apply no_slot_after_clear; assumption. }
    exists t2. split.
    + unfold set_clear_clear, bind. rewrite E1, E2, E3. reflexivity.
    + pose proof (free_slots_bp_set (priv t) i addr len Hi) as F1.
      destruct Hat as (Hlt & (e & Ee & Te) & _).
      pose proof (free_slots_bp_clear (priv t1) i e Hlt Ee) as F2.
      rewrite Hp1, hw_breakpoint_bp_set in Ee.
      rewrite list_lookup_insert_eq in Ee
        by (destruct Hi as (_ & (e0 & E0 & _) & _); eapply lookup_lt_Some; exact E0).
      injection Ee as <-. rewrite Hp2, F2 by apply lor_1_live.
      rewrite Hp1. lia.
Qed.

End ClearClaims.

Section LiveBitClaims.

Variable env : environment.
Hypothesis Hrel : reliable env.

Lemma no_slot_at_odd addr p : Z.testbit addr 0 = true -> no_slot (slot_at addr) p.
Proof. intros H j e _ _. apply slot_at_odd. exact H. Qed.

(** C9.  With bit 0 of [addr] set and a free slot, [cortexa_set_hw_bp]
    returns 0 and the first free slot holds [addr | 1], which is [addr].
    From then on, and in any state, [cortexa_clear_hw_bp] with that [addr]
    returns -1 and changes nothing, whatever [len] is.  A clear that returns
    0 and leaves the slot holding 0 was called with [addr & ~1]. *)
Theorem odd_breakpoint_address_cannot_be_cleared addr len t i :
  priv_wf (priv t) ->
  Z.testbit addr 0 = true ->
  first_slot slot_free (priv t) i ->
  exists t1,
    cortexa_set_hw_bp env addr len t = (Done 0, t1) /\
    Z.lor addr 1 = addr /\
    hw_breakpoint (priv t1) !! i = Some addr /\
    (forall t2 len', priv_wf (priv t2) ->
       cortexa_clear_hw_bp env addr len' t2 = (Done (-1), t2)) /\
    (forall len', cortexa_clear_hw_bp env addr len' t1 = (Done (-1), t1)) /\
    (forall a len' t2,
       cortexa_clear_hw_bp env a len' t1 = (Done 0, t2) ->
       hw_breakpoint (priv t2) !! i = Some 0 ->
       a = Z.land addr (Z.lnot 1)).
Proof.
  intros Hwf Hodd Hi.
  destruct (cortexa_set_hw_bp_spec env Hrel addr len t i Hi)
    as (x & t1 & E1 & -> & Hp1 & _).
  assert (priv_wf (priv t1)) as Hwf1
    by (rewrite Hp1; apply priv_wf_bp_set; exact Hwf).
  assert (hw_breakpoint (priv t1) !! i = Some addr) as Hslot.
  { rewrite Hp1, hw_breakpoint_bp_set, lor_1_odd by exact Hodd.
    apply list_lookup_insert_eq.
    destruct Hi as (_ & (e & E & _) & _). eapply lookup_lt_Some. exact E. }
  assert (forall t2 len', priv_wf (priv t2) ->
            cortexa_clear_hw_bp env addr len' t2 = (Done (-1), t2)) as Hfail.
  { intros t2 len' Hwf2. apply cortexa_clear_hw_bp_none; [exact Hwf2 |].
    apply no_slot_at_odd. exact Hodd. }
  exists t1. split; [exact E1 |]. split; [apply lor_1_odd; exact Hodd |].
  split; [exact Hslot |]. split; [exact Hfail |].
  split; [intros len'; apply Hfail; exact Hwf1 |].
  intros a len' t2 E2 Hfreed.
  destruct (first_slot_or_no_slot (slot_at a) (priv t1) Hwf1) as [[j Hj] | Hno].
  - destruct (cortexa_clear_hw_bp_spec env Hrel a len' t1 j Hj)
      as (y & t2' & E2' & _ & Hp2 & _).
    rewrite E2 in E2'. injection E2' as _ <-.
    rewrite Hp2, hw_breakpoint_bp_clear in Hfreed.
    destruct (decide (j = i)) as [-> | Hne].
    + destruct Hj as (_ & (e & E & T) & _). rewrite Hslot in E. injection E as <-.
      unfold slot_at in T. apply Z.eqb_eq in T. symmetry. exact T.
    + rewrite list_lookup_insert_ne in Hfreed by exact Hne.
      rewrite Hslot in Hfreed. injection Hfreed as ->. discriminate.
  - rewrite (cortexa_clear_hw_bp_none env a len' t1 Hwf1 Hno) in E2. discriminate.
Qed.

(** With a free slot [i], the scan of [cortexa_clear_hw_bp] for address 0
    stops at a slot [j] not after [i]: the entry there is 0, and then [j]
    is [i], or it is 1, the entry of a breakpoint set at address 0 or 1. *)
Lemma zero_slot_up_to_free p i :
  priv_wf p -> table_ok p -> first_slot slot_free p i ->
  exists j e,
    first_slot (slot_at 0) p j /\ (j <= i)%nat /\
    hw_breakpoint p !! j = Some e /\
    (e = 0 /\ j = i \/ e = 1 /\ (j < i)%nat).
Proof.
  intros Hwf Hok (Hi & (ei & Ei & Ti) & Hlt).
  assert (ei = 0) as ->.
  { destruct (Hok i ei Hi Ei) as [-> | B]; [reflexivity |].
    apply slot_free_false_bit0 in B. congruence. }
  destruct (first_slot_or_no_slot (slot_at 0) p Hwf) as [[j Hj] | Hno];
    [| pose proof (Hno i 0 Hi Ei) as F; discriminate].
  pose proof Hj as (Hjm & (e & E & T) & Hjlt).
  assert (j <= i)%nat as Hji.
  { destruct (Nat.le_gt_cases j i) as [H | H]; [exact H |].
    pose proof (Hjlt i 0 H Ei) as F. discriminate. }
  exists j, e. split; [exact Hj |]. split; [exact Hji |]. split; [exact E |].
  unfold slot_at in T. apply Z.eqb_eq, land_lnot_1_zero in T as [-> | ->].
  - left. split; [reflexivity |].
    destruct (Nat.eq_dec j i) as [H | H]; [exact H |].
    pose proof (Hlt j 0 ltac:(lia) E) as F. discriminate.
  - right. split; [reflexivity |].
    destruct (Nat.eq_dec j i) as [-> | H]; [| lia].
    rewrite Ei in E. discriminate.
Qed.

(** C10.  In a table whose entries are 0 or carry the live bit, with a
    first free slot [i], [cortexa_clear_hw_bp(0, len)] returns 0, whether
    or not a breakpoint at address 0 was set.  The scan stops at the first
    slot [j] whose entry without its live bit is 0: [j] is not after [i],
    and the entry there is 0 or 1.  That entry is written with 0,
    DBGBCR[j] is written with 0, and [bpc0] becomes 0 when [j] is slot 0.
    The entry is 0 exactly when [j] is the first free slot [i], and then
    the table and the number of free slots are as before; this is so
    whenever no slot before [i] holds 1.  Otherwise the entry is 1, a live
    breakpoint set at address 0 or at address 1 in a slot before [i]: it
    is the one that is cleared, and one more slot is free. *)
Theorem clear_hw_bp_zero_succeeds_while_a_slot_is_free len t i :
  priv_wf (priv t) ->
  table_ok (priv t) ->
  first_slot slot_free (priv t) i ->
  exists j e t',
    cortexa_clear_hw_bp env 0 len t = (Done 0, t') /\
    first_slot (slot_at 0) (priv t) j /\ (j <= i)%nat /\
    hw_breakpoint (priv t) !! j = Some e /\ (e = 0 \/ e = 1) /\
    slot_at 0 0 = true /\ slot_at 0 1 = true /\
    hw_breakpoint (priv t') = <[j := 0]> (hw_breakpoint (priv t)) /\
    bpc0 (priv t') = (if decide (j = O) then 0 else bpc0 (priv t)) /\
    io env (trace t) (trace t') (apb_write_calls (base (priv t)) (DBGBCR j) 0) [] /\
    (e = 0 <-> j = i) /\
    (e = 0 ->
       hw_breakpoint (priv t') = hw_breakpoint (priv t) /\
       free_slots (priv t') = free_slots (priv t)) /\
    (e = 1 ->
       (j < i)%nat /\ slot_free e = false /\
       hw_breakpoint (priv t') !! i = Some 0 /\
       free_slots (priv t') = S (free_slots (priv t))) /\
    ((forall k, (k < i)%nat -> hw_breakpoint (priv t) !! k <> Some 1) -> j = i).
Proof.
  intros Hwf Hok Hi.
  destruct (zero_slot_up_to_free (priv t) i Hwf Hok Hi)
    as (j & e & Hj & Hji & E & Hcase).
  destruct (cortexa_clear_hw_bp_spec env Hrel 0 len t j Hj)
    as (x & t' & Et & -> & Hp & Hio).
  assert (hw_breakpoint (priv t') = <[j := 0]> (hw_breakpoint (priv t))) as Htab
    by (rewrite Hp; apply hw_breakpoint_bp_clear).
  exists j, e, t'. split; [exact Et |]. split; [exact Hj |]. split; [exact Hji |].
  split; [exact E |]. split; [destruct Hcase as [[-> _] | [-> _]]; auto |].
  split; [reflexivity |]. split; [reflexivity |]. split; [exact Htab |].
  split; [rewrite Hp; unfold bp_clear_priv; destruct (decide (j = O)); reflexivity |].
  split; [exact Hio |].
  split; [destruct Hcase as [[-> ->] | [-> H]]; split; intros; try reflexivity;
          try discriminate; lia |].
  split; [| split].
  - intros ->.
    assert (hw_breakpoint (priv t') = hw_breakpoint (priv t)) as Hsame
      by (rewrite Htab; apply list_insert_id; exact E).
    split; [exact Hsame |].
    unfold free_slots. rewrite Hsame, Hp, hw_breakpoint_max_bp_clear. reflexivity.
  - intros ->. destruct Hcase as [[F _] | [_ Hlt]]; [discriminate |].
    split; [exact Hlt |]. split; [reflexivity |]. split.
    + rewrite Htab, list_lookup_insert_ne by lia.
      destruct Hi as (Him & (ei & Ei & Ti) & _).
      destruct (Hok i ei Him Ei) as [-> | B]; [exact Ei |].
      apply slot_free_false_bit0 in B. congruence.
    + rewrite Hp. apply (free_slots_bp_clear (priv t) j 1); [| exact E | reflexivity].
      destruct Hi as (Him & _). lia.
  - intros Hno1. destruct Hcase as [[_ H] | [-> Hlt]]; [exact H |].
    exfalso. exact (Hno1 j Hlt E).
Qed.

End LiveBitClaims.

(** ** Object representations *)

Lemma Z_of_byte_range b : 0 <= Z_of_byte b < 256.
Proof.
  unfold Z_of_byte. pose proof (Byte.to_N_bounded b) as H. lia.
Qed.

Lemma Z_of_byte_of_Z z : Z_of_byte (byte_of_Z z) = z mod 256.
Proof.
  unfold Z_of_byte, byte_of_Z.
  pose proof (Z.mod_pos_bound z 256 ltac:(lia)) as Hr.
  destruct (Byte.of_N (Z.to_N (z mod 256))) as [b |] eqn:E.
  - apply Byte.to_of_N in E. rewrite E. lia.
  - apply Byte.of_N_None_iff in E. lia.
Qed.

Lemma byte_of_Z_of_byte b : byte_of_Z (Z_of_byte b) = b.
Proof.
  unfold byte_of_Z. rewrite Z.mod_small by apply Z_of_byte_range.
  unfold Z_of_byte. rewrite N2Z.id, Byte.of_to_N. reflexivity.
Qed.

Lemma length_le_bytes n : forall z, length (le_bytes n z) = n.
Proof. induction n as [| n IH]; intros z; simpl; [| rewrite IH]; reflexivity. Qed.

Lemma le_value_le_bytes n : forall z,
  le_value (le_bytes n z) = z mod 2 ^ (8 * Z.of_nat n).
Proof.
  induction n as [| n IH]; intros z.
  - simpl. rewrite Z.mod_1_r. reflexivity.
  - cbn [le_bytes le_value]. rewrite IH, Z_of_byte_of_Z, Z.shiftr_div_pow2 by lia.
    replace (8 * Z.of_nat (S n)) with (8 + 8 * Z.of_nat n) by lia.
    rewrite Z.pow_add_r by lia. change (2 ^ 8) with 256.
    rewrite Z.rem_mul_r by lia. reflexivity.
Qed.

Lemma le_bytes_le_value bs : le_bytes (length bs) (le_value bs) = bs.
Proof.
  induction bs as [| b bs IH]; [reflexivity |].
  cbn [length le_bytes le_value]. pose proof (Z_of_byte_range b) as Hb. f_equal.
  - rewrite <- (byte_of_Z_of_byte b) at 2. unfold byte_of_Z.
    replace ((Z_of_byte b + 256 * le_value bs) mod 256) with (Z_of_byte b mod 256);
      [reflexivity |].
    rewrite (Z.mul_comm 256), Z.mod_add by lia. reflexivity.
  - rewrite Z.shiftr_div_pow2 by lia. change (2 ^ 8) with 256.
    replace ((Z_of_byte b + 256 * le_value bs) / 256) with (le_value bs); [exact IH |].
    rewrite (Z.add_comm (Z_of_byte b)), (Z.mul_comm 256), Z.div_add_l by lia.
    rewrite Z.div_small by lia. lia.
Qed.

Lemma le_bytes_le_value_take n bs :
  (n <= length bs)%nat -> le_bytes n (le_value (take n bs)) = take n bs.
Proof.
  intros H. replace n with (length (take n bs)) at 1 by (rewrite length_take; lia).
  apply le_bytes_le_value.
Qed.

Lemma length_array_repr w l : length (array_repr w l) = (w * length l)%nat.
Proof.
  unfold array_repr. induction l as [| x l IH]; simpl; [lia |].
  rewrite length_app, length_le_bytes, IH. lia.
Qed.

Lemma array_of_repr_app w n : forall l rest,
  length l = n ->
  array_of_repr w n (array_repr w l ++ rest)
  = map (fun z => z mod 2 ^ (8 * Z.of_nat w)) l.
Proof.
  induction n as [| n IH]; intros [| x l] rest Hl; try discriminate; [reflexivity |].
  unfold array_repr. cbn [map concat array_of_repr]. rewrite <- app_assoc.
  rewrite take_app_length' by (rewrite length_le_bytes; reflexivity).
  rewrite drop_app_length' by (rewrite length_le_bytes; reflexivity).
  rewrite le_value_le_bytes. f_equal. apply IH. simpl in Hl. lia.
Qed.

Lemma array_repr_of_repr w n : forall bs,
  (w * n <= length bs)%nat ->
  array_repr w (array_of_repr w n bs) = take (w * n) bs.
Proof.
  induction n as [| n IH]; intros bs Hlen.
  - rewrite Nat.mul_0_r. reflexivity.
  - cbn [array_of_repr]. unfold array_repr in *. cbn [map concat].
    rewrite IH by (rewrite length_drop; lia).
    rewrite le_bytes_le_value_take by lia.
    replace (w * S n)%nat with (w + w * n)%nat by lia.
    rewrite <- take_take_drop. reflexivity.
Qed.

Lemma length_array_of_repr w n : forall bs, length (array_of_repr w n bs) = n.
Proof. induction n as [| n IH]; intros bs; simpl; [| rewrite IH]; reflexivity. Qed.

Lemma map_mod_id k (l : list Z) :
  Forall (fun z => 0 <= z < k) l -> map (fun z => z mod k) l = l.
Proof.
  induction 1 as [| x l Hx _ IH]; [reflexivity |]. simpl.
  rewrite IH, Z.mod_small by exact Hx. reflexivity.
Qed.

Lemma length_reg_cache_repr c :
  length (r c) = 16%nat -> length (d c) = 16%nat ->
  length (reg_cache_repr c) = regs_size.
Proof.
  intros Hr Hd. unfold reg_cache_repr.
  rewrite !length_app, !length_array_repr, !length_le_bytes, Hr, Hd. reflexivity.
Qed.

Lemma reg_cache_of_repr_repr c :
  length (r c) = 16%nat -> length (d c) = 16%nat -> reg_cache_ok c ->
  reg_cache_of_repr (reg_cache_repr c) = c.
Proof.
  intros Hr Hd (Ur & Uc & Uf & Ud). destruct c as [rr cc ff dd]. simpl in *.
  unfold reg_cache_of_repr, reg_cache_repr. cbn [r cpsr fpscr d].
  assert (length (array_repr 4 rr) = 64%nat) as L1
    by (rewrite length_array_repr, Hr; reflexivity).
  f_equal.
  - rewrite array_of_repr_app by exact Hr. apply map_mod_id. exact Ur.
  - rewrite drop_app_length' by (symmetry; exact L1).
    rewrite take_app_length' by (rewrite length_le_bytes; reflexivity).
    rewrite le_value_le_bytes. apply Z.mod_small. exact Uc.
  - replace 68%nat with (64 + 4)%nat by reflexivity. rewrite <- drop_drop.
    rewrite drop_app_length' by (symmetry; exact L1).
    rewrite drop_app_length' by (rewrite length_le_bytes; reflexivity).
    rewrite take_app_length' by (rewrite length_le_bytes; reflexivity).
    rewrite le_value_le_bytes. apply Z.mod_small. exact Uf.
  - replace 72%nat with (64 + (4 + 4))%nat by reflexivity. rewrite <- !drop_drop.
    rewrite drop_app_length' by (symmetry; exact L1).
    rewrite !drop_app_length' by (rewrite length_le_bytes; reflexivity).
    rewrite <- (app_nil_r (array_repr 8 dd)).
    rewrite array_of_repr_app by exact Hd. apply map_mod_id. exact Ud.
Qed.

Lemma reg_cache_repr_of_repr bs :
  (regs_size <= length bs)%nat ->
  reg_cache_repr (reg_cache_of_repr bs) = take regs_size bs.
Proof.
  intros Hlen. unfold regs_size, sizeof_reg_cache in *.
  unfold reg_cache_repr, reg_cache_of_repr. cbn [r cpsr fpscr d].
  rewrite array_repr_of_repr by lia.
  rewrite array_repr_of_repr by (rewrite length_drop; lia).
  rewrite !le_bytes_le_value_take by (rewrite length_drop; lia).
  change (16 * 4 + 4 + 4 + 16 * 8)%nat with (64 + (4 + (4 + 128)))%nat.
  change (4 * 16)%nat with 64%nat. change (8 * 16)%nat with 128%nat.
  rewrite <- !take_take_drop. rewrite !drop_drop. reflexivity.
Qed.

(** ** Register access of the facade *)

Arguments array_repr : simpl never.
Arguments array_of_repr : simpl never.
Arguments reg_cache_repr : simpl never.
Arguments reg_cache_of_repr : simpl never.

Lemma cortexa_regs_read_run data t :
  priv_wf (priv t) -> (regs_size <= length data)%nat ->
  cortexa_regs_read data t
  = (Done (reg_cache_repr (reg_cache (priv t)) ++ drop regs_size data), t).
Proof.
  intros (_ & _ & Hr & Hd) Hlen.
  pose proof (length_reg_cache_repr _ Hr Hd) as L.
  unfold cortexa_regs_read, bind, get_priv, memcpy. simpl.
  rewrite L. destruct (decide (regs_size <= regs_size)%nat) as [_ | ?]; [| lia].
  destruct (decide (regs_size <= length data)%nat) as [_ | ?]; [| lia].
  unfold ret. rewrite take_ge by lia. reflexivity.
Qed.

Lemma cortexa_regs_write_run data t :
  priv_wf (priv t) -> (regs_size <= length data)%nat ->
  cortexa_regs_write data t
  = (Done tt, mk_target (set_reg_cache (reg_cache_of_repr (take regs_size data))
                                       (priv t))
                        (trace t)).
Proof.
  intros (_ & _ & Hr & Hd) Hlen.
  pose proof (length_reg_cache_repr _ Hr Hd) as L.
  unfold cortexa_regs_write, bind, get_priv, memcpy. simpl.
  rewrite L. destruct (decide (regs_size <= length data)%nat) as [_ | ?]; [| lia].
  destruct (decide (regs_size <= regs_size)%nat) as [_ | ?]; [| lia].
  unfold ret, modify_priv. simpl. rewrite drop_ge by lia. rewrite app_nil_r.
  reflexivity.
Qed.

Lemma priv_wf_set_reg_cache bs p :
  priv_wf p -> priv_wf (set_reg_cache (reg_cache_of_repr bs) p).
Proof.
  intros (H1 & H2 & _ & _). unfold priv_wf, reg_cache_of_repr.
  cbn [hw_breakpoint hw_breakpoint_max reg_cache set_reg_cache r d].
  rewrite !length_array_of_repr. auto.
Qed.

Lemma set_reg_cache_same p : set_reg_cache (reg_cache p) p = p.
Proof. destruct p. reflexivity. Qed.

(** C8.  [cortexa_regs_read] copies the [regs_size] bytes of the register
    cache into the caller's buffer and [cortexa_regs_write] copies the first
    [regs_size] bytes of the caller's buffer into the cache.  After
    [regs_read(buf); regs_write(buf); regs_read(buf2)] the first [regs_size]
    bytes of [buf2] are those of [buf], the two buffers are equal when they
    are [regs_size] bytes long, and a cache that holds values of its types
    is unchanged.  Whatever [regs_size] bytes are written are the bytes
    that the next read returns. *)
Theorem regs_read_write_read_same_bytes buf buf2 t :
  priv_wf (priv t) ->
  (regs_size <= length buf)%nat -> (regs_size <= length buf2)%nat ->
  exists b1 b2 t',
    regs_read_write_read buf buf2 t = (Done (b1, b2), t') /\
    b1 = reg_cache_repr (reg_cache (priv t)) ++ drop regs_size buf /\
    b2 = take regs_size b1 ++ drop regs_size buf2 /\
    take regs_size b2 = take regs_size b1 /\
    (length buf = regs_size -> length buf2 = regs_size -> b2 = b1) /\
    (reg_cache_ok (reg_cache (priv t)) -> t' = t) /\
    (forall data, (regs_size <= length data)%nat ->
     exists t1 b t2,
       cortexa_regs_write data t = (Done tt, t1) /\
       cortexa_regs_read buf2 t1 = (Done b, t2) /\
       take regs_size b = take regs_size data).
Proof.
  intros Hwf Hb1 Hb2. pose proof Hwf as (_ & _ & Hr & Hd).
  pose proof (length_reg_cache_repr _ Hr Hd) as L.
  set (c := reg_cache (priv t)) in *.
  set (b1 := reg_cache_repr c ++ drop regs_size buf).
  assert (take regs_size b1 = reg_cache_repr c) as T1
    by (unfold b1; apply take_app_length'; symmetry; exact L).
  assert (regs_size <= length b1)%nat as Lb1
    by (unfold b1; rewrite length_app, L; lia).
  set (t1 := mk_target (set_reg_cache (reg_cache_of_repr (take regs_size b1)) (priv t))
                       (trace t)).
  assert (priv_wf (priv t1)) as Hwf1 by (apply priv_wf_set_reg_cache; exact Hwf).
  assert (reg_cache_repr (reg_cache (priv t1)) = reg_cache_repr c) as R1.
  { unfold t1. cbn [priv reg_cache set_reg_cache].
    rewrite reg_cache_repr_of_repr by (rewrite length_take; lia).
    rewrite take_take, Nat.min_id. exact T1. }
  exists b1, (take regs_size b1 ++ drop regs_size buf2), t1.
  split; [| split; [reflexivity | split; [reflexivity | split; [| split; [| split]]]]].
  - unfold regs_read_write_read, bind.
    rewrite (cortexa_regs_read_run buf t Hwf Hb1). fold c. fold b1.
    rewrite (cortexa_regs_write_run b1 t Hwf Lb1). fold t1.
    rewrite (cortexa_regs_read_run buf2 t1 Hwf1 Hb2), R1, T1. reflexivity.
  - apply take_app_length'. rewrite length_take. lia.
  - intros E1 E2. rewrite (drop_ge buf2) by lia. rewrite app_nil_r.
    apply take_ge. unfold b1. rewrite length_app, L, length_drop. lia.
  - intros Hok. unfold t1. rewrite T1.
    rewrite (reg_cache_of_repr_repr c Hr Hd Hok). unfold c.
    rewrite set_reg_cache_same. destruct t. reflexivity.
  - intros data Hdata.
    eexists _, _, _. split; [apply cortexa_regs_write_run; assumption |].
    split.
    + apply cortexa_regs_read_run; [apply priv_wf_set_reg_cache; exact Hwf | exact Hb2].
    + cbn [priv reg_cache set_reg_cache].
      rewrite reg_cache_repr_of_repr by (rewrite length_take; lia).
      rewrite take_take, Nat.min_id. apply take_app_length'.
      rewrite length_take. lia.
Qed.

(** ** The snapshot taken on halt *)

Lemma returns_for_loop (I : nat -> target -> Prop) body n : forall i t,
  I i t ->
  (forall j t1, (i <= j < i + n)%nat -> I j t1 ->
     returns (body j) t1 (fun _ t2 => I (S j) t2)) ->
  returns (for_loop i n body) t (fun _ t' => I (i + n)%nat t').
Proof.
  induction n as [| n IH]; intros i t Hi Hbody; simpl.
  - mstep. rewrite Nat.add_0_r. exact Hi.
  - mstep. eapply returns_conseq; [apply (Hbody i t); [lia | exact Hi] |].
    cbv beta. intros _ t1 H1.
    replace (i + S n)%nat with (S i + n)%nat by lia.
    apply IH; [exact H1 |]. intros j t2 Hj. apply Hbody. lia.
Qed.

Lemma insert_next (vs l : list Z) j v :
  length vs = j -> (j < length l)%nat ->
  <[j := v]> (vs ++ drop j l) = (vs ++ [v]) ++ drop (S j) l.
Proof.
  intros Hvs Hj. rewrite insert_app_r_alt by lia.
  replace (j - length vs)%nat with O by lia.
  destruct (lookup_lt_is_Some_2 l j Hj) as [e E].
  rewrite (drop_S l e j E). simpl. rewrite <- app_assoc. reflexivity.
Qed.

Lemma flat_map_seq_S {A} (f : nat -> list A) j :
  flat_map f (seq 0 (S j)) = flat_map f (seq 0 j) ++ f j.
Proof. rewrite seq_S, flat_map_app. simpl. rewrite app_nil_r. reflexivity. Qed.

Lemma doubles_app ws hi lo :
  Nat.Even (length ws) ->
  doubles (ws ++ [hi; lo]) = doubles ws ++ [Z.lor (Z.shiftl hi 32) lo].
Proof.
  intros [k Hk]. revert ws Hk. induction k as [| k IH]; intros ws Hk.
  - destruct ws; [reflexivity | simpl in Hk; lia].
  - destruct ws as [| a [| b ws]]; simpl in Hk; try lia.
    simpl. rewrite IH by lia. reflexivity.
Qed.

Lemma length_doubles ws k : length ws = (2 * k)%nat -> length (doubles ws) = k.
Proof.
  revert ws. induction k as [| k IH]; intros ws Hk.
  - destruct ws; [reflexivity | simpl in Hk; lia].
  - destruct ws as [| a [| b ws]]; simpl in Hk; try lia.
    simpl. rewrite IH by lia. reflexivity.
Qed.

Lemma thumb_bit c : negb (Z.land c CPSR_THUMB =? 0) = Z.testbit c 5.
Proof.
  change CPSR_THUMB with (2 ^ 5).
  destruct (Z.testbit c 5) eqn:B.
  - apply negb_true_iff, Z.eqb_neq. intros E.
    assert (Z.testbit (Z.land c (2 ^ 5)) 5 = false) as F by (rewrite E; apply Z.bits_0).
    rewrite Z.land_spec, B, Z.pow2_bits_true in F by lia. discriminate.
  - apply negb_false_iff, Z.eqb_eq. apply Z.bits_inj'. intros n Hn.
    rewrite Z.land_spec, Z.bits_0, Z.pow2_bits_eqb by lia.
    destruct (Z.eqb_spec 5 n) as [<- | _]; [rewrite B; reflexivity | apply andb_false_r].
Qed.

Lemma store_r_spec i v t :
  (i < length (r (reg_cache (priv t))))%nat ->
  returns (store_r i v) t (fun _ t' =>
    t' = mk_target (set_reg_cache (set_r (<[i := v]> (r (reg_cache (priv t))))
                                         (reg_cache (priv t))) (priv t))
                   (trace t)).
Proof.
  intros Hi. unfold store_r, array_set.
  mstep. mstep. destruct (decide _) as [_ | ?]; [| lia].
  mstep. mstep. mstep. reflexivity.
Qed.

Lemma store_d_spec i v t :
  (i < length (d (reg_cache (priv t))))%nat ->
  returns (store_d i v) t (fun _ t' =>
    t' = mk_target (set_reg_cache (set_d (<[i := v]> (d (reg_cache (priv t))))
                                         (reg_cache (priv t))) (priv t))
                   (trace t)).
Proof.
  intros Hi. unfold store_d, array_set.
  mstep. mstep. destruct (decide _) as [_ | ?]; [| lia].
  mstep. mstep. mstep. reflexivity.
Qed.

Lemma store_cpsr_spec v t :
  returns (store_cpsr v) t (fun _ t' =>
    t' = mk_target (set_reg_cache (set_cpsr v (reg_cache (priv t))) (priv t)) (trace t)).
Proof. unfold store_cpsr. mstep. mstep. mstep. reflexivity. Qed.

Lemma store_fpscr_spec v t :
  returns (store_fpscr v) t (fun _ t' =>
    t' = mk_target (set_reg_cache (set_fpscr v (reg_cache (priv t))) (priv t)) (trace t)).
Proof. unfold store_fpscr. mstep. mstep. mstep. reflexivity. Qed.

Lemma array_get_spec (l : list Z) i v t :
  l !! i = Some v -> returns (array_get l i) t (fun x t' => x = v /\ t' = t).
Proof. intros E. unfold array_get. rewrite E. mstep. auto. Qed.

(** *** The adjustment comes last, whatever the transport does *)

Lemma runs_bind {A B} (m : M A) (k : A -> M B) t (Q : outcome B -> target -> Prop) :
  runs m t (fun o t1 =>
    match o with
    | Done a => runs (k a) t1 Q
    | Throw e => Q (Throw e) t1
    | Undef => Q Undef t1
    end) ->
  runs (bind m k) t Q.
Proof.
  unfold runs, bind. destruct (m t) as [[a | e |] t1]; simpl; auto.
Qed.

Lemma runs_conseq {A} (m : M A) t (Q Q' : outcome A -> target -> Prop) :
  runs m t Q -> (forall o t', Q o t' -> Q' o t') -> runs m t Q'.
Proof. unfold runs. auto. Qed.

Lemma runs_returns {A} (m : M A) t (Q : A -> target -> Prop) :
  returns m t Q ->
  runs m t (fun o t' => exists a, o = Done a /\ Q a t').
Proof. intros (a & t' & E & H). unfold runs. rewrite E. simpl. eauto. Qed.

Lemma snap_inv_kept t0 k t : snap_inv t0 k t -> raw_pc_kept t0 t.
Proof.
  intros (evs & T & L & _ & _ & Hlo & Hhi). exists evs. split; [exact T |].
  destruct (le_lt_dec k 15) as [H | H]; [left; auto | right; apply Hhi; lia].
Qed.

(** A step that adds events and keeps r[15] keeps the raw PC. *)
Lemma raw_pc_kept_step t0 k t t' evs :
  snap_inv t0 k t -> trace t' = trace t ++ evs ->
  r (reg_cache (priv t')) !! 15%nat = r (reg_cache (priv t)) !! 15%nat ->
  raw_pc_kept t0 t'.
Proof.
  intros (evs0 & T & L & _ & _ & Hlo & Hhi) T' R.
  exists (evs0 ++ evs). split; [rewrite T', T, app_assoc; reflexivity |].
  rewrite R. destruct (le_lt_dec k 15) as [H | H]; [left; auto |].
  right. destruct (Hhi ltac:(lia)) as (w & Hw & Hr). exists w. split; [| exact Hr].
  rewrite words_read_app. apply lookup_app_l_Some. exact Hw.
Qed.

(** A step that reads [n] more words and keeps r[15], not crossing the
    sixteenth word. *)
Lemma snap_inv_step t0 k n t t' evs :
  snap_inv t0 k t -> trace t' = trace t ++ evs ->
  length (words_read evs) = n ->
  length (r (reg_cache (priv t'))) = 16%nat ->
  length (d (reg_cache (priv t'))) = 16%nat ->
  r (reg_cache (priv t')) !! 15%nat = r (reg_cache (priv t)) !! 15%nat ->
  (k + n <= 15 \/ 16 <= k)%nat ->
  snap_inv t0 (k + n) t'.
Proof.
  intros (evs0 & T & L & _ & _ & Hlo & Hhi) T' Ln Lr Ld R Hk.
  exists (evs0 ++ evs). split; [rewrite T', T, app_assoc; reflexivity |].
  split; [rewrite words_read_app, length_app; lia |].
  split; [exact Lr |]. split; [exact Ld |]. rewrite R. split.
  - intros H. apply Hlo. lia.
  - intros H. destruct Hk as [Hk | Hk]; [lia |].
    destruct (Hhi Hk) as (w & Hw & Hr). exists w. split; [| exact Hr].
    rewrite words_read_app. apply lookup_app_l_Some. exact Hw.
Qed.

Section Order.

Variable env : environment.

Lemma extcall_runs c t :
  runs (extcall env c) t (fun o t' =>
    priv t' = priv t /\
    exists rp, trace t' = trace t ++ [(c, rp)] /\
      match o with
      | Done v => rp = Ret v
      | Throw e => rp = Raise e
      | Undef => False
      end).
Proof.
  unfold runs, extcall. destruct (env (trace t) c) as [v | e]; simpl; eauto.
Qed.

Lemma apb_write_runs reg val t :
  runs (apb_write env reg val) t (fun o t' =>
    priv t' = priv t /\
    exists evs, trace t' = trace t ++ evs /\ words_read evs = []).
Proof.
  unfold runs, apb_write, adiv5_ap_write, adiv5_dp_low_access, bind, get_priv,
    extcall, ret. simpl.
  destruct (env (trace t) _) as [v1 | e1]; simpl.
  - destruct (env _ _) as [v2 | e2]; simpl;
      (split; [reflexivity |]); eexists [_; _]; rewrite <- app_assoc; split; reflexivity.
  - split; [reflexivity |]. eexists [_]. split; reflexivity.
Qed.

Lemma apb_read_runs reg t :
  runs (apb_read env reg) t (fun o t' =>
    priv t' = priv t /\
    exists evs, trace t' = trace t ++ evs /\
      words_read evs = match o with Done v => [v] | _ => [] end).
Proof.
  unfold runs, apb_read, adiv5_ap_write, adiv5_dp_low_access, bind, get_priv,
    extcall, ret. simpl.
  destruct (env (trace t) _) as [v1 | e1]; simpl.
  - destruct (env _ _) as [v2 | e2]; simpl.
    + destruct (env _ _) as [v3 | e3]; simpl;
        (split; [reflexivity |]); eexists [_; _; _]; rewrite <- !app_assoc;
        split; reflexivity.
    + split; [reflexivity |]. eexists [_; _]. rewrite <- app_assoc. split; reflexivity.
  - split; [reflexivity |]. eexists [_]. split; reflexivity.
Qed.

Lemma read_gpreg_runs regno t :
  runs (read_gpreg env regno) t (fun o t' =>
    priv t' = priv t /\
    exists evs, trace t' = trace t ++ evs /\
      words_read evs = match o with Done v => [v] | _ => [] end).
Proof.
  unfold read_gpreg. apply runs_bind.
  eapply runs_conseq; [apply apb_write_runs |]. cbv beta.
  intros o t1 (P1 & evs1 & T1 & W1). destruct o as [[] | e |].
  - eapply runs_conseq; [apply apb_read_runs |]. cbv beta.
    intros o t2 (P2 & evs2 & T2 & W2). split; [congruence |].
    exists (evs1 ++ evs2). split; [rewrite T2, T1, app_assoc; reflexivity |].
    rewrite words_read_app, W1, W2. reflexivity.
  - split; [exact P1 |]. exists evs1. auto.
  - split; [exact P1 |]. exists evs1. auto.
Qed.

Variable t0 : target.

Lemma phase_bind {A B} k k1 k2 (m : M A) (f : A -> M B) :
  phase t0 k k1 m -> (forall a, phase t0 k1 k2 (f a)) ->
  phase t0 k k2 (bind m f).
Proof.
  intros Hm Hf t Hinv. apply runs_bind.
  eapply runs_conseq; [apply (Hm t Hinv) |]. cbv beta.
  intros [a | e |] t1 H; [apply Hf; exact H | exact H | exact H].
Qed.

Lemma phase_end_bind {A B} k k1 (m : M A) (f : A -> M B) :
  phase t0 k k1 m -> (forall a, phase_end t0 k1 (f a)) ->
  phase_end t0 k (bind m f).
Proof.
  intros Hm Hf t Hinv. apply runs_bind.
  eapply runs_conseq; [apply (Hm t Hinv) |]. cbv beta.
  intros [a | e |] t1 H; [apply Hf; exact H | exact H | exact H].
Qed.

Lemma phase_apb_write k reg val : phase t0 k k (apb_write env reg val).
Proof.
  intros t Hinv. eapply runs_conseq; [apply apb_write_runs |]. cbv beta.
  intros o t1 (P1 & evs & T1 & W1).
  assert (snap_inv t0 (k + 0) t1) as H.
  { pose proof Hinv as (_ & _ & _ & Lr & Ld & _).
    apply (snap_inv_step t0 k 0 t t1 evs); auto; try (rewrite P1; auto).
    - rewrite W1. reflexivity.
    - lia. }
  rewrite Nat.add_0_r in H.
  destruct o; [exact H | |]; apply (snap_inv_kept t0 k); exact H.
Qed.

Lemma phase_quiet_store k m : quiet_store m -> phase t0 k k m.
Proof.
  intros Hm t Hinv. pose proof Hinv as (_ & _ & _ & Lr & Ld & _).
  eapply runs_conseq; [apply runs_returns, (Hm t Lr Ld) |]. cbv beta.
  intros o t1 ([] & -> & T1 & Lr1 & Ld1 & R1).
  assert (snap_inv t0 (k + 0) t1) as H.
  { apply (snap_inv_step t0 k 0 t t1 []); auto.
    - rewrite app_nil_r. exact T1.
    - lia. }
  rewrite Nat.add_0_r in H. exact H.
Qed.

Lemma phase_read_gpreg {B} k k' regno (f : Z -> M B) :
  (k + 1 <= 15 \/ 16 <= k)%nat ->
  (forall v, phase t0 (k + 1) k' (f v)) ->
  phase t0 k k' (bind (read_gpreg env regno) f).
Proof.
  intros Hk Hf t Hinv. apply runs_bind.
  eapply runs_conseq; [apply read_gpreg_runs |]. cbv beta.
  pose proof Hinv as (_ & _ & _ & Lr & Ld & _).
  intros o t1 (P1 & evs & T1 & W1). destruct o as [v | e |].
  - apply Hf. apply (snap_inv_step t0 k 1 t t1 evs); auto; try (rewrite P1; auto).
    rewrite W1. reflexivity.
  - apply (raw_pc_kept_step t0 k t t1 evs); auto. rewrite P1. reflexivity.
  - apply (raw_pc_kept_step t0 k t t1 evs); auto. rewrite P1. reflexivity.
Qed.

Lemma phase_end_read_gpreg {B} k regno (f : Z -> M B) :
  (k + 1 <= 15 \/ 16 <= k)%nat ->
  (forall v, phase_end t0 (k + 1) (f v)) ->
  phase_end t0 k (bind (read_gpreg env regno) f).
Proof.
  intros Hk Hf t Hinv. apply runs_bind.
  eapply runs_conseq; [apply read_gpreg_runs |]. cbv beta.
  pose proof Hinv as (_ & _ & _ & Lr & Ld & _).
  intros o t1 (P1 & evs & T1 & W1). destruct o as [v | e |].
  - apply Hf. apply (snap_inv_step t0 k 1 t t1 evs); auto; try (rewrite P1; auto).
    rewrite W1. reflexivity.
  - apply (raw_pc_kept_step t0 k t t1 evs); auto. rewrite P1. reflexivity.
  - apply (raw_pc_kept_step t0 k t t1 evs); auto. rewrite P1. reflexivity.
Qed.

(** The read of the PC: the word goes to r[15] as it was read. *)
Lemma phase_end_read_pc {B} (rest : M B) :
  phase_end t0 16 rest ->
  phase_end t0 15 (pc <- read_gpreg env 0 ;; store_r 15 pc ;;; rest).
Proof.
  intros Hrest t Hinv. apply runs_bind.
  eapply runs_conseq; [apply read_gpreg_runs |]. cbv beta.
  pose proof Hinv as (evs0 & T0 & L0 & Lr & Ld & _).
  intros o t1 (P1 & evs & T1 & W1). destruct o as [v | e |].
  - apply runs_bind. eapply runs_conseq.
    + apply runs_returns, store_r_spec. rewrite P1, Lr. lia.
    + cbv beta. intros o t2 ([] & -> & ->). apply Hrest.
      exists (evs0 ++ evs). simpl_priv.
      split; [rewrite T1, T0, app_assoc; reflexivity |].
      split; [rewrite words_read_app, length_app, L0, W1; reflexivity |].
      split; [rewrite length_insert, P1; exact Lr |].
      split; [rewrite P1; exact Ld |].
      split; [lia |]. intros _. exists v. split.
      * rewrite words_read_app, W1, lookup_app_r by lia.
        rewrite L0. reflexivity.
      * apply list_lookup_insert_eq. rewrite P1, Lr. lia.
  - apply (raw_pc_kept_step t0 15 t t1 evs); auto. rewrite P1. reflexivity.
  - apply (raw_pc_kept_step t0 15 t t1 evs); auto. rewrite P1. reflexivity.
Qed.

Lemma phase_for_loop (f : nat -> nat) body n : forall i,
  (forall j, (i <= j < i + n)%nat -> phase t0 (f j) (f (S j)) (body j)) ->
  phase t0 (f i) (f (i + n)%nat) (for_loop i n body).
Proof.
  induction n as [| n IH]; intros i Hbody; simpl.
  - rewrite Nat.add_0_r. intros t Hinv. exact Hinv.
  - replace (i + S n)%nat with (S i + n)%nat by lia.
    apply (phase_bind _ (f (S i))).
    + apply Hbody. lia.
    + intros _. apply IH. intros j Hj. apply Hbody. lia.
Qed.

Lemma quiet_store_r i v : (i < 15)%nat -> quiet_store (store_r i v).
Proof.
  intros Hi t Lr Ld.
  eapply returns_conseq; [apply store_r_spec; lia |]. cbv beta.
  intros _ t' ->. simpl_priv. rewrite length_insert.
  conjs; auto. apply list_lookup_insert_ne. lia.
Qed.

Lemma quiet_store_d i v : (i < 16)%nat -> quiet_store (store_d i v).
Proof.
  intros Hi t Lr Ld.
  eapply returns_conseq; [apply store_d_spec; lia |]. cbv beta.
  intros _ t' ->. simpl_priv. rewrite length_insert. auto.
Qed.

End Order.

Lemma quiet_store_cpsr v : quiet_store (store_cpsr v).
Proof.
  intros t Lr Ld. eapply returns_conseq; [apply store_cpsr_spec |]. cbv beta.
  intros _ t' ->. simpl_priv. auto.
Qed.

Lemma quiet_store_fpscr v : quiet_store (store_fpscr v).
Proof.
  intros t Lr Ld. eapply returns_conseq; [apply store_fpscr_spec |]. cbv beta.
  intros _ t' ->. simpl_priv. auto.
Qed.

(** Whatever the environment answers, a run of the snapshot that does not
    return leaves r[15] as it was or holding the PC word as it was read:
    the adjustment is made after the last read. *)
Lemma cortexa_regs_read_internal_order env t :
  priv_wf (priv t) ->
  runs (cortexa_regs_read_internal env) t (fun o t' =>
    match o with
    | Done _ => True
    | _ => raw_pc_kept t t'
    end).
Proof.
  intros (_ & _ & Lr & Ld).
  assert (snap_inv t 0 t) as Hinv.
  { exists []. rewrite app_nil_r. conjs; auto. intros H. lia. }
  cut (phase_end t 0 (cortexa_regs_read_internal env));
    [intros H; exact (H t Hinv) |].
  clear Hinv. unfold cortexa_regs_read_internal.
  apply (phase_end_bind t 0 15).
  { apply (phase_for_loop t (fun j => j) _ 15 0). intros j Hj.
    apply phase_read_gpreg; [lia |]. intros v.
    replace (j + 1)%nat with (S j) by lia.
    apply phase_quiet_store, quiet_store_r. lia. }
  intros _. apply (phase_end_bind t 15 15); [apply phase_apb_write |].
  intros _. apply phase_end_read_pc.
  apply (phase_end_bind t 16 16); [apply phase_apb_write |].
  intros _. apply phase_end_read_gpreg; [lia |]. intros c.
  apply (phase_end_bind t 17 17);
    [apply phase_quiet_store, quiet_store_cpsr |].
  intros _. apply (phase_end_bind t 17 17); [apply phase_apb_write |].
  intros _. apply phase_end_read_gpreg; [lia |]. intros f.
  apply (phase_end_bind t 18 18);
    [apply phase_quiet_store, quiet_store_fpscr |].
  intros _. apply (phase_end_bind t 18 50).
  { apply (phase_for_loop t (fun j => 18 + 2 * j)%nat _ 16 0). intros j Hj.
    apply (phase_bind t _ (18 + 2 * j)%nat); [apply phase_apb_write |].
    intros _. apply phase_read_gpreg; [lia |]. intros hi.
    apply phase_read_gpreg; [lia |]. intros lo.
    replace (18 + 2 * j + 1 + 1)%nat with (18 + 2 * S j)%nat by lia.
    apply phase_quiet_store, quiet_store_d. lia. }
  intros _ t1 (evs & T & L & Lr1 & Ld1 & _).
  destruct (lookup_lt_is_Some_2 (r (reg_cache (priv t1))) 15 ltac:(lia)) as [x Ex].
  eapply runs_conseq.
  - apply runs_returns. mstep. mstep. mstep.
    eapply returns_conseq; [apply (array_get_spec _ 15 x); exact Ex |]. cbv beta.
    intros r15 t2 [-> ->]. eapply returns_conseq; [apply store_r_spec; lia |].
    cbv beta. intros u t3 H. exact I.
  - cbv beta. intros o t' (a & -> & _). exact I.
Qed.

Section Snapshot.

Variable env : environment.
Hypothesis Hrel : reliable env.

Lemma snapshot_gp_loop t :
  length (r (reg_cache (priv t))) = 16%nat ->
  returns (for_loop 0 15 (fun i =>
             v <- read_gpreg env (Z.of_nat i) ;; store_r i v)) t
    (fun _ t' => exists vs,
       length vs = 15%nat /\
       io env (trace t) (trace t')
          (flat_map (fun i => read_gpreg_calls (base (priv t)) (Z.of_nat i)) (seq 0 15))
          vs /\
       priv t' = set_reg_cache
                   (set_r (vs ++ drop 15 (r (reg_cache (priv t)))) (reg_cache (priv t)))
                   (priv t)).
Proof.
  intros Hr.
  apply (returns_for_loop (fun j t' => exists vs,
       length vs = j /\
       io env (trace t) (trace t')
          (flat_map (fun i => read_gpreg_calls (base (priv t)) (Z.of_nat i)) (seq 0 j))
          vs /\
       priv t' = set_reg_cache
                   (set_r (vs ++ drop j (r (reg_cache (priv t)))) (reg_cache (priv t)))
                   (priv t))).
  - exists []. split; [reflexivity |]. split; [apply io_refl |].
    simpl. destruct (priv t) as [? ? [] ? ? ? ?]. reflexivity.
  - intros j t1 Hj (vs & Hvs & Hio & Hp).
    mstep. muse (read_gpreg_spec env Hrel). destruct H as (P1 & U1 & I1).
    muse store_r_spec.
    + rewrite P1, Hp. simpl_priv. rewrite length_app, length_drop. lia.
    + subst t'0. exists (vs ++ [a]). split; [rewrite length_app; simpl; lia |].
      rewrite P1, Hp in *. simpl_priv. split.
      * rewrite flat_map_seq_S. eapply io_trans; eassumption.
      * rewrite insert_next by lia. reflexivity.
Qed.

Lemma snapshot_vfp_loop t :
  length (d (reg_cache (priv t))) = 16%nat ->
  returns (for_loop 0 16 (fun i =>
             apb_write env DBGITR (Z.lor 0xEC510B10 (Z.of_nat i)) ;;;
             hi <- read_gpreg env 1 ;;
             lo <- read_gpreg env 0 ;;
             store_d i (Z.lor (Z.shiftl hi 32) lo))) t
    (fun _ t' => exists ws,
       length ws = 32%nat /\
       io env (trace t) (trace t')
          (flat_map (snapshot_vfp_calls (base (priv t))) (seq 0 16)) ws /\
       priv t' = set_reg_cache (set_d (doubles ws) (reg_cache (priv t))) (priv t)).
Proof.
  intros Hd.
  eapply returns_conseq.
  - apply (returns_for_loop (fun j t' => exists ws,
       length ws = (2 * j)%nat /\
       io env (trace t) (trace t')
          (flat_map (snapshot_vfp_calls (base (priv t))) (seq 0 j)) ws /\
       priv t' = set_reg_cache
                   (set_d (doubles ws ++ drop j (d (reg_cache (priv t))))
                          (reg_cache (priv t)))
                   (priv t))).
    + exists []. split; [reflexivity |]. split; [apply io_refl |].
      simpl. destruct (priv t) as [? ? [] ? ? ? ?]. reflexivity.
    + intros j t1 Hj (ws & Hws & Hio & Hp).
      mstep. muse (apb_write_spec env Hrel). destruct H as (P1 & I1).
      mstep. muse (read_gpreg_spec env Hrel). destruct H as (P2 & U2 & I2).
      mstep. muse (read_gpreg_spec env Hrel). destruct H as (P3 & U3 & I3).
      muse store_d_spec.
      * rewrite P3, P2, P1, Hp. simpl_priv.
        rewrite length_app, length_drop, (length_doubles ws j) by exact Hws. lia.
      * subst t'2. exists (ws ++ [a0; a1]).
        split; [rewrite length_app; simpl; lia |].
        privs. simpl_priv. split.
        -- rewrite flat_map_seq_S. unfold snapshot_vfp_calls at 2.
           io_chain.
           match goal with H : io _ _ _ _ _ |- _ =>
             eapply io_eq; [exact H | |] end.
           ++ rewrite <- ?app_assoc. reflexivity.
           ++ rewrite <- ?app_assoc. reflexivity.
        -- rewrite doubles_app by (exists j; lia).
           rewrite insert_next by (rewrite ?(length_doubles ws j); lia).
           reflexivity.
  - cbv beta. intros _ t' (ws & Hws & Hio & Hp). exists ws.
    split; [exact Hws |]. split; [exact Hio |].
    rewrite Hp, drop_ge by lia. rewrite app_nil_r. reflexivity.
Qed.

Lemma cortexa_regs_read_internal_spec t :
  priv_wf (priv t) ->
  returns (cortexa_regs_read_internal env) t (fun _ t' =>
    exists regs pc c f ws,
      length regs = 15%nat /\ length ws = 32%nat /\ is_u32 pc /\
      io env (trace t) (trace t') (snapshot_calls (base (priv t)))
         (regs ++ [pc; c; f] ++ ws) /\
      priv t' = set_reg_cache
                  (mk_reg_cache
                     (regs ++ [u32 (pc - (if Z.testbit c 5 then 4 else 8))])
                     c f (doubles ws))
                  (priv t)).
Proof.
  intros (_ & _ & Hr & Hd). unfold cortexa_regs_read_internal.
  mstep. muse snapshot_gp_loop as u1 t1 H1; [exact Hr |].
  destruct H1 as (regs & Hregs & I1 & P1).
  mstep. muse (apb_write_spec env Hrel) as u2 t2 H2. destruct H2 as (P2 & I2).
  mstep. muse (read_gpreg_spec env Hrel) as pc t3 H3. destruct H3 as (P3 & U3 & I3).
  privs. simpl_priv.
  mstep. muse store_r_spec as u4 t4 H4.
  { rewrite P3. simpl_priv. rewrite length_app, length_drop. lia. }
  subst t4. rewrite P3. simpl_priv.
  rewrite insert_next by lia. rewrite (drop_ge _ 16) by lia. rewrite app_nil_r.
  mstep. muse (apb_write_spec env Hrel) as u5 t5 H5. destruct H5 as (P5 & I5).
  mstep. muse (read_gpreg_spec env Hrel) as c t6 H6. destruct H6 as (P6 & _ & I6).
  privs. simpl_priv.
  mstep. muse store_cpsr_spec as u7 t7 H7. subst t7. rewrite P6. simpl_priv.
  mstep. muse (apb_write_spec env Hrel) as u8 t8 H8. destruct H8 as (P8 & I8).
  mstep. muse (read_gpreg_spec env Hrel) as f t9 H9. destruct H9 as (P9 & _ & I9).
  privs. simpl_priv.
  mstep. muse store_fpscr_spec as u10 t10 H10. subst t10. rewrite P9. simpl_priv.
  mstep. muse snapshot_vfp_loop as u11 t11 H11; [simpl_priv; exact Hd |].
  destruct H11 as (ws & Hws & I11 & P11). simpl_priv.
  mstep. mstep.
  mstep. muse (array_get_spec _ 15 pc) as r15 t12 H12.
  { rewrite P11. simpl_priv. apply list_lookup_middle. symmetry. exact Hregs. }
  destruct H12 as [-> ->].
  muse store_r_spec as u13 t13 H13.
  { rewrite P11. simpl_priv. rewrite length_app. simpl. lia. }
  subst t13. exists regs, pc, c, f, ws. simpl_priv.
  split; [exact Hregs |]. split; [exact Hws |]. split; [exact U3 |]. split.
  - unfold snapshot_calls. io_chain.
    match goal with H : io _ _ _ _ _ |- _ => eapply io_eq; [exact H | |] end.
    + rewrite <- ?app_assoc. reflexivity.
    + rewrite <- ?app_assoc. reflexivity.
  - rewrite P11. simpl_priv. rewrite thumb_bit.
    replace 15%nat with (length regs + 0)%nat by lia.
    rewrite insert_app_r. reflexivity.
Qed.

(** C7.  In a state of the shape the probe sets up,
    [cortexa_regs_read_internal] makes the transactions of the snapshot in
    order: r0 .. r14, the PC through r0, CPSR through r0, FPSCR through r0,
    and d0 .. d15 through r1 and r0.  The cache then holds the words read,
    except that r[15] is the word read for the PC minus 4 when bit 5 of the
    CPSR word just read is set and minus 8 otherwise, in 32-bit arithmetic;
    the other fields of the state are unchanged.  The adjustment is made
    after the last read of the snapshot: it makes no transaction, and under
    any environment a run that an exception ends before that leaves r[15]
    as it was or holding the PC word as read. *)
Theorem snapshot_pc_is_adjusted_by_thumb_bit t :
  priv_wf (priv t) ->
  exists t' regs raw_pc c f ws,
    cortexa_regs_read_internal env t = (Done tt, t') /\
    length regs = 15%nat /\ length ws = 32%nat /\
    io env (trace t) (trace t') (snapshot_calls (base (priv t)))
       (regs ++ [raw_pc; c; f] ++ ws) /\
    take 15 (r (reg_cache (priv t'))) = regs /\
    cpsr (reg_cache (priv t')) = c /\
    fpscr (reg_cache (priv t')) = f /\
    d (reg_cache (priv t')) = doubles ws /\
    r (reg_cache (priv t')) !! 15%nat
      = Some (u32 (raw_pc - (if Z.testbit c 5 then 4 else 8))) /\
    (Z.testbit c 5 = true -> 4 <= raw_pc ->
       r (reg_cache (priv t')) !! 15%nat = Some (raw_pc - 4)) /\
    (Z.testbit c 5 = false -> 8 <= raw_pc ->
       r (reg_cache (priv t')) !! 15%nat = Some (raw_pc - 8)) /\
    priv t' = set_reg_cache (reg_cache (priv t')) (priv t) /\
    (forall env' o t'',
       cortexa_regs_read_internal env' t = (o, t'') ->
       (forall u, o <> Done u) -> raw_pc_kept t t'').
Proof.
  intros Hwf.
  assert (forall env' o t'',
            cortexa_regs_read_internal env' t = (o, t'') ->
            (forall u, o <> Done u) -> raw_pc_kept t t'') as Horder.
  { intros env' o t'' E Hnot.
    pose proof (cortexa_regs_read_internal_order env' t Hwf) as H.
    unfold runs in H. rewrite E in H. simpl in H.
    destruct o as [u | e |]; [destruct (Hnot u eq_refl) | exact H | exact H]. }
  destruct (cortexa_regs_read_internal_spec t Hwf)
    as ([] & t' & E & regs & pc & c & f & ws & Hregs & Hws & U & Hio & Hp).
  exists t', regs, pc, c, f, ws. rewrite Hp. simpl_priv.
  assert ((regs ++ [u32 (pc - (if Z.testbit c 5 then 4 else 8))]) !! 15%nat
          = Some (u32 (pc - (if Z.testbit c 5 then 4 else 8)))) as L
    by (apply list_lookup_middle; symmetry; exact Hregs).
  conjs; auto.
  - apply take_app_length'. symmetry. exact Hregs.
  - intros B Hge. rewrite L, B. f_equal. apply u32_id. unfold is_u32 in *. lia.
  - intros B Hge. rewrite L, B. f_equal. apply u32_id. unfold is_u32 in *. lia.
Qed.

End Snapshot.

(** ** Memory read through the APB *)

Lemma land_3_range src : 0 <= Z.land src 3 <= 3.
Proof.
  change 3 with (Z.ones 2) at 1 2. rewrite Z.land_ones by lia.
  pose proof (Z.mod_pos_bound src (2 ^ 2) ltac:(lia)). lia.
Qed.

Lemma words_cover len off :
  0 <= len -> 0 <= off ->
  len + off <= 4 * ((len + off + 3) / 4).
Proof. intros H1 H2. Z.div_mod_to_equations. lia. Qed.

Lemma words_is_ceiling len off :
  (len + off + 3) / 4 = Qceiling ((len + off) # 4).
Proof.
  unfold Qceiling, Qfloor, Qopp. simpl Qnum. simpl Qden.
  Z.div_mod_to_equations. lia.
Qed.

Section SlowRead.

Variable env : environment.
Hypothesis Hrel : reliable env.

Lemma read_words_spec n : forall t,
  returns (read_words env n) t (fun ws t' =>
    length ws = n /\ priv t' = priv t /\
    io env (trace t) (trace t')
       (concat (replicate n (apb_read_calls (base (priv t)) DBGDTRTX))) ws).
Proof.
  induction n as [| n IH]; intros t; simpl.
  - mstep. conjs; auto. apply io_refl.
  - mstep. muse (apb_read_spec env Hrel) as w t1 H1. destruct H1 as (P1 & _ & I1).
    mstep. muse IH as ws t2 H2. destruct H2 as (L2 & P2 & I2).
    mstep. privs. conjs; auto.
    + simpl. lia.
    + io_chain. match goal with H : io _ _ _ _ _ |- _ => exact H end.
Qed.

Lemma cortexa_slow_mem_read_spec src len t :
  0 <= len <= 2 ^ 32 - 7 ->
  returns (cortexa_slow_mem_read env src len) t (fun dest t' =>
    exists dscr0 stale ws dscr1 rest,
      length ws = Z.to_nat ((len + Z.land src 3 + 3) / 4) /\
      io env (trace t) (trace t')
         (slow_mem_read_calls (base (priv t)) src (length ws) dscr0
            (Z.testbit dscr1 6))
         ([dscr0; stale] ++ ws ++ [dscr1] ++ rest) /\
      dest = take (Z.to_nat len)
               (drop (Z.to_nat (Z.land src 3)) (array_repr 4 ws)) /\
      length dest = Z.to_nat len /\
      (if Z.testbit dscr1 6
       then rest = [] /\ priv t' = set_mmu_fault true (priv t)
       else length rest = 1%nat /\ priv t' = priv t)).
Proof.
  intros Hlen. pose proof (land_3_range src) as Hoff.
  unfold cortexa_slow_mem_read.
  assert (u32 (size_t (len + Z.land src 3 + 3) / 4) = (len + Z.land src 3 + 3) / 4) as ->.
  { unfold size_t. rewrite Z.mod_small by lia. apply u32_id. unfold is_u32.
    Z.div_mod_to_equations. lia. }
  pose proof (words_cover len (Z.land src 3) ltac:(lia) ltac:(lia)) as Hcover.
  set (words := (len + Z.land src 3 + 3) / 4) in *.
  mstep. muse (write_gpreg_spec env Hrel) as u1 t1 H1. destruct H1 as (P1 & I1).
  mstep. muse (apb_read_spec env Hrel) as dscr0 t2 H2. destruct H2 as (P2 & _ & I2).
  mstep. muse (apb_write_spec env Hrel) as u3 t3 H3. destruct H3 as (P3 & I3).
  mstep. muse (apb_write_spec env Hrel) as u4 t4 H4. destruct H4 as (P4 & I4).
  mstep. muse (apb_read_spec env Hrel) as stale t5 H5. destruct H5 as (P5 & _ & I5).
  mstep. muse read_words_spec as ws t6 H6. destruct H6 as (L6 & P6 & I6).
  assert (length (drop (Z.to_nat (Z.land src 3)) (array_repr 4 ws))
          = (4 * Z.to_nat words - Z.to_nat (Z.land src 3))%nat) as Lfrom
    by (rewrite length_drop, length_array_repr, L6; reflexivity).
  mstep. destruct (decide _) as [_ | Hn]; [| rewrite Lfrom in Hn; lia].
  mstep.
  mstep. muse (apb_write_spec env Hrel) as u7 t7 H7. destruct H7 as (P7 & I7).
  mstep. muse (apb_read_spec env Hrel) as dscr1 t8 H8. destruct H8 as (P8 & _ & I8).
  privs.
  assert (negb (Z.land dscr1 DBGDSCR_SDABORT_L =? 0) = Z.testbit dscr1 6) as Hbit.
  { change DBGDSCR_SDABORT_L with (2 ^ 6).
    destruct (Z.testbit dscr1 6) eqn:B.
    - apply negb_true_iff, Z.eqb_neq. intros E.
      assert (Z.testbit (Z.land dscr1 (2 ^ 6)) 6 = false) as F
        by (rewrite E; apply Z.bits_0).
      rewrite Z.land_spec, B, Z.pow2_bits_true in F by lia. discriminate.
    - apply negb_false_iff, Z.eqb_eq. apply Z.bits_inj'. intros n Hn.
      rewrite Z.land_spec, Z.bits_0, Z.pow2_bits_eqb by lia.
      destruct (Z.eqb_spec 6 n) as [<- | _];
        [rewrite B; reflexivity | apply andb_false_r]. }
  rewrite Hbit. mstep.
  destruct (Z.testbit dscr1 6) eqn:B.
  - mstep. muse (apb_write_spec env Hrel) as u9 t9 H9. destruct H9 as (P9 & I9).
    mstep. mstep. privs. simpl_priv.
    exists dscr0, stale, ws, dscr1, []. rewrite B.
    split; [exact L6 |]. split.
    + unfold slow_mem_read_calls, dscr_mode. rewrite L6. io_chain.
      match goal with H : io _ _ _ _ _ |- _ => eapply io_eq; [exact H | |] end;
        rewrite <- ?app_assoc; reflexivity.
    + split; [reflexivity |]. split; [rewrite length_take, Lfrom; lia |]. auto.
  - mstep. muse (apb_read_spec env Hrel) as drain t9 H9. destruct H9 as (P9 & _ & I9).
    mstep. mstep. privs.
    exists dscr0, stale, ws, dscr1, [drain]. rewrite B.
    split; [exact L6 |]. split.
    + unfold slow_mem_read_calls, dscr_mode. rewrite L6. io_chain.
      match goal with H : io _ _ _ _ _ |- _ => eapply io_eq; [exact H | |] end;
        rewrite <- ?app_assoc; reflexivity.
    + split; [reflexivity |]. split; [rewrite length_take, Lfrom; lia |]. auto.
Qed.

End SlowRead.

Lemma tar_distinct b reg reg' :
  0 <= reg < 2 ^ 30 -> 0 <= reg' < 2 ^ 30 -> reg <> reg' ->
  (u32 (b + 4 * reg) =? u32 (b + 4 * reg')) = false.
Proof.
  intros H1 H2 Hne. apply Z.eqb_neq. unfold u32. intros E.
  Z.div_mod_to_equations. lia.
Qed.

Lemma apb_accesses_app b reg cs1 cs2 :
  apb_accesses b reg (cs1 ++ cs2)
  = (apb_accesses b reg cs1 + apb_accesses b reg cs2)%nat.
Proof. unfold apb_accesses. rewrite List.filter_app, length_app. reflexivity. Qed.

Lemma apb_accesses_read b reg reg' :
  0 <= reg < 2 ^ 30 -> 0 <= reg' < 2 ^ 30 ->
  apb_accesses b reg' (apb_read_calls b reg) = if reg =? reg' then 1%nat else 0%nat.
Proof.
  intros H1 H2. unfold apb_accesses. simpl.
  destruct (Z.eqb_spec reg reg') as [-> | Hne].
  - rewrite Z.eqb_refl. reflexivity.
  - rewrite tar_distinct by assumption. reflexivity.
Qed.

Lemma apb_accesses_write b reg reg' val :
  0 <= reg < 2 ^ 30 -> 0 <= reg' < 2 ^ 30 ->
  apb_accesses b reg' (apb_write_calls b reg val) = if reg =? reg' then 1%nat else 0%nat.
Proof.
  intros H1 H2. unfold apb_accesses. simpl.
  destruct (Z.eqb_spec reg reg') as [-> | Hne].
  - rewrite Z.eqb_refl. reflexivity.
  - rewrite tar_distinct by assumption. reflexivity.
Qed.

Lemma apb_accesses_replicate b reg n cs :
  apb_accesses b reg (concat (replicate n cs)) = (n * apb_accesses b reg cs)%nat.
Proof.
  induction n as [| n IH]; [reflexivity |].
  simpl. rewrite apb_accesses_app, IH. reflexivity.
Qed.

Lemma slow_mem_read_calls_dtrtx b src words dscr0 abort :
  apb_accesses b DBGDTRTX (slow_mem_read_calls b src words dscr0 abort)
  = (1 + words + (if abort then 0 else 1))%nat.
Proof.
  unfold slow_mem_read_calls, write_gpreg_calls.
  rewrite !apb_accesses_app, apb_accesses_replicate.
  rewrite !apb_accesses_write, !apb_accesses_read by (vm_compute; split; congruence).
  destruct abort.
  - rewrite apb_accesses_write by (vm_compute; split; congruence). simpl. lia.
  - rewrite apb_accesses_read by (vm_compute; split; congruence). simpl. lia.
Qed.

Section SlowReadClaim.

Variable env : environment.
Hypothesis Hrel : reliable env.

(** C5, as amended.  [cortexa_slow_mem_read] sets r0 to the aligned
    address, switches DBGDSCR to fast mode, issues the [ldc], reads
    DBGDTRTX once and drops the word, then reads DBGDTRTX
    (len + (src & 3) + 3) / 4 times, the quotient rounded down, which is
    ceil((len + (src & 3)) / 4), into its buffer, and returns the [len]
    bytes of the buffer from byte offset [src & 3].  It then writes DBGDSCR
    back in stall mode and reads it: with bit 6 (the sticky abort) set it
    writes CSE to DBGDRCR and sets [mmu_fault], and returns as usual;
    otherwise it reads DBGDTRTX once more and leaves the state as it was. *)
Theorem slow_mem_read_drains_and_copies src len t :
  0 <= len <= 2 ^ 32 - 7 ->
  exists dest t' dscr0 stale ws dscr1 rest,
    cortexa_slow_mem_read env src len t = (Done dest, t') /\
    Z.of_nat (length ws) = (len + Z.land src 3 + 3) / 4 /\
    Z.of_nat (length ws) = Qceiling ((len + Z.land src 3) # 4) /\
    io env (trace t) (trace t')
       (slow_mem_read_calls (base (priv t)) src (length ws) dscr0 (Z.testbit dscr1 6))
       ([dscr0; stale] ++ ws ++ [dscr1] ++ rest) /\
    apb_accesses (base (priv t)) DBGDTRTX
       (slow_mem_read_calls (base (priv t)) src (length ws) dscr0 (Z.testbit dscr1 6))
    = (1 + length ws + (if Z.testbit dscr1 6 then 0 else 1))%nat /\
    dest = take (Z.to_nat len) (drop (Z.to_nat (Z.land src 3)) (array_repr 4 ws)) /\
    length dest = Z.to_nat len /\
    (Z.testbit dscr1 6 = true ->
       rest = [] /\ priv t' = set_mmu_fault true (priv t)) /\
    (Z.testbit dscr1 6 = false ->
       length rest = 1%nat /\ priv t' = priv t).
Proof.
  intros Hlen.
  destruct (cortexa_slow_mem_read_spec env Hrel src len t Hlen)
    as (dest & t' & E & dscr0 & stale & ws & dscr1 & rest & Lws & Hio & Hdest & Ldest & Hend).
  pose proof (land_3_range src) as Hoff.
  assert (Z.of_nat (length ws) = (len + Z.land src 3 + 3) / 4) as Lz.
  { rewrite Lws, Z2Nat.id; [reflexivity |]. apply Z.div_pos; lia. }
  exists dest, t', dscr0, stale, ws, dscr1, rest.
  split; [exact E |]. split; [exact Lz |].
  split; [rewrite Lz; apply words_is_ceiling |].
  split; [exact Hio |]. split; [apply slow_mem_read_calls_dtrtx |].
  split; [exact Hdest |]. split; [exact Ldest |].
  split; intros B; rewrite B in Hend; exact Hend.
Qed.

End SlowReadClaim.

(** ** Halt request and halt wait *)

Lemma srst_reads_app evs1 evs2 :
  srst_reads (evs1 ++ evs2) = srst_reads evs1 ++ srst_reads evs2.
Proof. unfold srst_reads. apply omap_app. Qed.

Lemma srst_reads_nil evs : no_srst_get (calls evs) = true -> srst_reads evs = [].
Proof.
  induction evs as [| [c rp] evs IH]; [reflexivity |]. simpl.
  intros H. apply andb_true_iff in H as [Hc He].
  rewrite (IH He). destruct c; try reflexivity. discriminate.
Qed.

Lemma no_srst_get_app cs1 cs2 :
  no_srst_get (cs1 ++ cs2) = no_srst_get cs1 && no_srst_get cs2.
Proof. unfold no_srst_get. apply forallb_app. Qed.

Lemma no_srst_get_halt_wait b dscr : no_srst_get (halt_wait_calls b dscr) = true.
Proof. unfold halt_wait_calls. destruct (Z.testbit dscr 0); reflexivity. Qed.

Section Halt.

Variable env : environment.
Hypothesis Hrel : reliable env.

Lemma cortexa_halt_request_spec t :
  returns (cortexa_halt_request env) t (fun _ t' =>
    priv t' = priv t /\
    io env (trace t) (trace t') (apb_write_calls (base (priv t)) DBGDRCR DBGDRCR_HRQ) []).
Proof.
  unfold cortexa_halt_request. mstep. mstep.
  muse (apb_write_spec env Hrel) as u1 t1 H1. destruct H1 as (P1 & I1).
  mstep. auto.
Qed.

Lemma cortexa_halt_wait_spec t :
  priv_wf (priv t) ->
  returns (cortexa_halt_wait env) t (fun sig t' =>
    exists dscr rest,
      io env (trace t) (trace t') (halt_wait_calls (base (priv t)) dscr) (dscr :: rest) /\
      priv_wf (priv t') /\
      priv t' = set_reg_cache (reg_cache (priv t')) (priv t) /\
      (Z.testbit dscr 0 = false -> sig = 0 /\ rest = [] /\ priv t' = priv t) /\
      (Z.testbit dscr 0 = true ->
         (sig = SIGINT \/ sig = SIGTRAP) /\ length rest = 50%nat)).
Proof.
  intros Hwf. unfold cortexa_halt_wait. mstep. mstep.
  muse (apb_read_spec env Hrel) as dscr t1 H1. destruct H1 as (P1 & _ & I1).
  cbv iota beta. change DBGDSCR_HALTED with 1. rewrite land_1_eqb.
  destruct (Z.testbit dscr 0) eqn:B; cbn [negb].
  - mstep. muse (apb_write_spec env Hrel) as u2 t2 H2. destruct H2 as (P2 & I2).
    mstep. muse (cortexa_regs_read_internal_spec env Hrel) as u3 t3 H3.
    { rewrite P2, P1. exact Hwf. }
    destruct H3 as (regs & pc & c & f & ws & Hregs & Hws & _ & I3 & P3).
    mstep. privs. exists dscr, (regs ++ [pc; c; f] ++ ws).
    split.
    + unfold halt_wait_calls. rewrite B. io_chain.
      match goal with H : io _ _ _ _ _ |- _ => eapply io_eq; [exact H | |] end;
        rewrite <- ?app_assoc; reflexivity.
    + destruct Hwf as (W1 & W2 & W3 & W4). simpl_priv.
      split; [| split; [reflexivity | split; [congruence |]]].
      * unfold priv_wf. simpl_priv. rewrite length_app, Hregs.
        rewrite (length_doubles ws 16) by exact Hws. auto.
      * intros _. split.
        -- destruct (_ =? _); auto.
        -- rewrite !length_app, Hregs, Hws. reflexivity.
  - mstep. exists dscr, []. rewrite P1.
    split.
    + unfold halt_wait_calls. rewrite B, app_nil_r. exact I1.
    + split; [exact Hwf |]. split; [symmetry; apply set_reg_cache_same |].
      split; [auto | congruence].
Qed.

End Halt.

(** ** Attach *)

Lemma io_srst_refl env h : io_srst env h h [] [] [].
Proof. exists []. rewrite app_nil_r. simpl. auto. Qed.

Lemma io_srst_trans env h1 h2 h3 cs1 cs2 vs1 vs2 ss1 ss2 :
  io_srst env h1 h2 cs1 vs1 ss1 -> io_srst env h2 h3 cs2 vs2 ss2 ->
  io_srst env h1 h3 (cs1 ++ cs2) (vs1 ++ vs2) (ss1 ++ ss2).
Proof.
  intros (e1 & T1 & C1 & W1 & S1 & A1) (e2 & T2 & C2 & W2 & S2 & A2).
  exists (e1 ++ e2).
  rewrite T2, T1, calls_app, words_read_app, srst_reads_app, C1, C2, W1, W2, S1, S2.
  rewrite app_assoc. conjs; auto. apply answered_app. rewrite <- T1. auto.
Qed.

Lemma io_srst_of_io env h h' cs vs :
  io env h h' cs vs -> no_srst_get cs = true -> io_srst env h h' cs vs [].
Proof.
  intros (evs & T & C & W & A) N. exists evs. conjs; auto.
  apply srst_reads_nil. rewrite C. exact N.
Qed.

Lemma io_of_io_srst env h h' cs vs ss :
  io_srst env h h' cs vs ss -> io env h h' cs vs.
Proof. intros (evs & T & C & W & S & A). exists evs. auto. Qed.

Lemma io_srst_eq env h h' cs vs ss cs' vs' ss' :
  io_srst env h h' cs vs ss -> cs = cs' -> vs = vs' -> ss = ss' ->
  io_srst env h h' cs' vs' ss'.
Proof. intros H -> -> ->. exact H. Qed.

Section Attach.

Variable env : environment.
Hypothesis Hrel : reliable env.

Lemma platform_srst_get_val_spec t :
  returns (platform_srst_get_val env) t (fun b t' =>
    priv t' = priv t /\
    io_srst env (trace t) (trace t') [SRST_GET_VAL] [] [b]).
Proof.
  unfold returns, platform_srst_get_val, bind, extcall, ret.
  destruct (Hrel (trace t) SRST_GET_VAL) as [v E]. rewrite E.
  eexists _, _. split; [reflexivity |]. simpl. split; [reflexivity |].
  exists [(SRST_GET_VAL, Ret v)]. simpl. conjs; auto.
Qed.

Lemma platform_delay_spec ms t :
  returns (platform_delay env ms) t (fun _ t' =>
    priv t' = priv t /\ io env (trace t) (trace t') [DELAY ms] []).
Proof.
  unfold returns, platform_delay, bind, extcall, ret.
  destruct (Hrel (trace t) (DELAY ms)) as [v E]. rewrite E.
  eexists _, _. split; [reflexivity |]. simpl. split; [reflexivity |].
  exists [(DELAY ms, Ret v)]. simpl. conjs; auto.
Qed.

Lemma platform_srst_set_val_spec a t :
  returns (platform_srst_set_val env a) t (fun _ t' =>
    priv t' = priv t /\ io env (trace t) (trace t') [SRST_SET_VAL a] []).
Proof.
  unfold returns, platform_srst_set_val, bind, extcall, ret.
  destruct (Hrel (trace t) (SRST_SET_VAL a)) as [v E]. rewrite E.
  eexists _, _. split; [reflexivity |]. simpl. split; [reflexivity |].
  exists [(SRST_SET_VAL a, Ret v)]. simpl. conjs; auto.
Qed.

Lemma attach_poll_spec n : forall t,
  priv_wf (priv t) ->
  returns (attach_poll env (S n)) t (fun tries t' =>
    exists k e ws fin,
      (k <= n)%nat /\
      io_srst env (trace t) (trace t') (poll_calls (base (priv t)) k e)
              (ws ++ fin) (replicate k false ++ [reset_asserted e]) /\
      length ws = k /\
      Forall (fun w => Z.testbit w 0 = false) ws /\
      poll_end_words e fin /\
      tries = (if gave_up e then O else S (n - k)) /\
      (gave_up e = true -> k = n) /\
      priv_wf (priv t') /\
      priv t' = set_reg_cache (reg_cache (priv t')) (priv t) /\
      match e with Halted _ => True | _ => priv t' = priv t end).
Proof.
  induction n as [| n IH]; intros t Hwf; cbn [attach_poll].
  all: mstep; muse platform_srst_get_val_spec as srst t1 H1;
    destruct H1 as (P1 & I1); destruct srst;
    [ mstep; exists O, Reset_asserted, [], []; rewrite P1;
      conjs; auto; try reflexivity; try (symmetry; apply set_reg_cache_same);
      try lia; simpl; discriminate
    | ].
  all: mstep; muse (cortexa_halt_wait_spec env Hrel) as sig t2 H2;
    [rewrite P1; exact Hwf |];
    destruct H2 as (dscr & rest & I2 & Hwf2 & P2 & Hrun & Hhalt);
    rewrite P1 in *;
    pose proof (io_srst_of_io _ _ _ _ _ I2 (no_srst_get_halt_wait _ _)) as I2';
    pose proof (io_srst_trans _ _ _ _ _ _ _ _ _ _ I1 I2') as I12;
    destruct (Z.testbit dscr 0) eqn:B;
    [ destruct (Hhalt eq_refl) as [Hsig Hrest];
      assert (negb (sig =? 0) = true) as ->
        by (destruct Hsig as [-> | ->]; reflexivity);
      mstep; exists O, (Halted dscr), [], (dscr :: rest);
      conjs; auto; try discriminate; try (f_equal; lia);
      simpl; eauto
    | destruct (Hrun eq_refl) as (-> & -> & P2'); cbn [negb Z.eqb];
      unfold halt_wait_calls in I12; rewrite B, app_nil_r in I12 ].
  - mstep. exists O, Gave_up, [], [dscr]. rewrite P2'.
    conjs; auto; try (symmetry; apply set_reg_cache_same).
    exists dscr. auto.
  - mstep. muse platform_delay_spec as u3 t3 H3. destruct H3 as (P3 & I3).
    assert (priv t3 = priv t) as P3' by (rewrite P3, P2'; reflexivity).
    muse IH as tries t4 H4; [rewrite P3'; exact Hwf |].
    destruct H4 as (k & e & ws & fin & Hk & I4 & Lws & Fws & Hfin & Htries
                    & Hgave & Hwf4 & P4 & Pe).
    rewrite P3' in *. rewrite P2' in *.
    exists (S k), e, (dscr :: ws), fin.
    split; [lia |]. split.
    { pose proof (io_srst_of_io _ _ _ _ _ I3 eq_refl) as I3'.
      pose proof (io_srst_trans _ _ _ _ _ _ _ _ _ _
                    (io_srst_trans _ _ _ _ _ _ _ _ _ _ I12 I3') I4) as I.
      eapply io_srst_eq; [exact I | | |].
      - unfold poll_calls. simpl. rewrite <- ?app_assoc. reflexivity.
      - reflexivity.
      - reflexivity. }
    split; [simpl; lia |]. split; [constructor; assumption |].
    split; [exact Hfin |]. split.
    { rewrite Htries. destruct (gave_up e); [reflexivity | f_equal; lia]. }
    split; [intros G; rewrite (Hgave G); reflexivity |].
    split; [exact Hwf4 |]. split; [exact P4 | exact Pe].
Qed.

Lemma clear_breakpoints_spec t :
  (hw_breakpoint_max (priv t) <= length (hw_breakpoint (priv t)))%nat ->
  returns (for_loop 0 (hw_breakpoint_max (priv t)) (fun i =>
             apb_write env (DBGBCR i) 0 ;;; store_hw_breakpoint i 0)) t
    (fun _ t' =>
       io env (trace t) (trace t')
          (clear_breakpoints_calls (base (priv t)) (hw_breakpoint_max (priv t))) [] /\
       priv t' = set_hw_breakpoint
                   (replicate (hw_breakpoint_max (priv t)) 0
                    ++ drop (hw_breakpoint_max (priv t)) (hw_breakpoint (priv t)))
                   (priv t)).
Proof.
  intros Hmax.
  apply (returns_for_loop (fun j t' =>
       io env (trace t) (trace t') (clear_breakpoints_calls (base (priv t)) j) [] /\
       priv t' = set_hw_breakpoint
                   (replicate j 0 ++ drop j (hw_breakpoint (priv t))) (priv t))).
  - split; [apply io_refl |]. simpl. destruct (priv t). reflexivity.
  - intros j t1 Hj (Hio & Hp).
    mstep. muse (apb_write_spec env Hrel) as u2 t2 H2. destruct H2 as (P2 & I2).
    muse store_hw_breakpoint_spec as u3 t3 H3.
    { rewrite P2, Hp. simpl_priv. rewrite length_app, length_replicate, length_drop. lia. }
    subst t3. rewrite P2, Hp in *. simpl_priv. split.
    + unfold clear_breakpoints_calls. rewrite flat_map_seq_S.
      io_chain. match goal with H : io _ _ _ _ _ |- _ => exact H end.
    + rewrite insert_next by (rewrite ?length_replicate; lia).
      rewrite <- replicate_S_end. reflexivity.
Qed.

Lemma priv_wf_set_mmu_fault b p : priv_wf p -> priv_wf (set_mmu_fault b p).
Proof. intros H. exact H. Qed.

Lemma cortexa_attach_spec t :
  priv_wf (priv t) ->
  returns (cortexa_attach env) t (fun b t' =>
    exists dscr0 k e ws fin,
      (k <= 9)%nat /\
      io_srst env (trace t) (trace t') (attach_calls (priv t) dscr0 k e)
              (dscr0 :: ws ++ fin) (replicate k false ++ [reset_asserted e]) /\
      length ws = k /\
      Forall (fun w => Z.testbit w 0 = false) ws /\
      poll_end_words e fin /\
      b = negb (gave_up e) /\
      (gave_up e = true -> k = 9%nat) /\
      (if gave_up e
       then priv t' = set_mmu_fault false (priv t)
       else priv t' = set_hw_breakpoint
                        (replicate (hw_breakpoint_max (priv t)) 0
                         ++ drop (hw_breakpoint_max (priv t)) (hw_breakpoint (priv t)))
                        (set_reg_cache (reg_cache (priv t'))
                           (set_mmu_fault false (priv t))))).
Proof.
  intros Hwf. unfold cortexa_attach, target_check_error, target_halt_request.
  mstep. muse (cortexa_check_error_spec env Hrel) as err t1 H1.
  destruct H1 as (_ & P1 & cs & I1 & Hcs).
  assert (no_srst_get cs = true) as N1
    by (rewrite Hcs; destruct (ahb (priv t)); reflexivity).
  apply io_srst_of_io in I1; [| exact N1].
  mstep. muse (apb_read_spec env Hrel) as dscr0 t2 H2. destruct H2 as (P2 & _ & I2).
  apply io_srst_of_io in I2; [| reflexivity].
  mstep. muse (apb_write_spec env Hrel) as u3 t3 H3. destruct H3 as (P3 & I3).
  apply io_srst_of_io in I3; [| reflexivity].
  mstep. muse (cortexa_halt_request_spec env Hrel) as u4 t4 H4. destruct H4 as (P4 & I4).
  apply io_srst_of_io in I4; [| reflexivity].
  assert (priv t4 = set_mmu_fault false (priv t)) as P4'
    by (rewrite P4, P3, P2, P1; reflexivity).
  mstep. muse (attach_poll_spec 9) as tries t5 H5.
  { rewrite P4'. exact Hwf. }
  destruct H5 as (k & e & ws & fin & Hk & I5 & Lws & Fws & Hfin & Htries
                  & Hgave & Hwf5 & P5 & Pe).
  rewrite P2, P1 in I3. rewrite P1 in I2. rewrite P3, P2, P1 in I4.
  rewrite P4' in *. simpl_priv.
  pose proof (io_srst_trans _ _ _ _ _ _ _ _ _ _
               (io_srst_trans _ _ _ _ _ _ _ _ _ _
                 (io_srst_trans _ _ _ _ _ _ _ _ _ _
                   (io_srst_trans _ _ _ _ _ _ _ _ _ _ I1 I2) I3) I4) I5) as I.
  clear I1 I2 I3 I4 I5.
  rewrite Htries. destruct (gave_up e) eqn:G.
  - mstep. exists dscr0, k, e, ws, fin.
    split; [exact Hk |]. split.
    { eapply io_srst_eq; [exact I | | reflexivity | reflexivity].
      unfold attach_calls, dscr_attach, dscr_mode. rewrite G, Hcs, app_nil_r.
      rewrite <- ?app_assoc. reflexivity. }
    split; [exact Lws |]. split; [exact Fws |]. split; [exact Hfin |].
    split; [rewrite G; reflexivity |]. split; [rewrite G; exact Hgave |].
    rewrite G. destruct e; try discriminate. exact Pe.
  - mstep. mstep. mstep.
    muse clear_breakpoints_spec as u6 t6 H6.
    { rewrite P5. simpl_priv. destruct Hwf as (W1 & W2 & _). lia. }
    destruct H6 as (I6 & P6). apply io_srst_of_io in I6.
    2: { unfold clear_breakpoints_calls. clear.
         induction (seq 0 (hw_breakpoint_max (priv t5))) as [| i l IH];
           [reflexivity | exact IH]. }
    mstep. muse platform_srst_set_val_spec as u7 t7 H7. destruct H7 as (P7 & I7).
    apply io_srst_of_io in I7; [| reflexivity].
    mstep. exists dscr0, k, e, ws, fin.
    pose proof (io_srst_trans _ _ _ _ _ _ _ _ _ _
                 (io_srst_trans _ _ _ _ _ _ _ _ _ _ I I6) I7) as I'.
    rewrite P5 in I', P6. simpl_priv.
    split; [exact Hk |]. split.
    { eapply io_srst_eq; [exact I' | | |].
      - unfold attach_calls, dscr_attach, dscr_mode. rewrite G, Hcs.
        rewrite <- ?app_assoc. reflexivity.
      - rewrite !app_nil_r. reflexivity.
      - rewrite !app_nil_r. reflexivity. }
    split; [exact Lws |]. split; [exact Fws |]. split; [exact Hfin |].
    split; [rewrite G; reflexivity |]. split; [rewrite G; exact Hgave |].
    rewrite G, P7, P6. simpl_priv. reflexivity.
Qed.

End Attach.

Lemma answered_reset_held env evs : forall h,
  reset_held env -> answered env h evs ->
  Forall (fun b => b = true) (srst_reads evs).
Proof.
  induction evs as [| [c rp] evs IH]; intros h Hheld A; [constructor |].
  destruct A as [E A]. specialize (IH _ Hheld A).
  unfold srst_reads in *. simpl.
  destruct c; try exact IH. destruct (Hheld h) as (v & Ev & Hv).
  rewrite Ev in E. subst rp. constructor; [| exact IH].
  apply negb_true_iff, Z.eqb_neq. exact Hv.
Qed.

Lemma answered_never_halts env evs : forall h,
  never_halts env -> answered env h evs ->
  Forall (fun b => b = false) (srst_reads evs) /\
  Forall (fun w => Z.testbit w 0 = false) (words_read evs).
Proof.
  induction evs as [| [c rp] evs IH]; intros h Hnever A; [split; constructor |].
  destruct A as [E A]. destruct (IH _ Hnever A) as [IH1 IH2].
  destruct Hnever as [Hsrst Hword].
  unfold srst_reads, words_read in *. simpl.
  destruct c; try (split; assumption).
  - destruct rnw, reg; try (split; assumption).
    destruct rp as [v |]; [| split; assumption].
    split; [exact IH1 |]. constructor; [| exact IH2].
    destruct (Hword h val) as (v' & Ev & Hv).
    rewrite Ev in E. injection E as <-. exact Hv.
  - rewrite Hsrst in E. subst rp. split; [| exact IH2].
    constructor; [reflexivity | exact IH1].
Qed.

Section AttachClaim.

Variable env : environment.
Hypothesis Hrel : reliable env.

(** C1, as amended.  With a transport that raises no exception and a
    state of the shape the probe sets up, [cortexa_attach] clears the error
    state, enables halting debug in DBGDSCR, writes the halt request to
    DBGDRCR and then polls at most ten times, 200 ms apart: each poll reads
    the reset line and, when it is not asserted, DBGDSCR.  It returns false
    exactly when the tenth poll, like the nine before it, found the reset
    line not asserted and HALTED clear; the state is then as it was but for
    [mmu_fault].  A poll that finds the reset line asserted, or the core
    halted, ends the polling, and the call goes on: it writes 0 to
    DBGBCR[i] and to the table entry of every slot, deasserts the reset line
    and returns true.  So with the reset line held asserted the call
    returns true after one poll, and with a core that never halts and a
    reset line never asserted it returns false. *)
Theorem cortexa_attach_polls_then_clears t :
  priv_wf (priv t) ->
  exists b t' dscr0 k e ws fin,
    cortexa_attach env t = (Done b, t') /\
    io_srst env (trace t) (trace t') (attach_calls (priv t) dscr0 k e)
            (dscr0 :: ws ++ fin) (replicate k false ++ [reset_asserted e]) /\
    (k <= 9)%nat /\ length ws = k /\
    Forall (fun w => Z.testbit w 0 = false) ws /\
    poll_end_words e fin /\
    (b = false <-> e = Gave_up) /\
    (e = Gave_up -> k = 9%nat) /\
    (b = false -> priv t' = set_mmu_fault false (priv t)) /\
    (b = true ->
       take (hw_breakpoint_max (priv t)) (hw_breakpoint (priv t'))
       = replicate (hw_breakpoint_max (priv t)) 0 /\
       priv t' = set_hw_breakpoint
                   (replicate (hw_breakpoint_max (priv t)) 0
                    ++ drop (hw_breakpoint_max (priv t)) (hw_breakpoint (priv t)))
                   (set_reg_cache (reg_cache (priv t'))
                      (set_mmu_fault false (priv t)))) /\
    (reset_held env -> b = true /\ k = O /\ e = Reset_asserted) /\
    (never_halts env -> b = false).
Proof.
  intros Hwf.
  destruct (cortexa_attach_spec env Hrel t Hwf)
    as (b & t' & E & dscr0 & k & e & ws & fin & Hk & I & Lws & Fws & Hfin & Hb
        & Hgave & Hp).
  exists b, t', dscr0, k, e, ws, fin.
  split; [exact E |]. split; [exact I |]. split; [exact Hk |].
  split; [exact Lws |]. split; [exact Fws |]. split; [exact Hfin |].
  split; [rewrite Hb; destruct e; simpl; split; congruence |].
  split; [intros ->; apply Hgave; reflexivity |].
  split; [intros ->; symmetry in Hb; apply negb_false_iff in Hb;
          rewrite Hb in Hp; exact Hp |].
  split.
  { intros ->. symmetry in Hb. apply negb_true_iff in Hb. rewrite Hb in Hp.
    split; [| exact Hp]. rewrite Hp. simpl_priv.
    apply take_app_length'. rewrite length_replicate. reflexivity. }
  destruct I as (evs & T & C & W & S & A). split.
  - intros Hheld. pose proof (answered_reset_held env evs _ Hheld A) as F.
    rewrite S in F. apply Forall_app in F as [F1 F2].
    assert (k = O) as ->.
    { destruct k as [| k]; [reflexivity |].
      simpl in F1. inversion F1. discriminate. }
    inversion F2 as [| x l Hx _]. subst.
    destruct e; try discriminate. auto.
  - intros Hnever. destruct (answered_never_halts env evs _ Hnever A) as [F1 F2].
    rewrite S in F1. rewrite W in F2.
    apply Forall_app in F1 as [_ F1]. inversion F1 as [| x l Hx _]. subst x l.
    inversion F2 as [| x l _ F3]. subst x l.
    apply Forall_app in F3 as [_ F3].
    rewrite Hb. destruct e; simpl in *; try discriminate; [| reflexivity].
    destruct Hfin as (B & rest & -> & _). inversion F3. congruence.
Qed.

End AttachClaim.

(** ** The claims at concrete inputs *)

Ltac reliable_env := intros ? c; destruct c; eexists; reflexivity.
Ltac wf_priv := repeat split; try reflexivity; simpl; lia.

(** C1 as stated fails here: with the reset line held asserted,
    [cortexa_attach] returns true, not false. *)
Lemma attach_with_reset_held_returns_true :
  reset_held env_reset_held /\
  fst (cortexa_attach env_reset_held target0) = Done true /\
  fst (cortexa_attach env_reset_held target0) <> Done false.
Proof.
  split; [intros h; exists 1; split; [reflexivity | lia] |].
  split; [vm_compute; reflexivity | vm_compute; discriminate].
Qed.

Lemma cortexa_attach_polls_then_clears_witness :
  priv_wf (priv target0) /\
  (exists t', cortexa_attach env_running target0 = (Done false, t')) /\
  (exists t', cortexa_attach env_reset_held target0 = (Done true, t')) /\
  (exists t', cortexa_attach env_halted target0 = (Done true, t')).
Proof.
  assert (priv_wf (priv target0)) as Hwf by wf_priv.
  split; [exact Hwf |]. split; [| split].
  - destruct (cortexa_attach_polls_then_clears env_running ltac:(reliable_env)
                target0 Hwf)
      as (b & t' & dscr0 & k & e & ws & fin & E & _ & _ & _ & _ & _ & _ & _ & _ & _
          & _ & Hnever).
    exists t'. rewrite E. rewrite Hnever; [reflexivity |].
    split; [reflexivity |]. intros h val. exists 0. split; reflexivity.
  - destruct (cortexa_attach_polls_then_clears env_reset_held ltac:(reliable_env)
                target0 Hwf)
      as (b & t' & dscr0 & k & e & ws & fin & E & _ & _ & _ & _ & _ & _ & _ & _ & _
          & Hheld & _).
    exists t'. rewrite E. destruct Hheld as (-> & _); [| reflexivity].
    intros h. exists 1. split; [reflexivity | lia].
  - destruct (cortexa_attach_polls_then_clears env_halted ltac:(reliable_env)
                target0 Hwf)
      as (b & t' & dscr0 & k & e & ws & fin & E & _ & _ & _ & _ & _ & Hb & _).
    exists t'. rewrite E. destruct b; [reflexivity |].
    exfalso. pose proof E as E'. vm_compute in E'. discriminate.
Defined.

Lemma cortexa_check_error_reads_and_clears_witness :
  ahb_quiet env_running /\ mmu_fault (priv target_fault) = true /\
  exists t',
    check_error_times env_running 3 target_fault = (Done [true; false; false], t').
Proof.
  assert (ahb_quiet env_running) as Hq by (intros h; exists 0; split; reflexivity).
  split; [exact Hq |]. split; [reflexivity |].
  destruct (cortexa_check_error_reads_and_clears env_running ltac:(reliable_env)
              target_fault) as (b & t' & _ & _ & _ & _ & Hseq).
  exact (Hseq Hq eq_refl 2%nat).
Defined.

Lemma cortexa_set_hw_bp_takes_first_free_slot_witness :
  priv_wf (priv target0) /\ free_slots (priv target0) = 6%nat /\
  exists t',
    set_hw_bp_each env_running
      [(0x8000, 4); (0x8004, 4); (0x9002, 2); (0x8000, 4); (0, 4); (0xa000, 4)]
      target0
    = (Done [0; 0; 0; 0; 0; 0], t') /\
    cortexa_set_hw_bp env_running 0xb000 4 t' = (Done (-1), t').
Proof.
  assert (priv_wf (priv target0)) as Hwf by wf_priv.
  split; [exact Hwf |]. split; [reflexivity |].
  destruct (cortexa_set_hw_bp_takes_first_free_slot env_running ltac:(reliable_env)
              0 4 target0 Hwf) as (_ & _ & Hseq).
  destruct (Hseq [(0x8000, 4); (0x8004, 4); (0x9002, 2); (0x8000, 4); (0, 4); (0xa000, 4)])
    as (t' & E & _ & Hfull).
  - vm_compute. lia.
  - exists t'. split; [exact E |]. apply Hfull. reflexivity.
Defined.

(** C4.  A breakpoint at address 0 on a table of six free slots: after
    [cortexa_set_hw_bp(0, 4)] and [cortexa_clear_hw_bp(0, 4)] the second
    [cortexa_clear_hw_bp(0, 4)] returns 0, not -1, because the entry 0 of a
    free slot equals address 0 without its live bit.  And with a breakpoint
    at 0x8000 set before and cleared first, the clear of address 0 returns
    0 but takes the free slot 0: no slot is freed, and the breakpoint at
    address 0 stays live in slot 1. *)
Lemma clear_hw_bp_address_zero_is_not_idempotent :
  fst (set_clear_clear env_running 0 4 4 4 target0) = Done (0, 0, 0) /\
  fst (set_clear_clear env_running 0 4 4 4 target0) <> Done (0, 0, -1) /\
  (let (o, t') := run_bp_ops env_running
                    [Set_bp 0x8000 4; Set_bp 0 4; Clear_bp 0x8000 4; Clear_bp 0 4]
                    target0 in
   o = Done [0; 0; 0; 0] /\
   hw_breakpoint (priv t') !! 1%nat = Some 1 /\
   free_slots (priv t') = 5%nat).
Proof.
  split; [vm_compute; reflexivity |].
  split; [vm_compute; discriminate |].
  vm_compute. auto.
Qed.

(** C5 as stated fails here: four aligned bytes are read with one word
    (three reads of DBGDTRTX with the stale one and the last one), where
    ceil((len + (addr & 3) + 3) / 4) = ceil(7 / 4) asks for two. *)
Lemma slow_mem_read_reads_one_word_for_four_bytes :
  Z.to_nat (Qceiling ((4 + Z.land 0 3 + 3) # 4)) = 2%nat /\
  apb_accesses (base priv0) DBGDTRTX
    (calls (trace (snd (cortexa_slow_mem_read env_running 0 4 target0))))
  = (1 + 1 + 1)%nat /\
  apb_accesses (base priv0) DBGDTRTX
    (calls (trace (snd (cortexa_slow_mem_read env_running 0 4 target0))))
  <> (1 + Z.to_nat (Qceiling ((4 + Z.land 0 3 + 3) # 4)) + 1)%nat.
Proof.
  split; [reflexivity |]. split; [vm_compute; reflexivity |].
  vm_compute. discriminate.
Qed.

Lemma slow_mem_read_drains_and_copies_witness :
  0 <= 6 <= 2 ^ 32 - 7 /\
  exists dest t',
    cortexa_slow_mem_read env_count 1 6 target0 = (Done dest, t') /\
    length dest = 6%nat.
Proof.
  assert (0 <= 6 <= 2 ^ 32 - 7) as Hlen by lia.
  split; [exact Hlen |].
  destruct (slow_mem_read_drains_and_copies env_count ltac:(reliable_env)
              1 6 target0 Hlen)
    as (dest & t' & dscr0 & stale & ws & dscr1 & rest & E & _ & _ & _ & _ & _ & L & _).
  exists dest, t'. split; [exact E | exact L].
Defined.

Lemma va_to_pa_returns_page_and_offset_witness :
  exists pa t',
    va_to_pa env_halted 0x12345678 target0 = (Done pa, t') /\
    Z.land pa 0xfff = 0x678.
Proof.
  destruct (va_to_pa_returns_page_and_offset env_halted ltac:(reliable_env)
              0x12345678 target0)
    as (par & pa & t' & E & _ & _ & L & _).
  exists pa, t'. split; [exact E | rewrite L; reflexivity].
Defined.

Lemma snapshot_pc_is_adjusted_by_thumb_bit_witness :
  priv_wf (priv target0) /\
  exists t' raw_pc c,
    cortexa_regs_read_internal env_count target0 = (Done tt, t') /\
    r (reg_cache (priv t')) !! 15%nat
    = Some (u32 (raw_pc - (if Z.testbit c 5 then 4 else 8))).
Proof.
  assert (priv_wf (priv target0)) as Hwf by wf_priv.
  split; [exact Hwf |].
  destruct (snapshot_pc_is_adjusted_by_thumb_bit env_count ltac:(reliable_env)
              target0 Hwf)
    as (t' & regs & raw_pc & c & f & ws & E & _ & _ & _ & _ & _ & _ & _ & R & _).
  exists t', raw_pc, c. split; [exact E | exact R].
Defined.

Lemma regs_read_write_read_same_bytes_witness :
  priv_wf (priv target0) /\
  exists b1 b2 t',
    regs_read_write_read buffer_ones buffer_zero target0 = (Done (b1, b2), t') /\
    b2 = b1.
Proof.
  assert (priv_wf (priv target0)) as Hwf by wf_priv.
  split; [exact Hwf |].
  destruct (regs_read_write_read_same_bytes buffer_ones buffer_zero target0 Hwf)
    as (b1 & b2 & t' & E & _ & _ & _ & Heq & _).
  - vm_compute. lia.
  - vm_compute. lia.
  - exists b1, b2, t'. split; [exact E |]. apply Heq; reflexivity.
Defined.

Lemma odd_breakpoint_address_cannot_be_cleared_witness :
  Z.testbit 0x8001 0 = true /\ first_slot slot_free (priv target0) 0 /\
  exists t1,
    cortexa_set_hw_bp env_running 0x8001 2 target0 = (Done 0, t1) /\
    cortexa_clear_hw_bp env_running 0x8001 2 t1 = (Done (-1), t1).
Proof.
  assert (priv_wf (priv target0)) as Hwf by wf_priv.
  assert (first_slot slot_free (priv target0) 0) as Hfirst.
  { split; [simpl; lia |]. split; [exists 0; split; reflexivity |].
    intros j e Hj. lia. }
  split; [reflexivity |]. split; [exact Hfirst |].
  destruct (odd_breakpoint_address_cannot_be_cleared env_running ltac:(reliable_env)
              0x8001 2 target0 O Hwf eq_refl Hfirst)
    as (t1 & E & _ & _ & _ & Hfail & _).
  exists t1. split; [exact E | apply Hfail].
Defined.

(** C10 as stated fails here: after [cortexa_set_hw_bp(1, 4)] on the
    table of six free slots no breakpoint at address 0 was set and the
    first free slot is slot 1, yet [cortexa_clear_hw_bp(0, 4)] returns 0
    for slot 0, not for the first free slot: it writes DBGBCR[0], not
    DBGBCR[1], and clears the live breakpoint of slot 0, so that six slots
    are free where five were. *)
Lemma clear_hw_bp_zero_clears_the_breakpoint_at_address_one :
  cortexa_set_hw_bp env_running 1 4 target0 = (Done 0, target_bp1) /\
  hw_breakpoint (priv target_bp1) !! 0%nat = Some 1 /\
  first_slot slot_free (priv target_bp1) 1 /\
  free_slots (priv target_bp1) = 5%nat /\
  fst (cortexa_clear_hw_bp env_running 0 4 target_bp1) = Done 0 /\
  calls (trace (snd (cortexa_clear_hw_bp env_running 0 4 target_bp1)))
  = calls (trace target_bp1) ++ apb_write_calls (base priv0) (DBGBCR 0) 0 /\
  calls (trace (snd (cortexa_clear_hw_bp env_running 0 4 target_bp1)))
  <> calls (trace target_bp1) ++ apb_write_calls (base priv0) (DBGBCR 1) 0 /\
  hw_breakpoint (priv (snd (cortexa_clear_hw_bp env_running 0 4 target_bp1))) !! 0%nat
  = Some 0 /\
  free_slots (priv (snd (cortexa_clear_hw_bp env_running 0 4 target_bp1))) = 6%nat.
Proof.
  split; [vm_compute; reflexivity |]. split; [vm_compute; reflexivity |].
  split.
  { split; [vm_compute; lia |]. split; [exists 0; vm_compute; auto |].
    intros j e Hj E. assert (j = O) as -> by lia.
    vm_compute in E. injection E as <-. reflexivity. }
  split; [vm_compute; reflexivity |]. split; [vm_compute; reflexivity |].
  split; [vm_compute; reflexivity |]. split; [vm_compute; discriminate |].
  split; vm_compute; reflexivity.
Qed.

Lemma clear_hw_bp_zero_succeeds_while_a_slot_is_free_witness :
  priv_wf (priv target_bp1) /\ table_ok (priv target_bp1) /\
  first_slot slot_free (priv target_bp1) 1 /\
  exists t', cortexa_clear_hw_bp env_running 0 4 target_bp1 = (Done 0, t') /\
    free_slots (priv t') = S (free_slots (priv target_bp1)).
Proof.
  assert (priv_wf (priv target_bp1)) as Hwf by (vm_compute; repeat split; lia).
  assert (table_ok (priv target_bp1)) as Hok.
  { intros j e _ E. destruct j as [| j].
    - vm_compute in E. injection E as <-. right. reflexivity.
    - left. change (hw_breakpoint (priv target_bp1)) with (1 :: replicate 15 0) in E.
      cbn [lookup list_lookup] in E. apply lookup_replicate in E as [-> _].
      reflexivity. }
  assert (first_slot slot_free (priv target_bp1) 1) as Hfirst.
  { split; [vm_compute; lia |]. split; [exists 0; vm_compute; auto |].
    intros j e Hj E. assert (j = O) as -> by lia.
    vm_compute in E. injection E as <-. reflexivity. }
  split; [exact Hwf |]. split; [exact Hok |]. split; [exact Hfirst |].
  destruct (clear_hw_bp_zero_succeeds_while_a_slot_is_free env_running
              ltac:(reliable_env) 4 target_bp1 1%nat Hwf Hok Hfirst)
    as (j & e & t' & E & Hj & _ & Ej & _ & _ & _ & _ & _ & _ & _ & _ & Hone & _).
  exists t'. split; [exact E |]. apply Hone.
  destruct Hj as (_ & _ & Hlt).
  destruct j as [| j].
  - vm_compute in Ej. injection Ej as <-. reflexivity.
  - pose proof (Hlt O 1 ltac:(lia) eq_refl) as F. vm_compute in F. discriminate.
Defined.

(** The link is lost after the read of the PC: the snapshot ends with the
    exception and r[15] holds the PC word as read, not adjusted. *)
Lemma snapshot_cut_short_keeps_raw_pc :
  fst (cortexa_regs_read_internal env_lost target0) = Throw EXCEPTION_ERROR /\
  words_read (trace (snd (cortexa_regs_read_internal env_lost target0))) !! 15%nat
  = Some 4177 /\
  r (reg_cache (priv (snd (cortexa_regs_read_internal env_lost target0)))) !! 15%nat
  = Some 4177.
Proof. vm_compute. auto. Qed.

(** ** Probe *)

Section Probe.

Variable env : environment.
Hypothesis Hrel : reliable env.

Lemma extcall_spec c t :
  returns (extcall env c) t (fun _ t' => priv t' = priv t).
Proof.
  unfold returns, extcall. destruct (Hrel (trace t) c) as [v E]. rewrite E.
  eexists _, _. split; reflexivity.
Qed.

Lemma land_15_range x : 0 <= Z.land x 15 <= 15.
Proof.
  change 15 with (Z.ones 4) at 1 2. rewrite Z.land_ones by lia.
  pose proof (Z.mod_pos_bound x (2 ^ 4) ltac:(lia)). lia.
Qed.

(** The probe leaves a state of the shape that the operations assume:
    sixteen table entries, all free, between one and sixteen comparators,
    sixteen registers of each kind, no fault pending. *)
Lemma cortexa_probe_shape size_word apb_csw debug_base t :
  returns (cortexa_probe env size_word apb_csw debug_base) t (fun ok t' =>
    ok = true /\ priv_wf (priv t') /\ table_ok (priv t') /\
    free_slots (priv t') = hw_breakpoint_max (priv t') /\
    reg_cache_ok (reg_cache (priv t')) /\
    base (priv t') = debug_base /\ mmu_fault (priv t') = false).
Proof.
  unfold cortexa_probe, target_new, adiv5_ap_ref, adiv5_new_ap, adiv5_ap_unref,
    adiv5_ap_write.
  mstep. mstep. muse extcall_spec as v1 t1 H1. mstep.
  mstep. mstep. muse extcall_spec as v2 t2 H2. mstep.
  mstep. mstep.
  mstep. mstep. muse extcall_spec as idr t3 H3. mstep.
  mstep. mstep.
  mstep. mstep. muse extcall_spec as v4 t4 H4. mstep.
  assert (forall (a : option ADIv5_AP_t) t5,
    priv t5 = set_ahb a calloc_priv ->
    returns
      (modify_priv (set_base debug_base) ;;;
       (extcall env (AP_WRITE APB_AP ADIV5_AP_CSW (Z.lor apb_csw size_word)) ;;; ret tt) ;;;
       dbgdidr <- apb_read env DBGDIDR ;;
       modify_priv
         (set_hw_breakpoint_max (Z.to_nat (Z.land (Z.shiftr dbgdidr 24) 15 + 1))) ;;;
       ret true) t5
      (fun ok t' =>
         ok = true /\ priv_wf (priv t') /\ table_ok (priv t') /\
         free_slots (priv t') = hw_breakpoint_max (priv t') /\
         reg_cache_ok (reg_cache (priv t')) /\
         base (priv t') = debug_base /\ mmu_fault (priv t') = false)) as Hrest.
  { intros a t5 P5.
    mstep. mstep. mstep. mstep. muse extcall_spec as v6 t6 H6. mstep.
    mstep. muse (apb_read_spec env Hrel) as didr t7 H7. destruct H7 as (P7 & _ & _).
    mstep. mstep. mstep. rewrite P7, H6. simpl_priv. rewrite P5.
    pose proof (land_15_range (Z.shiftr didr 24)) as Hn.
    set (n := Z.to_nat (Z.land (Z.shiftr didr 24) 15 + 1)).
    assert (1 <= n <= 16)%nat as Hmax by (unfold n; lia).
    split; [reflexivity |]. split; [repeat split; simpl; lia |].
    split.
    { intros j e _ E. change (replicate 16 0 !! j = Some e) in E.
      apply lookup_replicate in E as [-> _]. auto. }
    split.
    { unfold free_slots.
      change (length (List.filter slot_free (take n (replicate 16 0))) = n).
      rewrite take_replicate, Nat.min_l by lia.
      clear. induction n as [| n IH]; [reflexivity | simpl; rewrite IH; reflexivity]. }
    split.
    { unfold reg_cache_ok, is_u32, is_u64. simpl.
      repeat split; try lia; repeat constructor; lia. }
    split; reflexivity. }
  mstep. destruct (Z.land (u32 idr) 268427279 =? 74907649).
  - mstep. apply Hrest with (a := Some AHB_AP).
    rewrite H4, H3. reflexivity.
  - mstep. mstep. muse extcall_spec as v5 t5 H5. mstep. mstep.
    apply Hrest with (a := None). simpl_priv. rewrite H5, H4, H3. reflexivity.
Qed.

End Probe.

(** ** The table keeps its shape *)

Lemma table_ok_bp_set p i addr len : table_ok p -> table_ok (bp_set_priv i addr len p).
Proof.
  intros Hok j e Hj E.
  rewrite hw_breakpoint_max_bp_set in Hj. rewrite hw_breakpoint_bp_set in E.
  apply list_lookup_insert_Some in E as [(-> & <- & _) | (Hne & E)].
  - right. rewrite Z.lor_spec. apply orb_true_r.
  - apply (Hok j e Hj E).
Qed.

Lemma table_ok_bp_clear p i : table_ok p -> table_ok (bp_clear_priv i p).
Proof.
  intros Hok j e Hj E.
  rewrite hw_breakpoint_max_bp_clear in Hj. rewrite hw_breakpoint_bp_clear in E.
  apply list_lookup_insert_Some in E as [(-> & <- & _) | (Hne & E)].
  - left. reflexivity.
  - apply (Hok j e Hj E).
Qed.

(** ** Register write-back *)

Lemma io_words_u32 env h h' cs vs : io env h h' cs vs -> Forall is_u32 vs.
Proof.
  intros (evs & _ & _ & <- & _). clear. unfold words_read.
  induction evs as [| [c rp] evs IH]; [constructor |]. simpl.
  destruct c; try exact IH. destruct rnw, reg; try exact IH.
  destruct rp as [v |]; [| exact IH]. constructor; [apply u32_range | exact IH].
Qed.

Lemma nth_lookup_Z (l : list Z) i v : l !! i = Some v -> nth i l 0 = v.
Proof. intros E. rewrite nth_lookup, E. reflexivity. Qed.

Section WriteBack.

Variable env : environment.
Hypothesis Hrel : reliable env.

Lemma restore_vfp_loop t :
  length (d (reg_cache (priv t))) = 16%nat ->
  returns (for_loop 0 16 (fun i =>
             p <- get_priv ;;
             dv <- array_get (d (reg_cache p)) i ;;
             write_gpreg env 1 (u32 (Z.shiftr dv 32)) ;;;
             p <- get_priv ;;
             dv <- array_get (d (reg_cache p)) i ;;
             write_gpreg env 0 (u32 dv) ;;;
             apb_write env DBGITR (Z.lor 0xec410b10 (Z.of_nat i)))) t
    (fun _ t' =>
       priv t' = priv t /\
       io env (trace t) (trace t')
          (flat_map (restore_vfp_calls (base (priv t)) (reg_cache (priv t))) (seq 0 16))
          []).
Proof.
  intros Hd.
  apply (returns_for_loop (fun j t' =>
       priv t' = priv t /\
       io env (trace t) (trace t')
          (flat_map (restore_vfp_calls (base (priv t)) (reg_cache (priv t))) (seq 0 j))
          [])).
  - split; [reflexivity | apply io_refl].
  - intros j t1 Hj (P0 & I0).
    destruct (lookup_lt_is_Some_2 (d (reg_cache (priv t))) j ltac:(lia)) as [dv E].
    mstep. mstep. mstep. muse (array_get_spec _ j dv) as hi t2 H2.
    { rewrite P0. exact E. }
    destruct H2 as [-> ->].
    mstep. muse (write_gpreg_spec env Hrel) as u3 t3 H3. destruct H3 as (P3 & I3).
    mstep. mstep. mstep. muse (array_get_spec _ j dv) as lo t4 H4.
    { rewrite P3, P0. exact E. }
    destruct H4 as [-> ->].
    mstep. muse (write_gpreg_spec env Hrel) as u5 t5 H5. destruct H5 as (P5 & I5).
    muse (apb_write_spec env Hrel) as u6 t6 H6. destruct H6 as (P6 & I6).
    privs. split; [reflexivity |].
    rewrite flat_map_seq_S. unfold restore_vfp_calls at 2.
    rewrite (nth_lookup_Z _ _ _ E). io_chain.
    match goal with H : io _ _ _ _ _ |- _ => eapply io_eq; [exact H | |] end;
      rewrite <- ?app_assoc; reflexivity.
Qed.

Lemma restore_gp_loop t :
  length (r (reg_cache (priv t))) = 16%nat ->
  returns (for_loop 0 15 (fun i =>
             p <- get_priv ;;
             v <- array_get (r (reg_cache p)) i ;;
             write_gpreg env (Z.of_nat i) v)) t
    (fun _ t' =>
       priv t' = priv t /\
       io env (trace t) (trace t')
          (flat_map (fun i => write_gpreg_calls (base (priv t)) (Z.of_nat i)
                                (nth i (r (reg_cache (priv t))) 0)) (seq 0 15))
          []).
Proof.
  intros Hr.
  apply (returns_for_loop (fun j t' =>
       priv t' = priv t /\
       io env (trace t) (trace t')
          (flat_map (fun i => write_gpreg_calls (base (priv t)) (Z.of_nat i)
                                (nth i (r (reg_cache (priv t))) 0)) (seq 0 j))
          [])).
  - split; [reflexivity | apply io_refl].
  - intros j t1 Hj (P0 & I0).
    destruct (lookup_lt_is_Some_2 (r (reg_cache (priv t))) j ltac:(lia)) as [v E].
    mstep. mstep. mstep. muse (array_get_spec _ j v) as x t2 H2.
    { rewrite P0. exact E. }
    destruct H2 as [-> ->].
    muse (write_gpreg_spec env Hrel) as u3 t3 H3. destruct H3 as (P3 & I3).
    privs. split; [reflexivity |].
    rewrite flat_map_seq_S, (nth_lookup_Z _ _ _ E). io_chain.
    match goal with H : io _ _ _ _ _ |- _ => exact H end.
Qed.

Lemma cortexa_regs_write_internal_spec t :
  priv_wf (priv t) ->
  returns (cortexa_regs_write_internal env) t (fun _ t' =>
    priv t' = priv t /\
    io env (trace t) (trace t')
       (restore_calls (base (priv t)) (reg_cache (priv t))) []).
Proof.
  intros (_ & _ & Hr & Hd). unfold cortexa_regs_write_internal.
  destruct (lookup_lt_is_Some_2 (r (reg_cache (priv t))) 15 ltac:(lia)) as [pc E].
  mstep. muse restore_vfp_loop as u1 t1 H1; [exact Hd |]. destruct H1 as (P1 & I1).
  mstep. mstep.
  mstep. muse (write_gpreg_spec env Hrel) as u2 t2 H2. destruct H2 as (P2 & I2).
  mstep. muse (apb_write_spec env Hrel) as u3 t3 H3. destruct H3 as (P3 & I3).
  mstep. mstep.
  mstep. muse (write_gpreg_spec env Hrel) as u4 t4 H4. destruct H4 as (P4 & I4).
  mstep. muse (apb_write_spec env Hrel) as u5 t5 H5. destruct H5 as (P5 & I5).
  mstep. mstep.
  mstep. muse (array_get_spec _ 15 pc) as x t6 H6.
  { rewrite P5, P4, P3, P2, P1. exact E. }
  destruct H6 as [-> ->].
  mstep. muse (write_gpreg_spec env Hrel) as u7 t7 H7. destruct H7 as (P7 & I7).
  mstep. muse (apb_write_spec env Hrel) as u8 t8 H8. destruct H8 as (P8 & I8).
  muse restore_gp_loop as u9 t9 H9.
  { rewrite P8, P7, P5, P4, P3, P2, P1. exact Hr. }
  destruct H9 as (P9 & I9).
  privs. split; [reflexivity |].
  unfold restore_calls. rewrite (nth_lookup_Z _ _ _ E). io_chain.
  match goal with H : io _ _ _ _ _ |- _ => eapply io_eq; [exact H | |] end;
    rewrite <- ?app_assoc; reflexivity.
Qed.

End WriteBack.

(** *** What the write-back writes *)

Lemma apb_writes_write b reg v cs :
  apb_writes (apb_write_calls b reg v ++ cs) = (u32 (b + 4 * reg), v) :: apb_writes cs.
Proof. reflexivity. Qed.

Lemma apb_writes_read b reg cs :
  apb_writes (apb_read_calls b reg ++ cs) = apb_writes cs.
Proof. reflexivity. Qed.

Lemma written_to_write b reg reg' v cs :
  0 <= reg < 2 ^ 30 -> 0 <= reg' < 2 ^ 30 ->
  written_to b reg (apb_write_calls b reg' v ++ cs)
  = (if reg' =? reg then [v] else []) ++ written_to b reg cs.
Proof.
  intros H1 H2. unfold written_to. rewrite apb_writes_write. simpl.
  destruct (Z.eqb_spec reg' reg) as [-> | Hne].
  - rewrite Z.eqb_refl. reflexivity.
  - rewrite tar_distinct by assumption. reflexivity.
Qed.

Lemma written_to_read b reg reg' cs :
  written_to b reg (apb_read_calls b reg' ++ cs) = written_to b reg cs.
Proof. reflexivity. Qed.

Lemma written_to_flat_map {A} b reg (f : A -> list call) (g : A -> list Z) l cs :
  (forall x cs', written_to b reg (f x ++ cs') = g x ++ written_to b reg cs') ->
  written_to b reg (flat_map f l ++ cs) = flat_map g l ++ written_to b reg cs.
Proof.
  intros H. induction l as [| x l IH]; [reflexivity |].
  simpl. rewrite <- !app_assoc, H, IH. reflexivity.
Qed.

Lemma written_dtrrx_write_gpreg b regno v cs :
  written_to b DBGDTRRX (write_gpreg_calls b regno v ++ cs)
  = v :: written_to b DBGDTRRX cs.
Proof.
  unfold write_gpreg_calls. rewrite <- app_assoc.
  rewrite !written_to_write by (vm_compute; split; congruence). reflexivity.
Qed.

Lemma written_dtrrx_instr b v cs :
  written_to b DBGDTRRX (apb_write_calls b DBGITR v ++ cs) = written_to b DBGDTRRX cs.
Proof. rewrite written_to_write by (vm_compute; split; congruence). reflexivity. Qed.

Lemma flat_map_seq_nth {B} (g : Z -> list B) (l : list Z) :
  flat_map (fun i => g (nth i l 0)) (seq 0 (length l)) = flat_map g l.
Proof.
  induction l as [| x l IH]; [reflexivity |].
  cbn [length seq flat_map nth]. f_equal.
  rewrite <- seq_shift, flat_map_concat_map, map_map, <- flat_map_concat_map.
  exact IH.
Qed.

Lemma flat_map_singleton {A B} (g : A -> B) (l : list A) :
  flat_map (fun x => [g x]) l = map g l.
Proof. induction l as [| x l IH]; [reflexivity | simpl; rewrite IH; reflexivity]. Qed.

Lemma take_nth_seq (l : list Z) n :
  (n <= length l)%nat -> map (fun i => nth i l 0) (seq 0 n) = take n l.
Proof.
  revert l. induction n as [| n IH]; intros l Hn; [reflexivity |].
  destruct l as [| x l]; [simpl in Hn; lia |].
  cbn [seq map nth take]. f_equal.
  rewrite <- seq_shift, map_map. apply IH. simpl in Hn. lia.
Qed.

Lemma written_dtrrx_restore b c :
  length (r c) = 16%nat -> length (d c) = 16%nat ->
  written_to b DBGDTRRX (restore_calls b c) = restore_words c.
Proof.
  intros Hr Hd. unfold restore_calls, restore_words.
  rewrite (written_to_flat_map b DBGDTRRX _ (fun i => halves (nth i (d c) 0))).
  2: { intros i cs'. unfold restore_vfp_calls. rewrite <- !app_assoc.
       rewrite !written_dtrrx_write_gpreg, written_dtrrx_instr. reflexivity. }
  rewrite <- Hd at 1. rewrite (flat_map_seq_nth halves). f_equal.
  rewrite <- !app_assoc.
  rewrite !written_dtrrx_write_gpreg, !written_dtrrx_instr.
  rewrite !written_dtrrx_write_gpreg, !written_dtrrx_instr.
  rewrite !written_dtrrx_write_gpreg, !written_dtrrx_instr.
  cbn [app]. do 3 f_equal.
  rewrite <- (app_nil_r (flat_map _ (seq 0 15))).
  rewrite (written_to_flat_map b DBGDTRRX _ (fun i => [nth i (r c) 0])).
  2: { intros i cs'. rewrite written_dtrrx_write_gpreg. reflexivity. }
  rewrite app_nil_r, flat_map_singleton. apply take_nth_seq. lia.
Qed.

Lemma halves_double hi lo :
  is_u32 hi -> is_u32 lo -> halves (Z.lor (Z.shiftl hi 32) lo) = [hi; lo].
Proof.
  unfold is_u32, halves, u32. intros Hhi Hlo. f_equal; [| f_equal].
  - rewrite Z.shiftr_lor, Z.shiftr_shiftl_l by lia.
    rewrite (Z.shiftr_div_pow2 lo) by lia. rewrite (Z.div_small lo) by lia.
    change (32 - 32) with 0. rewrite Z.shiftl_0_r, Z.lor_0_r.
    apply Z.mod_small. exact Hhi.
  - rewrite <- (Z.land_ones _ 32) by lia. rewrite Z.land_lor_distr_l.
    rewrite !Z.land_ones by lia. rewrite Z.shiftl_mul_pow2 by lia.
    rewrite Z.mod_mul by lia. rewrite Z.lor_0_l. apply Z.mod_small. exact Hlo.
Qed.

Lemma halves_doubles ws :
  Forall is_u32 ws -> Nat.Even (length ws) -> flat_map halves (doubles ws) = ws.
Proof.
  intros F [k Hk]. revert ws F Hk. induction k as [| k IH]; intros ws F Hk.
  - destruct ws; [reflexivity | simpl in Hk; lia].
  - destruct ws as [| hi [| lo ws]]; simpl in Hk; try lia.
    inversion F as [| ? ? Uhi F1]. subst. inversion F1 as [| ? ? Ulo F2]. subst.
    cbn [doubles flat_map]. rewrite halves_double by assumption.
    rewrite IH by (auto; lia). reflexivity.
Qed.

Lemma length_flat_map_halves l : length (flat_map halves l) = (2 * length l)%nat.
Proof. induction l as [| x l IH]; [reflexivity | simpl in *; lia]. Qed.

Section WriteBackClaims.

Variable env : environment.
Hypothesis Hrel : reliable env.

(** X1.  In a state of the shape the probe sets up,
    [cortexa_regs_write_internal] returns and leaves the driver's state as
    it was.  Its transactions are, in order: for each of d0 .. d15 the high
    word into r1, the low word into r0 and the [vmov]; FPSCR through r0;
    CPSR through r0; the PC through r0; and r0 .. r14 themselves last, after
    every use of r0 and r1 as scratch registers.  The fifty words it sends
    through DBGDTRRX are the halves of the doubles, [fpscr], [cpsr], [r[15]]
    and then [r[0]] .. [r[14]] of the cache. *)
Theorem write_back_sends_the_cache_scratch_registers_last t :
  priv_wf (priv t) ->
  exists t',
    cortexa_regs_write_internal env t = (Done tt, t') /\
    priv t' = priv t /\
    io env (trace t) (trace t')
       (restore_calls (base (priv t)) (reg_cache (priv t))) [] /\
    written_to (base (priv t)) DBGDTRRX
       (restore_calls (base (priv t)) (reg_cache (priv t)))
    = restore_words (reg_cache (priv t)) /\
    length (restore_words (reg_cache (priv t))) = 50%nat /\
    drop 35 (restore_words (reg_cache (priv t))) = take 15 (r (reg_cache (priv t))).
Proof.
  intros Hwf. pose proof Hwf as (_ & _ & Hr & Hd).
  destruct (cortexa_regs_write_internal_spec env Hrel t Hwf) as ([] & t' & E & P & I).
  exists t'. split; [exact E |]. split; [exact P |]. split; [exact I |].
  split; [apply written_dtrrx_restore; assumption |].
  pose proof (length_flat_map_halves (d (reg_cache (priv t)))) as L.
  rewrite Hd in L. unfold restore_words. split.
  - rewrite !length_app, L, length_take, Hr. reflexivity.
  - rewrite app_assoc. apply drop_app_length'.
    rewrite length_app, L. reflexivity.
Qed.

(** X2.  The snapshot followed by the write-back gives the core back the
    words it was read: when [cortexa_regs_read_internal] read [regs] (r0 ..
    r14), [raw_pc], [c] (CPSR), [f] (FPSCR) and [ws] (d0 .. d15, high word
    first), [cortexa_regs_write_internal] then sends [ws], [f], [c], the PC
    and [regs] through DBGDTRRX.  Every word goes back as it was read but
    the PC, which goes back as [raw_pc] minus 4 (bit 5 of [c] set) or
    minus 8. *)
Theorem write_back_after_snapshot_returns_the_words_read t :
  priv_wf (priv t) ->
  exists t1 t2 regs raw_pc c f ws,
    cortexa_regs_read_internal env t = (Done tt, t1) /\
    io env (trace t) (trace t1) (snapshot_calls (base (priv t)))
       (regs ++ [raw_pc; c; f] ++ ws) /\
    length regs = 15%nat /\ length ws = 32%nat /\
    cortexa_regs_write_internal env t1 = (Done tt, t2) /\
    priv t2 = priv t1 /\
    io env (trace t1) (trace t2)
       (restore_calls (base (priv t)) (reg_cache (priv t1))) [] /\
    written_to (base (priv t)) DBGDTRRX
       (restore_calls (base (priv t)) (reg_cache (priv t1)))
    = ws ++ [f; c; u32 (raw_pc - (if Z.testbit c 5 then 4 else 8))] ++ regs.
Proof.
  intros Hwf. pose proof Hwf as (W1 & W2 & Hr & Hd).
  destruct (cortexa_regs_read_internal_spec env Hrel t Hwf)
    as ([] & t1 & E1 & regs & pc & c & f & ws & Hregs & Hws & U & I1 & P1).
  assert (priv_wf (priv t1)) as Hwf1.
  { rewrite P1. unfold priv_wf. simpl_priv. rewrite length_app, Hregs.
    rewrite (length_doubles ws 16) by exact Hws. auto. }
  destruct (cortexa_regs_write_internal_spec env Hrel t1 Hwf1) as ([] & t2 & E2 & P2 & I2).
  assert (base (priv t1) = base (priv t)) as Hb by (rewrite P1; reflexivity).
  rewrite Hb in I2.
  exists t1, t2, regs, pc, c, f, ws.
  split; [exact E1 |]. split; [exact I1 |]. split; [exact Hregs |].
  split; [exact Hws |]. split; [exact E2 |]. split; [exact P2 |].
  split; [exact I2 |].
  destruct Hwf1 as (_ & _ & Hr1 & Hd1).
  rewrite written_dtrrx_restore by assumption.
  rewrite P1. unfold restore_words. simpl_priv.
  pose proof (io_words_u32 _ _ _ _ _ I1) as F.
  apply Forall_app in F as [_ F]. apply Forall_app in F as [_ F].
  rewrite halves_doubles by (auto; exists 16%nat; lia).
  rewrite take_app_length' by (symmetry; exact Hregs).
  f_equal. f_equal. f_equal. f_equal.
  rewrite nth_lookup, list_lookup_middle by (symmetry; exact Hregs). reflexivity.
Qed.

End WriteBackClaims.

(** ** Detach and resume *)

Lemma land_bit_eqb x n :
  0 <= n -> (Z.land x (Z.shiftl 1 n) =? 0) = negb (Z.testbit x n).
Proof.
  intros Hn. rewrite Z.shiftl_1_l.
  destruct (Z.testbit x n) eqn:B; cbn [negb].
  - apply Z.eqb_neq. intros E.
    assert (Z.testbit (Z.land x (2 ^ n)) n = false) as F by (rewrite E; apply Z.bits_0).
    rewrite Z.land_spec, B, Z.pow2_bits_true in F by lia. discriminate.
  - apply Z.eqb_eq. apply Z.bits_inj'. intros m Hm.
    rewrite Z.land_spec, Z.bits_0, Z.pow2_bits_eqb by lia.
    destruct (Z.eqb_spec n m) as [<- | _]; [rewrite B; reflexivity | apply andb_false_r].
Qed.

Lemma free_slots_cleared p :
  (hw_breakpoint_max p <= length (hw_breakpoint p))%nat ->
  free_slots (set_hw_breakpoint (cleared_table p) p) = hw_breakpoint_max p.
Proof.
  intros Hmax. unfold free_slots, cleared_table. simpl_priv.
  rewrite take_app_length' by (rewrite length_replicate; reflexivity).
  generalize (hw_breakpoint_max p) as n. clear.
  induction n as [| n IH]; [reflexivity | simpl; rewrite IH; reflexivity].
Qed.

Section Detach.

Variable env : environment.
Hypothesis Hrel : reliable env.

Lemma detach_clear_loop n t :
  (n <= length (hw_breakpoint (priv t)))%nat ->
  returns (for_loop 0 n (fun i =>
             store_hw_breakpoint i 0 ;;;
             apb_write env (DBGBCR i) 0)) t
    (fun _ t' =>
       io env (trace t) (trace t') (clear_breakpoints_calls (base (priv t)) n) [] /\
       priv t' = set_hw_breakpoint
                   (replicate n 0 ++ drop n (hw_breakpoint (priv t))) (priv t)).
Proof.
  intros Hn.
  apply (returns_for_loop (fun j t' =>
       io env (trace t) (trace t') (clear_breakpoints_calls (base (priv t)) j) [] /\
       priv t' = set_hw_breakpoint
                   (replicate j 0 ++ drop j (hw_breakpoint (priv t))) (priv t))).
  - split; [apply io_refl |]. simpl. destruct (priv t). reflexivity.
  - intros j t1 Hj (I0 & P0).
    mstep. muse store_hw_breakpoint_spec as u1 t2 H1.
    { rewrite P0. simpl_priv. rewrite length_app, length_replicate, length_drop. lia. }
    subst t2.
    muse (apb_write_spec env Hrel) as u2 t3 H2. destruct H2 as (P2 & I2).
    simpl_priv. rewrite P0 in *. simpl_priv. split.
    + unfold clear_breakpoints_calls. rewrite flat_map_seq_S.
      io_chain. match goal with H : io _ _ _ _ _ |- _ => exact H end.
    + rewrite P2. simpl_priv.
      rewrite insert_next by (rewrite ?length_replicate; lia).
      rewrite <- replicate_S_end. reflexivity.
Qed.

Lemma cortexa_detach_spec t :
  priv_wf (priv t) ->
  returns (cortexa_detach env) t (fun _ t' => exists dscr,
    io env (trace t) (trace t') (detach_calls (priv t) dscr) [dscr] /\
    priv t' = set_hw_breakpoint (cleared_table (priv t)) (priv t)).
Proof.
  intros Hwf. pose proof Hwf as (W1 & W2 & W3 & W4). unfold cortexa_detach.
  mstep. mstep.
  mstep. muse detach_clear_loop as u1 t1 H1; [lia |]. destruct H1 as (I1 & P1).
  fold (cleared_table (priv t)) in P1.
  assert (priv_wf (priv t1)) as Hwf1.
  { rewrite P1. unfold priv_wf, cleared_table. simpl_priv.
    rewrite length_app, length_replicate, length_drop. repeat split; auto; lia. }
  mstep. muse (cortexa_regs_write_internal_spec env Hrel) as u2 t2 H2; [exact Hwf1 |].
  destruct H2 as (P2 & I2).
  mstep. muse (apb_write_spec env Hrel) as u3 t3 H3. destruct H3 as (P3 & I3).
  mstep. muse (apb_read_spec env Hrel) as dscr t4 H4. destruct H4 as (P4 & _ & I4).
  mstep. muse (apb_write_spec env Hrel) as u5 t5 H5. destruct H5 as (P5 & I5).
  muse (apb_write_spec env Hrel) as u6 t6 H6. destruct H6 as (P6 & I6).
  privs. simpl_priv. exists dscr. split; [| reflexivity].
  unfold detach_calls, dscr_detach. io_chain.
  match goal with H : io _ _ _ _ _ |- _ => eapply io_eq; [exact H | |] end;
    rewrite <- ?app_assoc; reflexivity.
Qed.

End Detach.

Lemma written_to_write_ne b reg reg' v cs :
  0 <= reg < 2 ^ 30 -> 0 <= reg' < 2 ^ 30 -> reg' <> reg ->
  written_to b reg (apb_write_calls b reg' v ++ cs) = written_to b reg cs.
Proof.
  intros H1 H2 Hne. rewrite written_to_write by assumption.
  destruct (Z.eqb_spec reg' reg); [contradiction | reflexivity].
Qed.

Lemma written_to_write_eq b reg v cs :
  0 <= reg < 2 ^ 30 ->
  written_to b reg (apb_write_calls b reg v ++ cs) = v :: written_to b reg cs.
Proof.
  intros H1. rewrite written_to_write by assumption.
  rewrite Z.eqb_refl. reflexivity.
Qed.

Lemma written_to_write_gpreg_ne b reg regno v cs :
  0 <= reg < 2 ^ 30 -> reg <> DBGDTRRX -> reg <> DBGITR ->
  written_to b reg (write_gpreg_calls b regno v ++ cs) = written_to b reg cs.
Proof.
  intros H1 H2 H3. unfold write_gpreg_calls. rewrite <- app_assoc.
  rewrite !written_to_write_ne; auto; vm_compute; split; congruence.
Qed.

Lemma written_to_restore_ne b reg c cs :
  0 <= reg < 2 ^ 30 -> reg <> DBGDTRRX -> reg <> DBGITR ->
  written_to b reg (restore_calls b c ++ cs) = written_to b reg cs.
Proof.
  intros H1 H2 H3.
  assert (forall v cs', written_to b reg (apb_write_calls b DBGITR v ++ cs')
                        = written_to b reg cs') as Hitr.
  { intros v cs'. apply written_to_write_ne; auto. vm_compute; split; congruence. }
  unfold restore_calls. rewrite <- !app_assoc.
  rewrite (written_to_flat_map b reg _ (fun _ => [])).
  2: { intros i cs'. unfold restore_vfp_calls. rewrite <- !app_assoc.
       rewrite !written_to_write_gpreg_ne, Hitr by assumption. reflexivity. }
  rewrite !written_to_write_gpreg_ne, !Hitr by assumption.
  rewrite !written_to_write_gpreg_ne, !Hitr by assumption.
  rewrite !written_to_write_gpreg_ne, !Hitr by assumption.
  rewrite (written_to_flat_map b reg _ (fun _ => [])).
  2: { intros i cs'. rewrite written_to_write_gpreg_ne by assumption. reflexivity. }
  clear. assert (forall (l : list nat), flat_map (fun _ : nat => @nil Z) l = []) as Hnil
    by (induction l; auto).
  rewrite !Hnil. reflexivity.
Qed.

Lemma written_to_clear_breakpoints b reg n cs :
  0 <= reg < 80 -> (n <= 16)%nat ->
  written_to b reg (clear_breakpoints_calls b n ++ cs) = written_to b reg cs.
Proof.
  intros H1 Hn. unfold clear_breakpoints_calls.
  assert (forall l, Forall (fun i => (i < 16)%nat) l ->
            written_to b reg (flat_map (fun i => apb_write_calls b (DBGBCR i) 0) l ++ cs)
            = written_to b reg cs) as H.
  { induction l as [| i l IH]; intros F; [reflexivity |].
    inversion F as [| ? ? Hi F']. subst. cbn [flat_map]. rewrite <- app_assoc.
    rewrite written_to_write_ne; [apply IH; exact F' | lia | | ];
      unfold DBGBCR; lia. }
  apply H. apply Forall_forall. intros i Hi. apply elem_of_seq in Hi. lia.
Qed.

Lemma dscr_detach_bits dscr n :
  0 <= n ->
  Z.testbit (dscr_detach dscr) n
  = Z.testbit dscr n && negb ((n =? 13) || (n =? 14)).
Proof.
  intros Hn. unfold dscr_detach.
  change DBGDSCR_HDBGEN with (2 ^ 14). change DBGDSCR_ITREN with (2 ^ 13).
  rewrite Z.land_spec, Z.lnot_spec, Z.lor_spec, !Z.pow2_bits_eqb by lia.
  rewrite (Z.eqb_sym n 13), (Z.eqb_sym n 14).
  destruct (14 =? n), (13 =? n); reflexivity.
Qed.

Section DetachClaim.

Variable env : environment.
Hypothesis Hrel : reliable env.

(** X3.  In a state of the shape the probe sets up, [cortexa_detach]
    returns after these transactions, in order: 0 to DBGBCR[i] of every
    comparator, the write-back of the register cache, the instruction cache
    invalidate, a read of DBGDSCR, a write of DBGDSCR, and CSE | RRQ to
    DBGDRCR.  The value written to DBGDSCR is the value read with HDBGEN
    (bit 14) and ITREN (bit 13) cleared and every other bit as read.
    Afterwards the table entry of every comparator is 0, so every slot is
    free; the register cache, [bpc0] and [mmu_fault] are what they were. *)
Theorem detach_frees_every_slot_and_leaves_debug_state t :
  priv_wf (priv t) ->
  exists t' dscr,
    cortexa_detach env t = (Done tt, t') /\
    io env (trace t) (trace t') (detach_calls (priv t) dscr) [dscr] /\
    written_to (base (priv t)) DBGDSCR (detach_calls (priv t) dscr)
    = [dscr_detach dscr] /\
    written_to (base (priv t)) DBGDRCR (detach_calls (priv t) dscr)
    = [Z.lor DBGDRCR_CSE DBGDRCR_RRQ] /\
    (forall n, 0 <= n ->
       Z.testbit (dscr_detach dscr) n
       = Z.testbit dscr n && negb ((n =? 13) || (n =? 14))) /\
    (forall j, (j < hw_breakpoint_max (priv t))%nat ->
       hw_breakpoint (priv t') !! j = Some 0) /\
    free_slots (priv t') = hw_breakpoint_max (priv t) /\
    priv t' = set_hw_breakpoint (hw_breakpoint (priv t')) (priv t).
Proof.
  intros Hwf. pose proof Hwf as (W1 & W2 & W3 & W4).
  destruct (cortexa_detach_spec env Hrel t Hwf) as ([] & t' & E & dscr & I & P).
  exists t', dscr. split; [exact E |]. split; [exact I |].
  split; [| split; [| split; [| split; [| split]]]].
  - unfold detach_calls.
    rewrite written_to_clear_breakpoints by (try lia; vm_compute; split; congruence).
    rewrite written_to_restore_ne by (vm_compute; try split; congruence).
    rewrite written_to_write_ne by (vm_compute; try split; congruence).
    rewrite written_to_read.
    rewrite written_to_write_eq by (vm_compute; split; congruence).
    rewrite <- (app_nil_r (apb_write_calls _ DBGDRCR _)).
    rewrite written_to_write_ne by (vm_compute; try split; congruence).
    reflexivity.
  - unfold detach_calls.
    rewrite written_to_clear_breakpoints by (try lia; vm_compute; split; congruence).
    rewrite written_to_restore_ne by (vm_compute; try split; congruence).
    rewrite written_to_write_ne by (vm_compute; try split; congruence).
    rewrite written_to_read.
    rewrite written_to_write_ne by (vm_compute; try split; congruence).
    rewrite <- (app_nil_r (apb_write_calls _ DBGDRCR _)).
    rewrite written_to_write_eq by (vm_compute; split; congruence).
    reflexivity.
  - intros n Hn. apply dscr_detach_bits. exact Hn.
  - intros j Hj. rewrite P. unfold cleared_table. simpl_priv.
    rewrite lookup_app_l by (rewrite length_replicate; exact Hj).
    apply lookup_replicate. auto.
  - rewrite P. rewrite free_slots_cleared by lia. reflexivity.
  - rewrite P. reflexivity.
Qed.

End DetachClaim.

Section Resume.

Variable env : environment.
Hypothesis Hrel : reliable env.

Lemma restart_loop_spec fuel : forall t,
  returns (restart_loop env fuel) t (fun res t' => exists polls,
    priv t' = priv t /\
    io env (trace t) (trace t') (restart_calls (base (priv t)) (length polls)) polls /\
    (length polls <= fuel)%nat /\
    restart_end fuel res polls).
Proof.
  induction fuel as [| fuel IH]; intros t; simpl.
  - mstep. exists []. split; [reflexivity |]. split; [apply io_refl |].
    split; [simpl; lia |]. simpl. auto.
  - mstep. muse (apb_write_spec env Hrel) as u1 t1 H1. destruct H1 as (P1 & I1).
    mstep. muse (apb_read_spec env Hrel) as w t2 H2. destruct H2 as (P2 & _ & I2).
    change DBGDSCR_RESTARTED with (Z.shiftl 1 1). rewrite land_bit_eqb by lia.
    destruct (Z.testbit w 1) eqn:B; cbn [negb].
    + mstep. exists [w]. privs. conjs; auto.
      * unfold restart_calls. simpl length. cbn [replicate concat].
        rewrite app_nil_r. io_chain.
        match goal with H : io _ _ _ _ _ |- _ => exact H end.
      * simpl. lia.
      * exists [], w. auto.
    + muse IH as res t3 H3. destruct H3 as (polls & P3 & I3 & L3 & End3).
      exists (w :: polls). privs. conjs; auto.
      * unfold restart_calls in *. simpl length. cbn [replicate concat].
        io_chain.
        match goal with H : io _ _ _ _ _ |- _ => eapply io_eq; [exact H | |] end;
          rewrite <- ?app_assoc; reflexivity.
      * simpl. lia.
      * destruct res as [[] |]; simpl in *.
        -- destruct End3 as (ps & w' & -> & F & Bw). exists (w :: ps), w'. auto.
        -- destruct End3 as [L F]. auto.
Qed.

Lemma cortexa_halt_resume_spec fuel step t :
  priv_wf (priv t) ->
  returns (cortexa_halt_resume env fuel step) t (fun res t' => exists dscr polls,
    priv t' = priv t /\
    io env (trace t) (trace t')
       (resume_calls (priv t) step (resume_bvr step (priv t)) (resume_bcr step (priv t))
          dscr (length polls))
       (dscr :: polls) /\
    (length polls <= fuel)%nat /\
    restart_end fuel res polls).
Proof.
  intros Hwf. pose proof Hwf as (W1 & W2 & W3 & W4). unfold cortexa_halt_resume.
  destruct (lookup_lt_is_Some_2 (r (reg_cache (priv t))) 15 ltac:(lia)) as [pc Epc].
  destruct (lookup_lt_is_Some_2 (hw_breakpoint (priv t)) 0 ltac:(lia)) as [e0 E0].
  mstep. mstep.
  assert (returns
    (if step
     then addr <- array_get (r (reg_cache (priv t))) 15 ;;
          pc0 <- array_get (r (reg_cache (priv t))) 15 ;;
          apb_write env (DBGBVR 0) (Z.land pc0 (Z.lnot 3)) ;;;
          apb_write env (DBGBCR 0)
            (Z.lor (Z.lor DBGBCR_INST_MISMATCH
                      (bp_bas addr
                         (if negb (Z.land (cpsr (reg_cache (priv t))) CPSR_THUMB =? 0)
                          then 2 else 4))) DBGBCR_EN)
     else e <- array_get (hw_breakpoint (priv t)) 0 ;;
          apb_write env (DBGBVR 0) (Z.land e (Z.lnot 3)) ;;;
          p <- get_priv ;; apb_write env (DBGBCR 0) (bpc0 p)) t
    (fun _ t1 =>
       priv t1 = priv t /\
       io env (trace t) (trace t1)
          (apb_write_calls (base (priv t)) (DBGBVR 0) (resume_bvr step (priv t))
           ++ apb_write_calls (base (priv t)) (DBGBCR 0) (resume_bcr step (priv t)))
          [])) as Hcmp.
  { unfold resume_bvr, resume_bcr. rewrite (nth_lookup_Z _ _ _ Epc), (nth_lookup_Z _ _ _ E0).
    destruct step.
    - mstep. muse (array_get_spec _ 15 pc) as x1 t1 H1; [exact Epc |].
      destruct H1 as [-> ->].
      mstep. muse (array_get_spec _ 15 pc) as x2 t2 H2; [exact Epc |].
      destruct H2 as [-> ->].
      mstep. muse (apb_write_spec env Hrel) as u3 t3 H3. destruct H3 as (P3 & I3).
      muse (apb_write_spec env Hrel) as u4 t4 H4. destruct H4 as (P4 & I4).
      privs. rewrite thumb_bit in *. split; [reflexivity |]. io_done.
    - mstep. muse (array_get_spec _ 0 e0) as x1 t1 H1; [exact E0 |].
      destruct H1 as [-> ->].
      mstep. muse (apb_write_spec env Hrel) as u3 t3 H3. destruct H3 as (P3 & I3).
      mstep. mstep.
      muse (apb_write_spec env Hrel) as u4 t4 H4. destruct H4 as (P4 & I4).
      privs. split; [reflexivity |]. io_done. }
  mstep. eapply returns_conseq; [exact Hcmp |]. cbv beta. intros u1 t1 (P1 & I1).
  mstep. muse (cortexa_regs_write_internal_spec env Hrel) as u2 t2 H2.
  { rewrite P1. exact Hwf. }
  destruct H2 as (P2 & I2).
  mstep. muse (apb_write_spec env Hrel) as u3 t3 H3. destruct H3 as (P3 & I3).
  mstep. muse (apb_read_spec env Hrel) as dscr t4 H4. destruct H4 as (P4 & _ & I4).
  mstep. muse (apb_write_spec env Hrel) as u5 t5 H5. destruct H5 as (P5 & I5).
  muse restart_loop_spec as res t6 H6. destruct H6 as (polls & P6 & I6 & L6 & End6).
  exists dscr, polls. privs. conjs; auto.
  unfold resume_calls, dscr_resume. io_chain.
  match goal with H : io _ _ _ _ _ |- _ => eapply io_eq; [exact H | |] end;
    rewrite <- ?app_assoc; reflexivity.
Qed.

End Resume.

Lemma answered_never_restarts env evs : forall h,
  never_restarts env -> answered env h evs ->
  Forall (fun w => Z.testbit w 1 = false) (words_read evs).
Proof.
  induction evs as [| [c rp] evs IH]; intros h Hnever A; [constructor |].
  destruct A as [E A]. specialize (IH _ Hnever A).
  unfold words_read in *. simpl.
  destruct c; try exact IH. destruct rnw, reg; try exact IH.
  destruct rp as [v |]; [| exact IH]. constructor; [| exact IH].
  destruct (Hnever h val) as (v' & Ev & Hv). rewrite Ev in E. injection E as <-.
  exact Hv.
Qed.

Lemma written_to_restart b reg k cs :
  0 <= reg < 2 ^ 30 ->
  written_to b reg (restart_calls b k ++ cs)
  = (if reg =? DBGDRCR then replicate k (Z.lor DBGDRCR_CSE DBGDRCR_RRQ) else [])
    ++ written_to b reg cs.
Proof.
  intros H1. unfold restart_calls. induction k as [| k IH].
  - destruct (reg =? DBGDRCR); reflexivity.
  - cbn [replicate concat]. rewrite <- !app_assoc.
    rewrite written_to_write by (auto; vm_compute; split; congruence).
    rewrite written_to_read, IH. rewrite (Z.eqb_sym DBGDRCR reg).
    destruct (reg =? DBGDRCR); reflexivity.
Qed.

Lemma dscr_resume_bits step dscr n :
  0 <= n ->
  Z.testbit (dscr_resume step dscr) n
  = if n =? 13 then false else if n =? 11 then step else Z.testbit dscr n.
Proof.
  intros Hn. unfold dscr_resume.
  change DBGDSCR_INTDIS with (2 ^ 11). change DBGDSCR_ITREN with (2 ^ 13).
  rewrite Z.land_spec, Z.lnot_spec, Z.pow2_bits_eqb by lia.
  rewrite (Z.eqb_sym n 13), (Z.eqb_sym n 11).
  destruct step.
  - rewrite Z.lor_spec, Z.pow2_bits_eqb by lia.
    destruct (13 =? n) eqn:E13, (11 =? n) eqn:E11, (Z.testbit dscr n); try reflexivity.
  - rewrite Z.land_spec, Z.lnot_spec, Z.pow2_bits_eqb by lia.
    destruct (13 =? n) eqn:E13, (11 =? n) eqn:E11, (Z.testbit dscr n); try reflexivity.
Qed.

Lemma land_lor_1_lnot_3 addr : Z.land (Z.lor addr 1) (Z.lnot 3) = Z.land addr (Z.lnot 3).
Proof.
  apply Z.bits_inj'. intros n Hn.
  rewrite !Z.land_spec, Z.lor_spec, Z.lnot_spec, testbit_1 by lia.
  destruct (Z.eqb_spec n 0) as [-> | Hne]; [| rewrite orb_false_r; reflexivity].
  rewrite !andb_false_r. reflexivity.
Qed.

Lemma bp_bas_values addr len :
  bp_bas addr len
  = if len =? 4 then 0x1e0 else if Z.testbit addr 1 then 0x180 else 0x60.
Proof.
  unfold bp_bas. change 2 with (Z.shiftl 1 1). rewrite land_bit_eqb by lia.
  rewrite negb_involutive. reflexivity.
Qed.

Section ResumeClaims.

Variable env : environment.
Hypothesis Hrel : reliable env.

(** X4.  In a state of the shape the probe sets up, [cortexa_halt_resume]
    programs the comparator 0, writes the register cache back, invalidates
    the instruction cache, reads DBGDSCR and writes it back with ITREN
    (bit 13) cleared, INTDIS (bit 11) set for a step and cleared otherwise,
    and every other bit as read.  It then writes CSE | RRQ to DBGDRCR and
    reads DBGDSCR, again and again until a read shows RESTARTED (bit 1):
    followed for [fuel] rounds, it returns after the first round whose read
    shows RESTARTED, and is still running when none of the [fuel] reads
    does.  The loop has no timeout: with a core that never shows RESTARTED
    the routine has not returned after any number of rounds.  The driver's
    state is left as it was. *)
Theorem resume_repeats_the_restart_request_until_restarted fuel step t :
  priv_wf (priv t) ->
  exists res t' dscr polls,
    cortexa_halt_resume env fuel step t = (Done res, t') /\
    priv t' = priv t /\
    io env (trace t) (trace t')
       (resume_calls (priv t) step (resume_bvr step (priv t)) (resume_bcr step (priv t))
          dscr (length polls))
       (dscr :: polls) /\
    (length polls <= fuel)%nat /\
    (res = Some tt ->
       exists ps w, polls = ps ++ [w] /\
         Forall (fun x => Z.testbit x 1 = false) ps /\ Z.testbit w 1 = true) /\
    (res = None ->
       length polls = fuel /\ Forall (fun x => Z.testbit x 1 = false) polls) /\
    written_to (base (priv t)) DBGDRCR
       (resume_calls (priv t) step (resume_bvr step (priv t)) (resume_bcr step (priv t))
          dscr (length polls))
    = replicate (length polls) (Z.lor DBGDRCR_CSE DBGDRCR_RRQ) /\
    written_to (base (priv t)) DBGDSCR
       (resume_calls (priv t) step (resume_bvr step (priv t)) (resume_bcr step (priv t))
          dscr (length polls))
    = [dscr_resume step dscr] /\
    (forall n, 0 <= n ->
       Z.testbit (dscr_resume step dscr) n
       = if n =? 13 then false else if n =? 11 then step else Z.testbit dscr n) /\
    (never_restarts env -> res = None).
Proof.
  intros Hwf.
  destruct (cortexa_halt_resume_spec env Hrel fuel step t Hwf)
    as (res & t' & E & dscr & polls & P & I & L & End).
  exists res, t', dscr, polls.
  split; [exact E |]. split; [exact P |]. split; [exact I |]. split; [exact L |].
  split; [intros ->; exact End |]. split; [intros ->; exact End |].
  split; [| split; [| split]].
  - unfold resume_calls.
    rewrite !written_to_write_ne by (vm_compute; try split; congruence).
    rewrite written_to_restore_ne by (vm_compute; try split; congruence).
    rewrite !written_to_write_ne by (vm_compute; try split; congruence).
    rewrite written_to_read.
    rewrite !written_to_write_ne by (vm_compute; try split; congruence).
    rewrite <- (app_nil_r (restart_calls _ _)).
    rewrite written_to_restart by (vm_compute; split; congruence).
    apply app_nil_r.
  - unfold resume_calls.
    rewrite !written_to_write_ne by (vm_compute; try split; congruence).
    rewrite written_to_restore_ne by (vm_compute; try split; congruence).
    rewrite !written_to_write_ne by (vm_compute; try split; congruence).
    rewrite written_to_read.
    rewrite written_to_write_eq by (vm_compute; split; congruence).
    rewrite <- (app_nil_r (restart_calls _ _)).
    rewrite written_to_restart by (vm_compute; split; congruence).
    reflexivity.
  - intros n Hn. apply dscr_resume_bits. exact Hn.
  - intros Hnever. destruct res as [[] |]; [| reflexivity]. exfalso.
    destruct End as (ps & w & -> & _ & Bw).
    destruct I as (evs & _ & _ & W & A).
    pose proof (answered_never_restarts env evs _ Hnever A) as F.
    rewrite W in F. inversion F as [| ? ? _ F1]. subst.
    apply Forall_app in F1 as [_ F1]. inversion F1. congruence.
Qed.

End ResumeClaims.

Section ComparatorClaims.

Variable env : environment.
Hypothesis Hrel : reliable env.

(** X5.  A single step ([step] true) programs the comparator 0 as a
    mismatch breakpoint on the instruction at the PC of the cache:
    DBGBVR[0] gets [pc & ~3] and DBGBCR[0] the mismatch type, the enable bit
    and a byte-address select that covers the whole word in ARM state (bit
    5 of the cached CPSR clear) and, in Thumb state, the half word that bit
    1 of the PC picks.  The breakpoint table and [bpc0] are not touched, so
    what the table holds for slot 0 is what a later resume without step
    writes to the comparator. *)
Theorem single_step_arms_a_mismatch_breakpoint_at_the_pc fuel t pc :
  priv_wf (priv t) -> r (reg_cache (priv t)) !! 15%nat = Some pc ->
  exists res t' dscr polls bcr,
    cortexa_halt_resume env fuel true t = (Done res, t') /\
    io env (trace t) (trace t')
       (resume_calls (priv t) true (Z.land pc (Z.lnot 3)) bcr dscr (length polls))
       (dscr :: polls) /\
    bcr = (if Z.testbit (cpsr (reg_cache (priv t))) 5
           then if Z.testbit pc 1 then 0x400181 else 0x400061
           else 0x4001e1) /\
    Z.testbit (dscr_resume true dscr) 11 = true /\
    hw_breakpoint (priv t') = hw_breakpoint (priv t) /\
    bpc0 (priv t') = bpc0 (priv t) /\
    resume_bvr false (priv t') = resume_bvr false (priv t) /\
    resume_bcr false (priv t') = resume_bcr false (priv t).
Proof.
  intros Hwf Epc.
  destruct (cortexa_halt_resume_spec env Hrel fuel true t Hwf)
    as (res & t' & E & dscr & polls & P & I & L & End).
  exists res, t', dscr, polls, (resume_bcr true (priv t)).
  split; [exact E |].
  split.
  { unfold resume_bvr in I. rewrite (nth_lookup_Z _ _ _ Epc) in I. exact I. }
  split.
  { unfold resume_bcr. rewrite (nth_lookup_Z _ _ _ Epc), bp_bas_values.
    destruct (Z.testbit (cpsr (reg_cache (priv t))) 5); [| reflexivity].
    change (2 =? 4) with false. cbv iota.
    destruct (Z.testbit pc 1); reflexivity. }
  split; [rewrite dscr_resume_bits by lia; reflexivity |].
  rewrite P. auto.
Qed.

(** X6.  A breakpoint that [cortexa_set_hw_bp] put in slot 0 survives a
    single step: the set writes [addr & ~3] to DBGBVR[0] and
    [bp_bas(addr, len) | EN] to DBGBCR[0]; the step overwrites the
    comparator with its mismatch breakpoint; the next resume without step
    writes the two values of the set to DBGBVR[0] and DBGBCR[0] again. *)
Theorem resume_rewrites_the_breakpoint_of_slot0_after_a_step fuel fuel' addr len t :
  priv_wf (priv t) -> first_slot slot_free (priv t) 0 ->
  exists t1 res2 t2 res3 t3 dscr2 polls2 dscr3 polls3,
    cortexa_set_hw_bp env addr len t = (Done 0, t1) /\
    io env (trace t) (trace t1)
       (apb_write_calls (base (priv t)) (DBGBVR 0) (Z.land addr (Z.lnot 3))
        ++ apb_write_calls (base (priv t)) (DBGBCR 0) (Z.lor (bp_bas addr len) DBGBCR_EN))
       [] /\
    cortexa_halt_resume env fuel true t1 = (Done res2, t2) /\
    io env (trace t1) (trace t2)
       (resume_calls (priv t1) true (resume_bvr true (priv t1))
          (resume_bcr true (priv t1)) dscr2 (length polls2))
       (dscr2 :: polls2) /\
    cortexa_halt_resume env fuel' false t2 = (Done res3, t3) /\
    io env (trace t2) (trace t3)
       (resume_calls (priv t1) false (Z.land addr (Z.lnot 3))
          (Z.lor (bp_bas addr len) DBGBCR_EN) dscr3 (length polls3))
       (dscr3 :: polls3).
Proof.
  intros Hwf Hfirst.
  destruct (cortexa_set_hw_bp_spec env Hrel addr len t O Hfirst)
    as (x & t1 & E1 & -> & P1 & I1).
  assert (priv_wf (priv t1)) as Hwf1 by (rewrite P1; apply priv_wf_bp_set; exact Hwf).
  destruct (cortexa_halt_resume_spec env Hrel fuel true t1 Hwf1)
    as (res2 & t2 & E2 & dscr2 & polls2 & P2 & I2 & _).
  assert (priv_wf (priv t2)) as Hwf2 by (rewrite P2; exact Hwf1).
  destruct (cortexa_halt_resume_spec env Hrel fuel' false t2 Hwf2)
    as (res3 & t3 & E3 & dscr3 & polls3 & P3 & I3 & _).
  exists t1, res2, t2, res3, t3, dscr2, polls2, dscr3, polls3.
  split; [exact E1 |]. split; [exact I1 |]. split; [exact E2 |]. split; [exact I2 |].
  split; [exact E3 |].
  rewrite P2 in I3.
  assert (resume_bvr false (priv t1) = Z.land addr (Z.lnot 3)) as Hbvr.
  { unfold resume_bvr. rewrite P1, hw_breakpoint_bp_set.
    destruct Hfirst as (_ & (e & E & _) & _).
    rewrite nth_lookup, list_lookup_insert_eq by (eapply lookup_lt_Some; exact E).
    apply land_lor_1_lnot_3. }
  assert (resume_bcr false (priv t1) = Z.lor (bp_bas addr len) DBGBCR_EN) as Hbcr.
  { unfold resume_bcr. rewrite P1. reflexivity. }
  rewrite Hbvr, Hbcr in I3. exact I3.
Qed.

End ComparatorClaims.

Section Reattach.

Variable env : environment.
Hypothesis Hrel : reliable env.

Lemma cortexa_attach_shape t :
  priv_wf (priv t) ->
  returns (cortexa_attach env) t (fun b t' =>
    priv_wf (priv t') /\
    bpc0 (priv t') = bpc0 (priv t) /\
    hw_breakpoint_max (priv t') = hw_breakpoint_max (priv t) /\
    base (priv t') = base (priv t) /\
    ahb (priv t') = ahb (priv t) /\
    (b = true -> hw_breakpoint (priv t') = cleared_table (priv t))).
Proof.
  intros Hwf. unfold cortexa_attach, target_check_error, target_halt_request.
  mstep. muse (cortexa_check_error_spec env Hrel) as err t1 H1.
  destruct H1 as (_ & P1 & _).
  mstep. muse (apb_read_spec env Hrel) as dscr0 t2 H2. destruct H2 as (P2 & _ & _).
  mstep. muse (apb_write_spec env Hrel) as u3 t3 H3. destruct H3 as (P3 & _).
  mstep. muse (cortexa_halt_request_spec env Hrel) as u4 t4 H4. destruct H4 as (P4 & _).
  assert (priv t4 = set_mmu_fault false (priv t)) as P4'
    by (rewrite P4, P3, P2, P1; reflexivity).
  mstep. muse (attach_poll_spec env Hrel 9) as tries t5 H5.
  { rewrite P4'. exact Hwf. }
  destruct H5 as (k & e & ws & fin & _ & _ & _ & _ & _ & Htries & _ & Hwf5 & P5 & _).
  rewrite P4' in P5.
  rewrite Htries. destruct (gave_up e) eqn:G.
  - mstep. rewrite P5. split; [rewrite <- P5; exact Hwf5 |]. simpl_priv.
    repeat split; try reflexivity. discriminate.
  - mstep. mstep. mstep.
    muse (clear_breakpoints_spec env Hrel) as u6 t6 H6.
    { destruct Hwf5 as (W1 & W2 & _). lia. }
    destruct H6 as (_ & P6).
    mstep. muse (platform_srst_set_val_spec env Hrel) as u7 t7 H7. destruct H7 as (P7 & _).
    mstep. rewrite P7, P6. simpl_priv.
    destruct Hwf5 as (W1 & W2 & W3 & W4).
    split.
    { unfold priv_wf. simpl_priv.
      rewrite length_app, length_replicate, length_drop. repeat split; auto; lia. }
    rewrite P5. simpl_priv. repeat split; try reflexivity.
Qed.

(** X7.  [cortexa_attach] and [cortexa_detach] zero the table entry and
    DBGBCR[i] of every comparator but leave [bpc0], the copy of the control
    word of slot 0, as it was.  So when a breakpoint was set in slot 0 and
    the target is then detached, or attached again, every slot of the table
    is free and yet the next resume without step writes 0 to DBGBVR[0] and
    the old control word, enable bit set, to DBGBCR[0]: the comparator 0 is
    armed again, at address 0. *)
Theorem resume_after_reattach_arms_comparator0_from_stale_bpc0 fuel addr len t :
  priv_wf (priv t) -> first_slot slot_free (priv t) 0 ->
  exists t1,
    cortexa_set_hw_bp env addr len t = (Done 0, t1) /\
    bpc0 (priv t1) = Z.lor (bp_bas addr len) DBGBCR_EN /\
    Z.testbit (Z.lor (bp_bas addr len) DBGBCR_EN) 0 = true /\
    (exists t2 res t3 dscr polls,
       cortexa_detach env t1 = (Done tt, t2) /\
       free_slots (priv t2) = hw_breakpoint_max (priv t2) /\
       cortexa_halt_resume env fuel false t2 = (Done res, t3) /\
       io env (trace t2) (trace t3)
          (resume_calls (priv t2) false 0 (Z.lor (bp_bas addr len) DBGBCR_EN)
             dscr (length polls))
          (dscr :: polls)) /\
    (exists b t2,
       cortexa_attach env t1 = (Done b, t2) /\
       (b = true ->
        free_slots (priv t2) = hw_breakpoint_max (priv t2) /\
        exists res t3 dscr polls,
          cortexa_halt_resume env fuel false t2 = (Done res, t3) /\
          io env (trace t2) (trace t3)
             (resume_calls (priv t2) false 0 (Z.lor (bp_bas addr len) DBGBCR_EN)
                dscr (length polls))
             (dscr :: polls))).
Proof.
  intros Hwf Hfirst.
  destruct (cortexa_set_hw_bp_spec env Hrel addr len t O Hfirst)
    as (x & t1 & E1 & -> & P1 & _).
  assert (priv_wf (priv t1)) as Hwf1 by (rewrite P1; apply priv_wf_bp_set; exact Hwf).
  assert (bpc0 (priv t1) = Z.lor (bp_bas addr len) DBGBCR_EN) as Hbpc
    by (rewrite P1; reflexivity).
  pose proof Hwf1 as (W1 & W2 & W3 & W4).
  exists t1. split; [exact E1 |]. split; [exact Hbpc |].
  split; [rewrite Z.lor_spec; apply orb_true_r |].
  assert (forall t2, priv_wf (priv t2) ->
            hw_breakpoint (priv t2) = cleared_table (priv t1) ->
            hw_breakpoint_max (priv t2) = hw_breakpoint_max (priv t1) ->
            bpc0 (priv t2) = bpc0 (priv t1) ->
            free_slots (priv t2) = hw_breakpoint_max (priv t2) /\
            exists res t3 dscr polls,
              cortexa_halt_resume env fuel false t2 = (Done res, t3) /\
              io env (trace t2) (trace t3)
                 (resume_calls (priv t2) false 0 (Z.lor (bp_bas addr len) DBGBCR_EN)
                    dscr (length polls))
                 (dscr :: polls)) as Hresume.
  { intros t2 Hwf2 Htab Hmax Hb. split.
    - unfold free_slots. rewrite Htab, Hmax. unfold cleared_table.
      rewrite take_app_length' by (rewrite length_replicate; reflexivity).
      generalize (hw_breakpoint_max (priv t1)) as n. clear.
      induction n as [| n IH]; [reflexivity | simpl; rewrite IH; reflexivity].
    - destruct (cortexa_halt_resume_spec env Hrel fuel false t2 Hwf2)
        as (res & t3 & E3 & dscr & polls & _ & I3 & _).
      exists res, t3, dscr, polls. split; [exact E3 |].
      assert (resume_bvr false (priv t2) = 0) as Hbvr.
      { unfold resume_bvr. rewrite Htab. unfold cleared_table.
        destruct (hw_breakpoint_max (priv t1)) as [| n]; [lia |]. reflexivity. }
      assert (resume_bcr false (priv t2) = Z.lor (bp_bas addr len) DBGBCR_EN) as Hbcr
        by (unfold resume_bcr; rewrite Hb; exact Hbpc).
      rewrite Hbvr, Hbcr in I3. exact I3. }
  split.
  - destruct (cortexa_detach_spec env Hrel t1 Hwf1) as ([] & t2 & E2 & dscr & _ & P2).
    assert (priv_wf (priv t2)) as Hwf2.
    { rewrite P2. unfold priv_wf, cleared_table. simpl_priv.
      rewrite length_app, length_replicate, length_drop. repeat split; auto; lia. }
    destruct (Hresume t2 Hwf2) as (Hfree & res & t3 & d3 & polls & E3 & I3);
      try (rewrite P2; reflexivity).
    exists t2, res, t3, d3, polls. auto.
  - destruct (cortexa_attach_shape t1 Hwf1)
      as (b & t2 & E2 & Hwf2 & Hb & Hmax & _ & _ & Htab).
    exists b, t2. split; [exact E2 |]. intros ->.
    apply Hresume; auto.
Qed.

End Reattach.

(** ** Memory write through the APB *)

Lemma abort_bit s : negb (Z.land s DBGDSCR_SDABORT_L =? 0) = Z.testbit s 6.
Proof.
  unfold DBGDSCR_SDABORT_L. rewrite land_bit_eqb by lia. apply negb_involutive.
Qed.

Section SlowWrite.

Variable env : environment.
Hypothesis Hrel : reliable env.

Lemma write_bytes_spec n : forall src t,
  (n <= length src)%nat ->
  returns (write_bytes env n src) t (fun _ t' => exists (abort : bool) (ss : list Z),
    (length ss <= n)%nat /\
    io env (trace t) (trace t')
       (flat_map (write_byte_calls (base (priv t))) (take (length ss) src)
        ++ (if abort then apb_write_calls (base (priv t)) DBGDRCR DBGDRCR_CSE else []))
       ss /\
    bytes_end n abort ss /\
    priv t' = if abort then set_mmu_fault true (priv t) else priv t).
Proof.
  induction n as [| n IH]; intros src t Hlen; cbn [write_bytes].
  - mstep. exists false, []. split; [simpl; lia |]. split; [apply io_refl |].
    split; [simpl; auto | reflexivity].
  - destruct src as [| x src]; [simpl in Hlen; lia |].
    mstep. muse (write_gpreg_spec env Hrel) as u1 t1 H1. destruct H1 as (P1 & I1).
    mstep. muse (apb_write_spec env Hrel) as u2 t2 H2. destruct H2 as (P2 & I2).
    mstep. muse (apb_read_spec env Hrel) as s t3 H3. destruct H3 as (P3 & _ & I3).
    rewrite abort_bit. destruct (Z.testbit s 6) eqn:B.
    + mstep. muse (apb_write_spec env Hrel) as u4 t4 H4. destruct H4 as (P4 & I4).
      mstep. exists true, [s]. privs. simpl_priv.
      split; [simpl; lia |]. split.
      * cbn [length take flat_map]. unfold write_byte_calls. io_chain.
        match goal with H : io _ _ _ _ _ |- _ => eapply io_eq; [exact H | |] end;
          rewrite <- ?app_assoc; reflexivity.
      * split; [exists [], s; auto | reflexivity].
    + muse IH as u4 t4 H4; [simpl in Hlen; lia |].
      destruct H4 as (abort & ss & L4 & I4 & End4 & P4).
      exists abort, (s :: ss). privs.
      split; [simpl; lia |]. split.
      * cbn [length take flat_map]. unfold write_byte_calls at 1. io_chain.
        match goal with H : io _ _ _ _ _ |- _ => eapply io_eq; [exact H | |] end;
          rewrite <- ?app_assoc; reflexivity.
      * split; [| reflexivity]. destruct abort; simpl in *.
        -- destruct End4 as (ss' & s' & -> & F & Bs). exists (s :: ss'), s'. auto.
        -- destruct End4 as [L F]. auto.
Qed.

Lemma cortexa_slow_mem_write_bytes_spec dest src len t :
  0 <= len -> (Z.to_nat len <= length src)%nat ->
  returns (cortexa_slow_mem_write_bytes env dest src len) t (fun _ t' =>
    exists (abort : bool) (ss : list Z),
      (length ss <= Z.to_nat len)%nat /\
      io env (trace t) (trace t')
         (slow_mem_write_bytes_calls (base (priv t)) dest (take (length ss) src) abort)
         ss /\
      bytes_end (Z.to_nat len) abort ss /\
      priv t' = if abort then set_mmu_fault true (priv t) else priv t).
Proof.
  intros Hlen Hsrc. unfold cortexa_slow_mem_write_bytes.
  mstep. muse (write_gpreg_spec env Hrel) as u1 t1 H1. destruct H1 as (P1 & I1).
  muse write_bytes_spec as u2 t2 H2; [exact Hsrc |].
  destruct H2 as (abort & ss & L2 & I2 & End2 & P2).
  exists abort, ss. privs. split; [exact L2 |]. split; [| auto].
  unfold slow_mem_write_bytes_calls. io_chain.
  match goal with H : io _ _ _ _ _ |- _ => exact H end.
Qed.

Lemma write_words_spec n : forall src t,
  (4 * n <= length src)%nat ->
  returns (write_words env n src) t (fun _ t' =>
    priv t' = priv t /\
    io env (trace t) (trace t')
       (flat_map (apb_write_calls (base (priv t)) DBGDTRRX) (array_of_repr 4 n src)) []).
Proof.
  induction n as [| n IH]; intros src t Hlen; cbn [write_words array_of_repr].
  - mstep. split; [reflexivity | apply io_refl].
  - destruct (decide (4 <= length src)%nat) as [_ | ?]; [| lia].
    mstep. muse (apb_write_spec env Hrel) as u1 t1 H1. destruct H1 as (P1 & I1).
    muse IH as u2 t2 H2; [rewrite length_drop; lia |]. destruct H2 as (P2 & I2).
    privs. split; [reflexivity |]. cbn [flat_map]. io_chain.
    match goal with H : io _ _ _ _ _ |- _ => exact H end.
Qed.

Lemma cortexa_slow_mem_write_words_spec dest src len t :
  0 < len -> Z.land dest 3 = 0 -> Z.land len 3 = 0 ->
  (Z.to_nat len <= length src)%nat ->
  returns (cortexa_slow_mem_write env dest src len) t (fun _ t' =>
    exists dscr0 dscr1,
      io env (trace t) (trace t')
         (slow_mem_write_calls (base (priv t)) dest
            (array_of_repr 4 (Z.to_nat (len / 4)) src) dscr0 (Z.testbit dscr1 6))
         [dscr0; dscr1] /\
      priv t' = if Z.testbit dscr1 6 then set_mmu_fault true (priv t) else priv t).
Proof.
  intros Hlen Hd Hl Hsrc. unfold cortexa_slow_mem_write.
  destruct (Z.eqb_spec len 0) as [-> | _]; [lia |].
  rewrite Hd, Hl. cbn [Z.eqb negb orb].
  mstep. muse (write_gpreg_spec env Hrel) as u1 t1 H1. destruct H1 as (P1 & I1).
  mstep. muse (apb_read_spec env Hrel) as dscr0 t2 H2. destruct H2 as (P2 & _ & I2).
  mstep. muse (apb_write_spec env Hrel) as u3 t3 H3. destruct H3 as (P3 & I3).
  mstep. muse (apb_write_spec env Hrel) as u4 t4 H4. destruct H4 as (P4 & I4).
  mstep. muse write_words_spec as u5 t5 H5.
  { assert (4 * (len / 4) <= len) by (Z.div_mod_to_equations; lia). lia. }
  destruct H5 as (P5 & I5).
  mstep. muse (apb_write_spec env Hrel) as u6 t6 H6. destruct H6 as (P6 & I6).
  mstep. muse (apb_read_spec env Hrel) as dscr1 t7 H7. destruct H7 as (P7 & _ & I7).
  rewrite abort_bit. privs. destruct (Z.testbit dscr1 6) eqn:B.
  - mstep. muse (apb_write_spec env Hrel) as u8 t8 H8. destruct H8 as (P8 & I8).
    mstep. exists dscr0, dscr1. rewrite B. privs. simpl_priv. split; [| reflexivity].
    unfold slow_mem_write_calls, dscr_mode. io_chain.
    match goal with H : io _ _ _ _ _ |- _ => eapply io_eq; [exact H | |] end;
      rewrite <- ?app_assoc; reflexivity.
  - mstep. exists dscr0, dscr1. rewrite B. split; [| exact P7].
    unfold slow_mem_write_calls, dscr_mode. io_chain.
    match goal with H : io _ _ _ _ _ |- _ => eapply io_eq; [exact H | |] end;
      rewrite <- ?app_assoc, ?app_nil_r; reflexivity.
Qed.

End SlowWrite.

Lemma written_to_if_abort b reg (abort : bool) :
  0 <= reg < 2 ^ 30 -> reg <> DBGDRCR ->
  written_to b reg (if abort then apb_write_calls b DBGDRCR DBGDRCR_CSE else []) = [].
Proof.
  intros H1 H2. destruct abort; [| reflexivity].
  rewrite <- (app_nil_r (apb_write_calls _ _ _)).
  rewrite written_to_write_ne; auto. vm_compute; split; congruence.
Qed.

Lemma written_dtrrx_bytes b dest sent abort :
  written_to b DBGDTRRX (slow_mem_write_bytes_calls b dest sent abort)
  = dest :: map Z_of_byte sent.
Proof.
  unfold slow_mem_write_bytes_calls.
  rewrite written_dtrrx_write_gpreg. f_equal.
  rewrite (written_to_flat_map b DBGDTRRX _ (fun x => [Z_of_byte x])).
  2: { intros x cs'. unfold write_byte_calls. rewrite <- !app_assoc.
       rewrite written_dtrrx_write_gpreg, written_dtrrx_instr, written_to_read.
       reflexivity. }
  rewrite written_to_if_abort by (vm_compute; try split; congruence).
  rewrite app_nil_r. apply flat_map_singleton.
Qed.

Lemma written_dscr_bytes b dest sent abort :
  written_to b DBGDSCR (slow_mem_write_bytes_calls b dest sent abort) = [].
Proof.
  unfold slow_mem_write_bytes_calls.
  rewrite written_to_write_gpreg_ne by (vm_compute; try split; congruence).
  rewrite (written_to_flat_map b DBGDSCR _ (fun _ => [])).
  2: { intros x cs'. unfold write_byte_calls. rewrite <- !app_assoc.
       rewrite written_to_write_gpreg_ne by (vm_compute; try split; congruence).
       rewrite written_to_write_ne by (vm_compute; try split; congruence).
       rewrite written_to_read. reflexivity. }
  rewrite written_to_if_abort by (vm_compute; try split; congruence).
  rewrite app_nil_r. clear. induction sent; auto.
Qed.

Lemma written_dtrrx_words b dest ws dscr0 abort :
  written_to b DBGDTRRX (slow_mem_write_calls b dest ws dscr0 abort) = dest :: ws.
Proof.
  unfold slow_mem_write_calls.
  rewrite written_dtrrx_write_gpreg. f_equal.
  rewrite written_to_read.
  rewrite written_to_write_ne by (vm_compute; try split; congruence).
  rewrite written_dtrrx_instr.
  rewrite (written_to_flat_map b DBGDTRRX _ (fun w => [w])).
  2: { intros w cs'. rewrite written_to_write_eq by (vm_compute; split; congruence).
       reflexivity. }
  rewrite written_to_write_ne by (vm_compute; try split; congruence).
  rewrite written_to_read.
  rewrite written_to_if_abort by (vm_compute; try split; congruence).
  rewrite app_nil_r, flat_map_singleton. apply map_id.
Qed.

Section SlowWriteClaims.

Variable env : environment.
Hypothesis Hrel : reliable env.

(** X8.  [cortexa_slow_mem_write] of [len] > 0 bytes with [dest] or [len]
    not a multiple of 4 goes byte by byte: it sets r13 to [dest], and for
    each byte in turn loads the byte into r0, issues the [strb] and reads
    DBGDSCR.  It never touches the DCC mode.  The first status word with
    the sticky abort (bit 6) set ends the routine: CSE is written to
    DBGDRCR, [mmu_fault] is set and the bytes after the faulting one are
    not sent.  With no abort all [len] bytes are sent and the state is as
    it was. *)
Theorem slow_mem_write_of_unaligned_data_stops_at_the_first_abort dest src len t :
  0 < len -> Z.land dest 3 <> 0 \/ Z.land len 3 <> 0 ->
  (Z.to_nat len <= length src)%nat ->
  exists t' (abort : bool) (ss : list Z),
    cortexa_slow_mem_write env dest src len t = (Done tt, t') /\
    (length ss <= Z.to_nat len)%nat /\
    io env (trace t) (trace t')
       (slow_mem_write_bytes_calls (base (priv t)) dest (take (length ss) src) abort)
       ss /\
    written_to (base (priv t)) DBGDTRRX
       (slow_mem_write_bytes_calls (base (priv t)) dest (take (length ss) src) abort)
    = dest :: map Z_of_byte (take (length ss) src) /\
    written_to (base (priv t)) DBGDSCR
       (slow_mem_write_bytes_calls (base (priv t)) dest (take (length ss) src) abort)
    = [] /\
    (abort = false ->
       length ss = Z.to_nat len /\
       Forall (fun x => Z.testbit x 6 = false) ss /\ priv t' = priv t) /\
    (abort = true ->
       (exists ss' s, ss = ss' ++ [s] /\
          Forall (fun x => Z.testbit x 6 = false) ss' /\ Z.testbit s 6 = true) /\
       priv t' = set_mmu_fault true (priv t)).
Proof.
  intros Hlen Hun Hsrc.
  destruct (cortexa_slow_mem_write_bytes_spec env Hrel dest src len t ltac:(lia) Hsrc)
    as ([] & t' & E & abort & ss & L & I & End & P).
  exists t', abort, ss. split.
  { unfold cortexa_slow_mem_write.
    destruct (Z.eqb_spec len 0) as [-> | _]; [lia |].
    destruct (Z.eqb_spec (Z.land dest 3) 0) as [Hd | _];
      destruct (Z.eqb_spec (Z.land len 3) 0) as [Hl | _]; cbn [negb orb];
      try exact E.
    destruct Hun; contradiction. }
  split; [exact L |]. split; [exact I |].
  split; [apply written_dtrrx_bytes |]. split; [apply written_dscr_bytes |].
  split; intros ->; simpl in *; [destruct End; auto | auto].
Qed.

(** X9.  [cortexa_slow_mem_write] of no bytes makes no transaction at all.
    Of [len] > 0 bytes, with [dest] and [len] multiples of 4, it sets r0 to
    [dest], switches DBGDSCR to fast mode, issues the [stc] and writes
    [len / 4] words to DBGDTRRX: the words whose little-endian bytes are the
    first [len] bytes of [src], in order.  Every word is sent whatever
    happens on the way: the sticky abort is looked at once, after DBGDSCR
    was written back in stall mode, and when it is set CSE is written to
    DBGDRCR and [mmu_fault] is set. *)
Theorem slow_mem_write_of_aligned_data_sends_words dest src len t :
  cortexa_slow_mem_write env dest src 0 t = (Done tt, t) /\
  (0 < len -> Z.land dest 3 = 0 -> Z.land len 3 = 0 ->
   (Z.to_nat len <= length src)%nat ->
   exists t' ws dscr0 dscr1,
     cortexa_slow_mem_write env dest src len t = (Done tt, t') /\
     ws = array_of_repr 4 (Z.to_nat (len / 4)) src /\
     Z.of_nat (length ws) = len / 4 /\
     array_repr 4 ws = take (Z.to_nat len) src /\
     io env (trace t) (trace t')
        (slow_mem_write_calls (base (priv t)) dest ws dscr0 (Z.testbit dscr1 6))
        [dscr0; dscr1] /\
     written_to (base (priv t)) DBGDTRRX
        (slow_mem_write_calls (base (priv t)) dest ws dscr0 (Z.testbit dscr1 6))
     = dest :: ws /\
     priv t' = if Z.testbit dscr1 6 then set_mmu_fault true (priv t) else priv t).
Proof.
  split; [reflexivity |]. intros Hlen Hd Hl Hsrc.
  destruct (cortexa_slow_mem_write_words_spec env Hrel dest src len t Hlen Hd Hl Hsrc)
    as ([] & t' & E & dscr0 & dscr1 & I & P).
  assert (len = 4 * (len / 4)) as Hmul.
  { change 3 with (Z.ones 2) in Hl. rewrite Z.land_ones in Hl by lia.
    change (2 ^ 2) with 4 in Hl. Z.div_mod_to_equations. lia. }
  exists t', (array_of_repr 4 (Z.to_nat (len / 4)) src), dscr0, dscr1.
  split; [exact E |]. split; [reflexivity |].
  split; [rewrite length_array_of_repr; lia |].
  split.
  { rewrite array_repr_of_repr by lia. f_equal. lia. }
  split; [exact I |]. split; [apply written_dtrrx_words | exact P].
Qed.

End SlowWriteClaims.

(** ** Memory access through the AHB: the cache maintenance loop *)

Lemma testbit_31 n : 0 <= n -> Z.testbit 31 n = (n <? 5).
Proof.
  intros Hn. change 31 with (Z.ones 5).
  destruct (Z.ltb_spec n 5).
  - apply Z.ones_spec_low. lia.
  - apply Z.ones_spec_high. lia.
Qed.

Lemma line_of_div a : line_of a = 32 * (a / 32).
Proof.
  unfold line_of. change (CACHE_LINE_LENGTH - 1) with 31.
  assert (Z.land a (Z.lnot 31) = Z.shiftl (Z.shiftr a 5) 5) as ->.
  { apply Z.bits_inj'. intros n Hn.
    rewrite Z.land_spec, Z.lnot_spec, testbit_31 by lia.
    destruct (Z.ltb_spec n 5).
    - rewrite Z.shiftl_spec_low by lia. apply andb_false_r.
    - rewrite Z.shiftl_spec, Z.shiftr_spec by lia.
      rewrite andb_true_r. f_equal. lia. }
  rewrite Z.shiftl_mul_pow2, Z.shiftr_div_pow2 by lia.
  change (2 ^ 5) with 32. lia.
Qed.

Lemma line_of_range a : 0 <= a < 2 ^ 32 -> 0 <= line_of a <= a /\ a < line_of a + 32.
Proof. intros Ha. rewrite line_of_div. Z.div_mod_to_equations. lia. Qed.

Lemma clean_calls_S b op start n :
  clean_calls b op start (S n)
  = line_calls b op (u32 start) ++ clean_calls b op (u32 (start + CACHE_LINE_LENGTH)) n.
Proof.
  unfold clean_calls. cbn [seq flat_map]. f_equal.
  - rewrite Z.mul_0_r, Z.add_0_r. reflexivity.
  - rewrite <- seq_shift, flat_map_concat_map, map_map, <- flat_map_concat_map.
    apply flat_map_ext. intros j. f_equal. unfold u32.
    rewrite Z.add_mod_idemp_l by lia. f_equal. lia.
Qed.

Section CleanLines.

Variable env : environment.
Hypothesis Hrel : reliable env.

(** While the loop has rounds left, it makes them. *)
Lemma clean_lines_rounds op last n : forall fuel cl t,
  is_u32 cl ->
  (forall j, (j < n)%nat -> u32 (cl + CACHE_LINE_LENGTH * Z.of_nat j) < last) ->
  exists t',
    io env (trace t) (trace t') (clean_calls (base (priv t)) op cl n) [] /\
    priv t' = priv t /\
    clean_lines env (n + fuel) op cl last t
    = clean_lines env fuel op (u32 (cl + CACHE_LINE_LENGTH * Z.of_nat n)) last t'.
Proof.
  induction n as [| n IH]; intros fuel cl t Hcl Hlt.
  - exists t. split; [apply io_refl |]. split; [reflexivity |].
    rewrite Z.mul_0_r, Z.add_0_r, (u32_id cl Hcl). reflexivity.
  - pose proof (Hlt O ltac:(lia)) as H0.
    rewrite Z.mul_0_r, Z.add_0_r, (u32_id cl Hcl) in H0.
    destruct (Z.ltb_spec cl last) as [_ | ?]; [| lia].
    destruct (write_gpreg_spec env Hrel 0 cl t) as ([] & t1 & E1 & P1 & I1).
    destruct (apb_write_spec env Hrel DBGITR (Z.lor MCR op) t1) as ([] & t2 & E2 & P2 & I2).
    destruct (IH fuel (u32 (cl + CACHE_LINE_LENGTH)) t2) as (t' & I' & P' & E').
    { apply u32_range. }
    { intros j Hj. specialize (Hlt (S j) ltac:(lia)). unfold u32 in *.
      rewrite Z.add_mod_idemp_l by lia.
      replace (cl + CACHE_LINE_LENGTH + CACHE_LINE_LENGTH * Z.of_nat j)
        with (cl + CACHE_LINE_LENGTH * Z.of_nat (S j)) by lia.
      exact Hlt. }
    exists t'. privs. split; [| split; [congruence |]].
    + rewrite clean_calls_S, (u32_id cl Hcl). unfold line_calls. io_chain.
      match goal with H : io _ _ _ _ _ |- _ => eapply io_eq; [exact H | |] end;
        rewrite <- ?app_assoc; reflexivity.
    + cbn [Nat.add clean_lines].
      destruct (Z.ltb_spec cl last) as [_ | ?]; [| lia].
      unfold bind at 1. rewrite E1. unfold bind at 1. rewrite E2.
      rewrite E'. f_equal. unfold u32. rewrite Z.add_mod_idemp_l by lia.
      f_equal. lia.
Qed.

End CleanLines.

Section AhbAccess.

Variable env : environment.
Hypothesis Hrel : reliable env.

Lemma va_to_pa_spec va t :
  returns (va_to_pa env va) t (fun pa t' => exists par,
    io env (trace t) (trace t') (va_to_pa_calls (base (priv t)) va) [par] /\
    pa = Z.lor (Z.land par (Z.lnot 0xfff)) (Z.land va 0xfff) /\
    priv t' = if Z.testbit par 0 then set_mmu_fault true (priv t) else priv t).
Proof.
  unfold va_to_pa.
  mstep. muse (write_gpreg_spec env Hrel) as u1 t1 H1. destruct H1 as [P1 I1].
  mstep. muse (apb_write_spec env Hrel) as u2 t2 H2. destruct H2 as [P2 I2].
  mstep. muse (apb_write_spec env Hrel) as u3 t3 H3. destruct H3 as [P3 I3].
  mstep. muse (read_gpreg_spec env Hrel) as par t4 H4. destruct H4 as (P4 & U4 & I4).
  privs. rewrite land_1_eqb, negb_involutive.
  mstep. destruct (Z.testbit par 0) eqn:B.
  - mstep. mstep. exists par. rewrite B. simpl. rewrite P4.
    split; [unfold va_to_pa_calls; io_done | auto].
  - mstep. mstep. exists par. rewrite B. split; [unfold va_to_pa_calls; io_done | auto].
Qed.

(** The part that [cortexa_mem_read] and [cortexa_mem_write] share: the
    loop, the translation and the access port, before the transfer [k]. *)
Lemma ahb_access_after_clean {A} op a last (k : ADIv5_AP_t -> Z -> M (option A))
    fuel n t ap :
  is_u32 (line_of a) ->
  (forall j, (j < n)%nat -> u32 (line_of a + CACHE_LINE_LENGTH * Z.of_nat j) < last) ->
  last <= u32 (line_of a + CACHE_LINE_LENGTH * Z.of_nat n) ->
  ahb (priv t) = Some ap ->
  exists t1 par,
    io env (trace t) (trace t1)
       (clean_calls (base (priv t)) op (line_of a) n ++ va_to_pa_calls (base (priv t)) a)
       [par] /\
    priv t1 = (if Z.testbit par 0 then set_mmu_fault true (priv t) else priv t) /\
    (c <- clean_lines env (n + fuel) op (line_of a) last ;;
     match c with
     | None => ret None
     | Some _ =>
         p <- get_priv ;;
         pa <- va_to_pa env a ;;
         ap' <- deref_ahb (ahb p) ;;
         k ap' pa
     end) t
    = k ap (Z.lor (Z.land par (Z.lnot 0xfff)) (Z.land a 0xfff)) t1.
Proof.
  intros Hcl Hlt Hge Hahb.
  destruct (clean_lines_rounds env Hrel op last n fuel (line_of a) t Hcl Hlt)
    as (t0 & I0 & P0 & E0).
  destruct (va_to_pa_spec a t0) as (pa & t1 & E1 & par & I1 & -> & P1).
  exists t1, par. rewrite P0 in *. split; [| split; [exact P1 |]].
  - io_chain. match goal with H : io _ _ _ _ _ |- _ => exact H end.
  - unfold bind at 1. rewrite E0.
    assert (forall f, clean_lines env f op
                        (u32 (line_of a + CACHE_LINE_LENGTH * Z.of_nat n)) last t0
                      = (Done (Some tt), t0)) as ->.
    { intros f. destruct f; cbn [clean_lines];
        destruct (Z.ltb_spec (u32 (line_of a + CACHE_LINE_LENGTH * Z.of_nat n)) last);
        try lia; reflexivity. }
    unfold bind at 1, get_priv. unfold bind at 1. rewrite E1.
    rewrite P0, Hahb. reflexivity.
Qed.

Lemma ahb_access_never_starts {A} op a last (k : ADIv5_AP_t -> Z -> M (option A))
    fuel t :
  is_u32 (line_of a) -> 2 ^ 32 - 32 < last ->
  exists t',
    io env (trace t) (trace t') (clean_calls (base (priv t)) op (line_of a) fuel) [] /\
    priv t' = priv t /\
    (c <- clean_lines env fuel op (line_of a) last ;;
     match c with
     | None => ret None
     | Some _ =>
         p <- get_priv ;;
         pa <- va_to_pa env a ;;
         ap' <- deref_ahb (ahb p) ;;
         k ap' pa
     end) t
    = (Done None, t').
Proof.
  intros Hcl Hlast.
  assert (forall j, u32 (line_of a + CACHE_LINE_LENGTH * Z.of_nat j) < last) as Hlt.
  { intros j. rewrite line_of_div. unfold u32, CACHE_LINE_LENGTH.
    Z.div_mod_to_equations. lia. }
  destruct (clean_lines_rounds env Hrel op last fuel O (line_of a) t Hcl
              ltac:(intros; apply Hlt)) as (t' & I & P & E).
  exists t'. split; [exact I |]. split; [exact P |].
  rewrite Nat.add_0_r in E. unfold bind. rewrite E. cbn [clean_lines].
  destruct (Z.ltb_spec (u32 (line_of a + CACHE_LINE_LENGTH * Z.of_nat fuel)) last) as [_ | H];
    [reflexivity |].
  specialize (Hlt fuel). lia.
Qed.

End AhbAccess.

Lemma lines_upto_bounds start last :
  0 <= start -> start <= last + 31 ->
  (forall j, (j < lines_upto start last)%nat ->
     start + CACHE_LINE_LENGTH * Z.of_nat j < last) /\
  last <= start + CACHE_LINE_LENGTH * Z.of_nat (lines_upto start last)
       < last + CACHE_LINE_LENGTH.
Proof.
  intros H0 H1. unfold lines_upto, CACHE_LINE_LENGTH. change (8 * 4 - 1) with 31.
  change (8 * 4) with 32.
  assert (0 <= (last - start + 31) / 32) as Hq by (apply Z.div_pos; lia).
  split.
  - intros j Hj. apply Nat2Z.inj_lt in Hj. rewrite Z2Nat.id in Hj by exact Hq.
    Z.div_mod_to_equations. lia.
  - rewrite Z2Nat.id by exact Hq. Z.div_mod_to_equations. lia.
Qed.

Section AhbClaims.

Variable env : environment.
Hypothesis Hrel : reliable env.

Variable rd : ADIv5_AP_t -> Z -> Z -> M (list byte).
Variable wr : ADIv5_AP_t -> Z -> list byte -> Z -> M unit.

(** X10.  With 32-bit [size_t] and a range that ends at or below
    0xffffffe0, [cortexa_mem_read] and [cortexa_mem_write] clean (and, for
    the write, invalidate) by MVA the cache lines from the line of [src]
    up to the last one that starts below [src + len], once each and in
    increasing order.  For [len > 0] these are the lines that overlap
    [src, src + len) and no other: every address of the range lies in one
    of them, and each of them holds an address of the range.  For
    [len = 0] no line overlaps the empty range, yet the line of [src] is
    cleaned when [src] is not at the start of a line, and none when it is.
    The routines then translate [src] and pass the range to the block
    transfer of the AHB at the physical address
    [(par & ~0xfff) | (src & 0xfff)].  The transfer is made also when the
    translation faulted (bit 0 of [par]): [mmu_fault] is set and nothing
    else differs. *)
Theorem ahb_access_cleans_each_line_of_the_range fuel src len data t ap :
  0 <= src -> 0 <= len -> src + len <= 2 ^ 32 - 32 ->
  ahb (priv t) = Some ap ->
  (lines_upto (line_of src) (src + len) <= fuel)%nat ->
  (forall a, src <= a < src + len ->
     exists j, (j < lines_upto (line_of src) (src + len))%nat /\
       line_of src + CACHE_LINE_LENGTH * Z.of_nat j <= a
       < line_of src + CACHE_LINE_LENGTH * Z.of_nat j + CACHE_LINE_LENGTH) /\
  (forall j, (j < lines_upto (line_of src) (src + len))%nat ->
     line_of src + CACHE_LINE_LENGTH * Z.of_nat j < src + len) /\
  (0 < len ->
     forall j, (j < lines_upto (line_of src) (src + len))%nat ->
       exists a, src <= a < src + len /\
         line_of src + CACHE_LINE_LENGTH * Z.of_nat j <= a
         < line_of src + CACHE_LINE_LENGTH * Z.of_nat j + CACHE_LINE_LENGTH) /\
  (len = 0 ->
     lines_upto (line_of src) (src + len)
     = if line_of src =? src then 0%nat else 1%nat) /\
  (exists t1 par,
     io env (trace t) (trace t1)
        (clean_calls (base (priv t)) DCCMVAC (line_of src)
           (lines_upto (line_of src) (src + len))
         ++ va_to_pa_calls (base (priv t)) src)
        [par] /\
     priv t1 = (if Z.testbit par 0 then set_mmu_fault true (priv t) else priv t) /\
     cortexa_mem_read env rd fuel src len t
     = (dest <- rd ap (Z.lor (Z.land par (Z.lnot 0xfff)) (Z.land src 0xfff)) len ;;
        ret (Some dest)) t1) /\
  (exists t1 par,
     io env (trace t) (trace t1)
        (clean_calls (base (priv t)) DCCIMVAC (line_of src)
           (lines_upto (line_of src) (src + len))
         ++ va_to_pa_calls (base (priv t)) src)
        [par] /\
     priv t1 = (if Z.testbit par 0 then set_mmu_fault true (priv t) else priv t) /\
     cortexa_mem_write env wr fuel src data len t
     = (wr ap (Z.lor (Z.land par (Z.lnot 0xfff)) (Z.land src 0xfff)) data len ;;;
        ret (Some tt)) t1).
Proof.
  intros Hsrc Hlen Hend Hahb Hfuel.
  pose proof (line_of_range src ltac:(lia)) as (L0 & L1).
  pose proof (lines_upto_bounds (line_of src) (src + len) ltac:(lia) ltac:(lia))
    as (Hlt & Hge).
  set (n := lines_upto (line_of src) (src + len)) in *.
  assert (size_t (src + len) = src + len) as Hsz
    by (unfold size_t; apply Z.mod_small; lia).
  assert (is_u32 (line_of src)) as Hcl by (unfold is_u32; lia).
  assert (forall j, (j < n)%nat ->
            u32 (line_of src + CACHE_LINE_LENGTH * Z.of_nat j) < src + len) as Hlt'.
  { intros j Hj. specialize (Hlt j Hj). rewrite u32_id; [exact Hlt |].
    unfold is_u32, CACHE_LINE_LENGTH in *. lia. }
  assert (src + len <= u32 (line_of src + CACHE_LINE_LENGTH * Z.of_nat n)) as Hge'.
  { rewrite u32_id; [lia |]. unfold is_u32, CACHE_LINE_LENGTH in *. lia. }
  replace fuel with (n + (fuel - n))%nat by lia.
  split; [| split; [exact Hlt | split; [| split; [| split]]]].
  - intros a Ha.
    exists (Z.to_nat ((a - line_of src) / 32)).
    assert (0 <= (a - line_of src) / 32) as Hq by (apply Z.div_pos; lia).
    rewrite Z2Nat.id by exact Hq. unfold CACHE_LINE_LENGTH in *. split.
    + apply Nat2Z.inj_lt. rewrite Z2Nat.id by exact Hq.
      Z.div_mod_to_equations. lia.
    + Z.div_mod_to_equations. lia.
  - intros Hpos j Hj. specialize (Hlt j Hj). unfold CACHE_LINE_LENGTH in *.
    destruct (Z.le_gt_cases src (line_of src + 8 * 4 * Z.of_nat j)) as [H | H].
    + exists (line_of src + 8 * 4 * Z.of_nat j). lia.
    + exists src. lia.
  - intros ->. subst n. unfold lines_upto, CACHE_LINE_LENGTH.
    destruct (Z.eqb_spec (line_of src) src) as [H | H].
    + replace ((src + 0 - line_of src + (8 * 4 - 1)) / (8 * 4)) with 0;
        [reflexivity |].
      Z.div_mod_to_equations. lia.
    + replace ((src + 0 - line_of src + (8 * 4 - 1)) / (8 * 4)) with 1;
        [reflexivity |].
      Z.div_mod_to_equations. lia.
  - unfold cortexa_mem_read. fold (line_of src). rewrite Hsz.
    apply (ahb_access_after_clean env Hrel DCCMVAC src (src + len)
             (fun ap' pa => dest <- rd ap' pa len ;; ret (Some dest)));
      assumption.
  - unfold cortexa_mem_write. fold (line_of src). rewrite Hsz.
    apply (ahb_access_after_clean env Hrel DCCIMVAC src (src + len)
             (fun ap' pa => wr ap' pa data len ;;; ret (Some tt)));
      assumption.
Qed.

(** X11.  With 32-bit [size_t], a range that ends above 0xffffffe0 and
    below 2^32, one that ends in the last cache line of the address space,
    is never transferred: the line address of the loop wraps around to 0
    before it can reach the end of the range, so however many rounds the
    loop is followed for, [cortexa_mem_read] and [cortexa_mem_write] are
    still cleaning cache lines, and neither the translation nor the
    transfer is reached. *)
Theorem ahb_access_to_the_last_cache_line_never_ends src len data t :
  0 <= src -> 0 <= len -> 2 ^ 32 - 32 < src + len < 2 ^ 32 ->
  forall fuel,
    (exists t',
       cortexa_mem_read env rd fuel src len t = (Done None, t') /\
       priv t' = priv t /\
       io env (trace t) (trace t')
          (clean_calls (base (priv t)) DCCMVAC (line_of src) fuel) []) /\
    (exists t',
       cortexa_mem_write env wr fuel src data len t = (Done None, t') /\
       priv t' = priv t /\
       io env (trace t) (trace t')
          (clean_calls (base (priv t)) DCCIMVAC (line_of src) fuel) []).
Proof.
  intros Hsrc Hlen Hend fuel.
  pose proof (line_of_range src ltac:(lia)) as (L0 & L1).
  assert (size_t (src + len) = src + len) as Hsz
    by (unfold size_t; apply Z.mod_small; lia).
  assert (is_u32 (line_of src)) as Hcl by (unfold is_u32; lia).
  split.
  - destruct (ahb_access_never_starts env Hrel DCCMVAC src (src + len)
                (fun ap' pa => dest <- rd ap' pa len ;; ret (Some dest)) fuel t Hcl)
      as (t' & I & P & E); [lia |].
    exists t'. split; [| auto].
    unfold cortexa_mem_read. fold (line_of src). rewrite Hsz. exact E.
  - destruct (ahb_access_never_starts env Hrel DCCIMVAC src (src + len)
                (fun ap' pa => wr ap' pa data len ;;; ret (Some tt)) fuel t Hcl)
      as (t' & I & P & E); [lia |].
    exists t'. split; [| auto].
    unfold cortexa_mem_write. fold (line_of src). rewrite Hsz. exact E.
Qed.

(** X12.  With 32-bit [size_t], when [src + len] is 2^32 or more, so that
    the range runs to the top of the address space, the end of the range
    wraps around in the loop condition: when the wrapped end is not above
    the line of [src], as it is for every range that ends exactly at 2^32,
    no cache line is cleaned at all, and the translation and the transfer
    of the [len] bytes are made all the same. *)
Theorem ahb_access_up_to_the_top_of_memory_cleans_no_line fuel src len data t ap :
  0 <= src < 2 ^ 32 -> 0 <= len < 2 ^ 32 ->
  2 ^ 32 <= src + len <= 2 ^ 32 + line_of src ->
  ahb (priv t) = Some ap ->
  (exists t1 par,
     io env (trace t) (trace t1) (va_to_pa_calls (base (priv t)) src) [par] /\
     cortexa_mem_read env rd fuel src len t
     = (dest <- rd ap (Z.lor (Z.land par (Z.lnot 0xfff)) (Z.land src 0xfff)) len ;;
        ret (Some dest)) t1) /\
  (exists t1 par,
     io env (trace t) (trace t1) (va_to_pa_calls (base (priv t)) src) [par] /\
     cortexa_mem_write env wr fuel src data len t
     = (wr ap (Z.lor (Z.land par (Z.lnot 0xfff)) (Z.land src 0xfff)) data len ;;;
        ret (Some tt)) t1).
Proof.
  intros Hsrc Hlen Hend Hahb.
  pose proof (line_of_range src ltac:(lia)) as (L0 & L1).
  assert (size_t (src + len) = src + len - 2 ^ 32) as Hsz.
  { unfold size_t. Z.div_mod_to_equations. lia. }
  assert (is_u32 (line_of src)) as Hcl by (unfold is_u32; lia).
  assert (src + len - 2 ^ 32 <= u32 (line_of src + CACHE_LINE_LENGTH * Z.of_nat 0))
    as Hge.
  { rewrite Z.mul_0_r, Z.add_0_r, u32_id by exact Hcl. lia. }
  split.
  - destruct (ahb_access_after_clean env Hrel DCCMVAC src (src + len - 2 ^ 32)
                (fun ap' pa => dest <- rd ap' pa len ;; ret (Some dest)) fuel O t ap Hcl
                ltac:(intros; lia) Hge Hahb) as (t1 & par & I & _ & E).
    exists t1, par. split; [exact I |].
    unfold cortexa_mem_read. fold (line_of src). rewrite Hsz. exact E.
  - destruct (ahb_access_after_clean env Hrel DCCIMVAC src (src + len - 2 ^ 32)
                (fun ap' pa => wr ap' pa data len ;;; ret (Some tt)) fuel O t ap Hcl
                ltac:(intros; lia) Hge Hahb) as (t1 & par & I & _ & E).
    exists t1, par. split; [exact I |].
    unfold cortexa_mem_write. fold (line_of src). rewrite Hsz. exact E.
Qed.

End AhbClaims.

(** ** A link that fails *)

Lemma extcall_ret env c v t :
  env (trace t) c = Ret v -> extcall env c t = (Done v, answered_with t c v).
Proof. intros E. unfold extcall. rewrite E. reflexivity. Qed.

(** X13.  [cortexa_halt_wait] keeps an exception of its read of DBGDSCR to
    itself, whichever of the three transactions of the read raised it.  A
    timeout counts as a core that is still running: the result is 0 and no
    further call is made.  An error is a lost target: the target list is
    freed, "TARGET LOST." goes to the morse console, and the result is
    SIGLOST (29), again with no further transaction on the link. *)
Theorem halt_wait_turns_a_failed_status_read_into_a_result env t e t1 :
  apb_read env DBGDSCR t = (Throw e, t1) ->
  match e with
  | EXCEPTION_TIMEOUT => cortexa_halt_wait env t = (Done 0, t1)
  | EXCEPTION_ERROR =>
      forall v1 v2,
        env (trace t1) TARGET_LIST_FREE = Ret v1 ->
        env (trace t1 ++ [(TARGET_LIST_FREE, Ret v1)]) (MORSE "TARGET LOST." true)
        = Ret v2 ->
        cortexa_halt_wait env t
        = (Done SIGLOST,
           answered_with (answered_with t1 TARGET_LIST_FREE v1)
                         (MORSE "TARGET LOST." true) v2)
  end.
Proof.
  intros E. destruct e.
  - intros v1 v2 E1 E2.
    unfold cortexa_halt_wait, bind at 1, TRY_CATCH. rewrite E. cbn [EXCEPTION_ALL].
    unfold target_list_free, morse, bind.
    rewrite (extcall_ret env _ v1 t1 E1). unfold ret at 1.
    rewrite (extcall_ret env _ v2 (answered_with t1 TARGET_LIST_FREE v1) E2).
    reflexivity.
  - unfold cortexa_halt_wait, bind at 1, TRY_CATCH. rewrite E. reflexivity.
Qed.

(** X14.  [cortexa_halt_request] keeps a timeout of its write of the halt
    request to itself: it tells gdb "Timeout sending interrupt, is target
    in WFI?" and returns.  An error of the link is not caught: the routine
    ends in the exception, and nothing is written to the gdb console. *)
Theorem halt_request_swallows_a_timeout_and_passes_an_error env t e t1 :
  apb_write env DBGDRCR DBGDRCR_HRQ t = (Throw e, t1) ->
  match e with
  | EXCEPTION_TIMEOUT =>
      forall v,
        env (trace t1)
            (GDB_OUT ("Timeout sending interrupt, is target in WFI?" ++ newline)%string)
        = Ret v ->
        cortexa_halt_request env t
        = (Done tt,
           answered_with t1
             (GDB_OUT ("Timeout sending interrupt, is target in WFI?" ++ newline)%string)
             v)
  | EXCEPTION_ERROR => cortexa_halt_request env t = (Throw EXCEPTION_ERROR, t1)
  end.
Proof.
  intros E. destruct e.
  - unfold cortexa_halt_request, bind, TRY_CATCH. rewrite E. reflexivity.
  - intros v Ev.
    unfold cortexa_halt_request, bind at 1, TRY_CATCH. rewrite E.
    cbn [only_EXCEPTION_TIMEOUT]. unfold gdb_out, bind.
    rewrite (extcall_ret env _ v t1 Ev). reflexivity.
Qed.

(** X15.  [cortexa_attach] does not catch the exceptions of its own
    accesses: when the link fails at the first transaction of its read of
    DBGDSCR, a timeout included, the routine ends in that exception at
    once.  It does not return false and it makes no poll; only [mmu_fault]
    was cleared on the way. *)
Theorem attach_ends_in_the_exception_of_its_first_read env t b t1 e :
  cortexa_check_error env t = (Done b, t1) ->
  env (trace t1) (AP_WRITE APB_AP ADIV5_AP_TAR (u32 (base (priv t1) + 4 * DBGDSCR)))
  = Raise e ->
  cortexa_attach env t
  = (Throw e,
     mk_target (priv t1)
       (trace t1 ++ [(AP_WRITE APB_AP ADIV5_AP_TAR (u32 (base (priv t1) + 4 * DBGDSCR)),
                      Raise e)])) /\
  mmu_fault (priv t1) = false /\
  no_srst_get (calls (trace t1 ++
    [(AP_WRITE APB_AP ADIV5_AP_TAR (u32 (base (priv t1) + 4 * DBGDSCR)), Raise e)]))
  = no_srst_get (calls (trace t1)).
Proof.
  intros E1 E2. split; [| split].
  - unfold cortexa_attach, target_check_error, bind at 1. rewrite E1.
    unfold bind at 1, apb_read, bind at 1, get_priv.
    unfold bind at 1, adiv5_ap_write, bind at 1, extcall. rewrite E2. reflexivity.
  - unfold cortexa_check_error, bind, get_priv, modify_priv, ret in E1.
    destruct (ahb (priv t)); cbn in E1.
    + unfold adiv5_dp_error, bind, extcall in E1.
      destruct (env (trace t) DP_ERROR); cbn in E1; [| discriminate].
      injection E1 as _ <-. reflexivity.
    + injection E1 as _ <-. reflexivity.
  - rewrite calls_app, no_srst_get_app. cbn. apply andb_true_r.
Qed.

(** X16.  The polling loop of [cortexa_attach] takes a lost link for a
    halted core.  When a poll finds the reset line not asserted and the
    read of DBGDSCR in [cortexa_halt_wait] then ends in an error,
    [cortexa_halt_wait] frees the target list and returns SIGLOST, which is
    not 0: the loop ends with [tries] as it was, not 0, just as after a
    halt, so [cortexa_attach] does not take its [return false].  A timeout
    of that read counts as a core still running: the last poll ends the
    loop with [tries] 0, and any other poll is followed by the delay and
    the next poll. *)
Theorem attach_poll_takes_a_lost_link_for_a_halt env n t e t1 :
  env (trace t) SRST_GET_VAL = Ret 0 ->
  apb_read env DBGDSCR (answered_with t SRST_GET_VAL 0) = (Throw e, t1) ->
  match e with
  | EXCEPTION_ERROR =>
      forall v1 v2,
        env (trace t1) TARGET_LIST_FREE = Ret v1 ->
        env (trace t1 ++ [(TARGET_LIST_FREE, Ret v1)]) (MORSE "TARGET LOST." true)
        = Ret v2 ->
        attach_poll env (S n) t
        = (Done (S n),
           answered_with (answered_with t1 TARGET_LIST_FREE v1)
                         (MORSE "TARGET LOST." true) v2)
  | EXCEPTION_TIMEOUT =>
      attach_poll env 1 t = (Done O, t1) /\
      attach_poll env (S (S n)) t
      = (platform_delay env 200 ;;; attach_poll env (S n)) t1
  end.
Proof.
  intros E0 E1.
  assert (platform_srst_get_val env t = (Done false, answered_with t SRST_GET_VAL 0)) as Es.
  { unfold platform_srst_get_val, bind. rewrite (extcall_ret env _ 0 t E0). reflexivity. }
  destruct e.
  - intros v1 v2 Ev1 Ev2.
    cbn [attach_poll]. unfold bind at 1. rewrite Es. cbv iota.
    unfold bind at 1, target_halt_wait, cortexa_halt_wait, bind at 1, TRY_CATCH.
    rewrite E1. cbn [EXCEPTION_ALL]. unfold target_list_free, morse, bind.
    rewrite (extcall_ret env _ v1 t1 Ev1). unfold ret at 1.
    rewrite (extcall_ret env _ v2 (answered_with t1 TARGET_LIST_FREE v1) Ev2).
    reflexivity.
  - assert (cortexa_halt_wait env (answered_with t SRST_GET_VAL 0) = (Done 0, t1)) as Hw.
    { unfold cortexa_halt_wait, bind at 1, TRY_CATCH. rewrite E1. reflexivity. }
    split.
    + cbn [attach_poll]. unfold bind at 1. rewrite Es. cbv iota.
      unfold bind at 1, target_halt_wait. rewrite Hw. reflexivity.
    + cbn [attach_poll]. unfold bind at 1. rewrite Es. cbv iota.
      unfold bind at 1, target_halt_wait. rewrite Hw. reflexivity.
Qed.

(** ** The signal of a halt *)

Lemma moe_after_itren dscr :
  Z.land (Z.lor dscr DBGDSCR_ITREN) DBGDSCR_MOE_MASK = Z.land dscr DBGDSCR_MOE_MASK.
Proof.
  apply Z.bits_inj'. intros n Hn.
  change DBGDSCR_ITREN with (2 ^ 13). change DBGDSCR_MOE_MASK with 60.
  rewrite !Z.land_spec, Z.lor_spec, Z.pow2_bits_eqb by lia.
  destruct (Z.eqb_spec 13 n) as [<- | _]; [| rewrite orb_false_r; reflexivity].
  rewrite !andb_false_r. reflexivity.
Qed.

Lemma moe_field dscr :
  Z.land dscr DBGDSCR_MOE_MASK = Z.shiftl (Z.land (Z.shiftr dscr 2) 15) 2.
Proof.
  apply Z.bits_inj'. intros n Hn. change DBGDSCR_MOE_MASK with (Z.shiftl 15 2).
  rewrite Z.land_spec, !Z.shiftl_spec by lia.
  destruct (Z.ltb_spec n 2).
  - rewrite !(Z.testbit_neg_r _ (n - 2)) by lia. apply andb_false_r.
  - rewrite Z.land_spec, Z.shiftr_spec by lia.
    replace (n - 2 + 2) with n by lia. reflexivity.
Qed.

Lemma written_to_read_gpreg_ne b reg regno cs :
  0 <= reg < 2 ^ 30 -> reg <> DBGITR ->
  written_to b reg (read_gpreg_calls b regno ++ cs) = written_to b reg cs.
Proof.
  intros H1 H2. unfold read_gpreg_calls. rewrite <- app_assoc.
  rewrite written_to_write_ne; [apply written_to_read | exact H1 | | congruence].
  vm_compute; split; congruence.
Qed.

Lemma flat_map_nil {A B} (l : list A) : flat_map (fun _ : A => @nil B) l = [].
Proof. induction l; auto. Qed.

Lemma written_to_snapshot_ne b reg cs :
  0 <= reg < 2 ^ 30 -> reg <> DBGITR ->
  written_to b reg (snapshot_calls b ++ cs) = written_to b reg cs.
Proof.
  intros H1 H2.
  assert (forall v cs', written_to b reg (apb_write_calls b DBGITR v ++ cs')
                        = written_to b reg cs') as Hitr.
  { intros v cs'. apply written_to_write_ne; auto. vm_compute; split; congruence. }
  unfold snapshot_calls. rewrite <- !app_assoc.
  rewrite (written_to_flat_map b reg _ (fun _ => [])).
  2: { intros i cs'. rewrite written_to_read_gpreg_ne by assumption. reflexivity. }
  rewrite !Hitr, !written_to_read_gpreg_ne by assumption.
  rewrite !Hitr, !written_to_read_gpreg_ne by assumption.
  rewrite !Hitr, !written_to_read_gpreg_ne by assumption.
  rewrite (written_to_flat_map b reg _ (fun _ => [])).
  2: { intros i cs'. unfold snapshot_vfp_calls. rewrite <- !app_assoc.
       rewrite Hitr, !written_to_read_gpreg_ne by assumption. reflexivity. }
  rewrite !flat_map_nil. reflexivity.
Qed.

Section HaltSignal.

Variable env : environment.
Hypothesis Hrel : reliable env.

(** X17.  With a transport that raises no exception, [cortexa_halt_wait]
    reads DBGDSCR once.  With HALTED (bit 0) clear it returns 0 and does
    nothing else.  With HALTED set it writes DBGDSCR back with ITREN set and
    nothing else changed, takes the snapshot of the registers, and returns
    SIGINT (2) when the method-of-entry field (bits 2 to 5) is 0, a halt
    request, and SIGTRAP (5) for every other method of entry. *)
Theorem halt_wait_tells_a_halt_request_from_a_trap t :
  priv_wf (priv t) ->
  exists sig t' dscr rest,
    cortexa_halt_wait env t = (Done sig, t') /\
    io env (trace t) (trace t') (halt_wait_calls (base (priv t)) dscr) (dscr :: rest) /\
    sig = (if Z.testbit dscr 0
           then if Z.land (Z.shiftr dscr 2) 0xf =? 0 then SIGINT else SIGTRAP
           else 0) /\
    written_to (base (priv t)) DBGDSCR (halt_wait_calls (base (priv t)) dscr)
    = (if Z.testbit dscr 0 then [Z.lor dscr DBGDSCR_ITREN] else []) /\
    (forall n, 0 <= n ->
       Z.testbit (Z.lor dscr DBGDSCR_ITREN) n = Z.testbit dscr n || (n =? 13)) /\
    (Z.testbit dscr 0 = false -> rest = [] /\ priv t' = priv t) /\
    (Z.testbit dscr 0 = true -> length rest = 50%nat).
Proof.
  intros Hwf.
  assert (returns (cortexa_halt_wait env) t (fun sig t' => exists dscr rest,
    io env (trace t) (trace t') (halt_wait_calls (base (priv t)) dscr) (dscr :: rest) /\
    sig = (if Z.testbit dscr 0
           then if Z.land dscr DBGDSCR_MOE_MASK =? 0 then SIGINT else SIGTRAP
           else 0) /\
    (Z.testbit dscr 0 = false -> rest = [] /\ priv t' = priv t) /\
    (Z.testbit dscr 0 = true -> length rest = 50%nat))) as R.
  { unfold cortexa_halt_wait. mstep. mstep.
    muse (apb_read_spec env Hrel) as dscr t1 H1. destruct H1 as (P1 & _ & I1).
    cbv iota beta. change DBGDSCR_HALTED with 1. rewrite land_1_eqb.
    destruct (Z.testbit dscr 0) eqn:B; cbn [negb].
    - mstep. muse (apb_write_spec env Hrel) as u2 t2 H2. destruct H2 as (P2 & I2).
      mstep. muse (cortexa_regs_read_internal_spec env Hrel) as u3 t3 H3.
      { rewrite P2, P1. exact Hwf. }
      destruct H3 as (regs & pc & c & f & ws & Hregs & Hws & _ & I3 & P3).
      mstep. privs. exists dscr, (regs ++ [pc; c; f] ++ ws). rewrite B.
      split.
      + unfold halt_wait_calls. rewrite B. io_chain.
        match goal with H : io _ _ _ _ _ |- _ => eapply io_eq; [exact H | |] end;
          rewrite <- ?app_assoc; reflexivity.
      + rewrite moe_after_itren. change DBGDSCR_MOE_HALT_REQ with 0.
        split; [reflexivity |]. split; [discriminate |].
        intros _. rewrite !length_app, Hregs, Hws. reflexivity.
    - mstep. exists dscr, []. rewrite B, P1. split.
      + unfold halt_wait_calls. rewrite B, app_nil_r. exact I1.
      + split; [reflexivity |]. split; [auto | discriminate]. }
  destruct R as (sig & t' & E & dscr & rest & I & Hsig & Hrun & Hhalt).
  exists sig, t', dscr, rest.
  split; [exact E |]. split; [exact I |]. split.
  { rewrite Hsig. destruct (Z.testbit dscr 0); [| reflexivity].
    replace (Z.land dscr DBGDSCR_MOE_MASK =? 0) with (Z.land (Z.shiftr dscr 2) 15 =? 0);
      [reflexivity |].
    rewrite moe_field.
    destruct (Z.eqb_spec (Z.land (Z.shiftr dscr 2) 15) 0) as [-> | Hne].
    - reflexivity.
    - symmetry. apply Z.eqb_neq. rewrite Z.shiftl_eq_0_iff by lia. exact Hne. }
  split.
  { unfold halt_wait_calls. rewrite written_to_read.
    destruct (Z.testbit dscr 0); [| reflexivity].
    rewrite written_to_write_eq by (vm_compute; split; congruence).
    rewrite <- (app_nil_r (snapshot_calls _)).
    rewrite written_to_snapshot_ne by (vm_compute; try split; congruence).
    reflexivity. }
  split; [| split; assumption].
  intros n Hn. change DBGDSCR_ITREN with (2 ^ 13).
  rewrite Z.lor_spec, Z.pow2_bits_eqb by lia. rewrite (Z.eqb_sym n 13). reflexivity.
Qed.

End HaltSignal.

(** ** Probe: what it finds and what it holds *)

Section ProbeClaim.

Variable env : environment.
Hypothesis Hrel : reliable env.

Ltac answer_as v E :=
  match goal with
  | |- context [env ?h ?c] => destruct (Hrel h c) as [v E]; rewrite E; cbn [priv trace]
  end.

(** X18.  With a transport that raises no exception, [cortexa_probe]
    returns true and leaves a zeroed state with [base] the debug base it
    was given.  It registers the target, takes a reference on the APB, asks
    for the access port 0 and takes a reference on it; when the IDR of that
    port is not the IDR of an AHB ((idr & 0xfffe00f) != 0x4770001) it gives
    the reference back and [ahb] is NULL, otherwise the reference is kept
    and [ahb] is that port.  It then writes the APB's CSW once and reads
    DBGDIDR: [hw_breakpoint_max] is bits 24 to 27 of DBGDIDR plus one,
    between 1 and 16, and every slot is free. *)
Theorem probe_keeps_the_ahb_reference_only_for_an_ahb size_word apb_csw debug_base t :
  exists t' evs v_idr didr,
    cortexa_probe env size_word apb_csw debug_base t = (Done true, t') /\
    trace t' = trace t ++ evs /\ answered env (trace t) evs /\
    evs !! 2%nat = Some (NEW_AP 0, Ret v_idr) /\
    words_read evs = [didr] /\
    calls evs = probe_calls (is_ahb_idr (u32 v_idr)) (Z.lor apb_csw size_word) debug_base /\
    ahb (priv t') = (if is_ahb_idr (u32 v_idr) then Some AHB_AP else None) /\
    refs_held AHB_AP (calls evs) = (if is_ahb_idr (u32 v_idr) then 1 else 0) /\
    refs_held APB_AP (calls evs) = 1 /\
    hw_breakpoint_max (priv t') = Z.to_nat (Z.land (Z.shiftr didr 24) 15 + 1) /\
    (1 <= hw_breakpoint_max (priv t') <= 16)%nat /\
    free_slots (priv t') = hw_breakpoint_max (priv t') /\
    priv t' = set_hw_breakpoint_max (hw_breakpoint_max (priv t'))
                (set_base debug_base (set_ahb (ahb (priv t')) calloc_priv)).
Proof.
  unfold cortexa_probe, target_new, adiv5_ap_ref, adiv5_new_ap, adiv5_ap_unref,
    adiv5_ap_write, apb_read, adiv5_ap_write, adiv5_dp_low_access, get_priv,
    modify_priv, bind, ret, extcall, is_ahb_idr.
  cbn [priv trace].
  answer_as v1 E1. answer_as v2 E2. answer_as v3 E3. answer_as v4 E4.
  pose proof (land_15_range) as Hn.
  assert (forall n, (1 <= n <= 16)%nat ->
            length (List.filter slot_free (take n (replicate 16 0))) = n) as Hfree.
  { intros n Hmax. rewrite take_replicate, Nat.min_l by lia.
    clear. induction n as [| n IH]; [reflexivity | simpl; rewrite IH; reflexivity]. }
  destruct (Z.land (u32 v3) 268427279 =? 74907649) eqn:Hidr; cbn [priv trace].
  - answer_as v5 E5. cbn [base set_base set_ahb calloc_priv].
    answer_as v6 E6. answer_as v7 E7. answer_as v8 E8.
    eexists _, [_; _; _; _; _; _; _; _], v3, (u32 v8).
    rewrite Hidr. cbn [priv trace].
    split; [reflexivity |]. split; [rewrite <- !app_assoc; reflexivity |].
    split; [cbn [answered]; repeat split; assumption |].
    split; [reflexivity |]. split; [reflexivity |]. split; [reflexivity |].
    split; [reflexivity |]. split; [reflexivity |]. split; [reflexivity |].
    split; [reflexivity |].
    specialize (Hn (Z.shiftr (u32 v8) 24)).
    split; [cbn [priv hw_breakpoint_max set_hw_breakpoint_max]; lia |].
    split; [unfold free_slots;
            cbn [priv hw_breakpoint hw_breakpoint_max set_hw_breakpoint_max
                 set_base set_ahb calloc_priv];
            apply Hfree; lia |].
    reflexivity.
  - answer_as v5 E5. answer_as v6 E6. cbn [base set_base set_ahb calloc_priv].
    answer_as v7 E7. answer_as v8 E8. answer_as v9 E9.
    eexists _, [_; _; _; _; _; _; _; _; _], v3, (u32 v9).
    rewrite Hidr. cbn [priv trace].
    split; [reflexivity |]. split; [rewrite <- !app_assoc; reflexivity |].
    split; [cbn [answered]; repeat split; assumption |].
    split; [reflexivity |]. split; [reflexivity |]. split; [reflexivity |].
    split; [reflexivity |]. split; [reflexivity |]. split; [reflexivity |].
    split; [reflexivity |].
    specialize (Hn (Z.shiftr (u32 v9) 24)).
    split; [cbn [priv hw_breakpoint_max set_hw_breakpoint_max]; lia |].
    split; [unfold free_slots;
            cbn [priv hw_breakpoint hw_breakpoint_max set_hw_breakpoint_max
                 set_base set_ahb calloc_priv];
            apply Hfree; lia |].
    reflexivity.
Qed.

End ProbeClaim.

(** ** What a session of breakpoint requests keeps *)

Lemma lor_en_nonzero x : Z.lor x DBGBCR_EN <> 0.
Proof.
  intros E. assert (Z.testbit (Z.lor x DBGBCR_EN) 0 = false) as F
    by (rewrite E; apply Z.bits_0).
  rewrite Z.lor_spec in F. change (Z.testbit DBGBCR_EN 0) with true in F.
  rewrite orb_true_r in F. discriminate.
Qed.

Lemma lor_1_nonzero x : Z.lor x 1 <> 0.
Proof. apply (lor_en_nonzero x). Qed.

Lemma same_but_table_refl p : same_but_table p p.
Proof. repeat split. Qed.

Lemma same_but_table_trans p1 p2 p3 :
  same_but_table p1 p2 -> same_but_table p2 p3 -> same_but_table p1 p3.
Proof.
  intros (B1 & A1 & C1 & M1 & F1 & D1) (B2 & A2 & C2 & M2 & F2 & D2).
  rewrite M1 in D2. repeat split; congruence.
Qed.

Lemma same_but_table_bp_set p i addr len :
  (i < hw_breakpoint_max p)%nat -> same_but_table p (bp_set_priv i addr len p).
Proof.
  intros Hi. unfold same_but_table.
  rewrite hw_breakpoint_bp_set, hw_breakpoint_max_bp_set, drop_insert_lt by exact Hi.
  unfold bp_set_priv. destruct (decide (i = O)); repeat split.
Qed.

Lemma same_but_table_bp_clear p i :
  (i < hw_breakpoint_max p)%nat -> same_but_table p (bp_clear_priv i p).
Proof.
  intros Hi. unfold same_but_table.
  rewrite hw_breakpoint_bp_clear, hw_breakpoint_max_bp_clear, drop_insert_lt by exact Hi.
  unfold bp_clear_priv. destruct (decide (i = O)); repeat split.
Qed.

Lemma bpc0_in_step_bp_set p i addr len :
  (i < length (hw_breakpoint p))%nat ->
  bpc0_in_step p -> bpc0_in_step (bp_set_priv i addr len p).
Proof.
  intros Hi H. unfold bpc0_in_step in *. rewrite hw_breakpoint_bp_set.
  unfold bp_set_priv. destruct (decide (i = O)) as [-> | Hne]; simpl_priv.
  - rewrite nth_lookup, list_lookup_insert_eq by exact Hi. simpl.
    split; intros E; [destruct (lor_1_nonzero _ E) | destruct (lor_en_nonzero _ E)].
  - rewrite nth_lookup, list_lookup_insert_ne by congruence.
    rewrite <- nth_lookup. exact H.
Qed.

Lemma bpc0_in_step_bp_clear p i :
  (i < length (hw_breakpoint p))%nat ->
  bpc0_in_step p -> bpc0_in_step (bp_clear_priv i p).
Proof.
  intros Hi H. unfold bpc0_in_step in *. rewrite hw_breakpoint_bp_clear.
  unfold bp_clear_priv. destruct (decide (i = O)) as [-> | Hne]; simpl_priv.
  - rewrite nth_lookup, list_lookup_insert_eq by exact Hi. simpl. tauto.
  - rewrite nth_lookup, list_lookup_insert_ne by congruence.
    rewrite <- nth_lookup. exact H.
Qed.

Section Session.

Variable env : environment.
Hypothesis Hrel : reliable env.

(** X19.  Whatever sequence of [cortexa_set_hw_bp] and
    [cortexa_clear_hw_bp] requests is made on a state of the shape the
    probe sets up, with a transport that raises no exception: every request
    returns 0 or -1; the table keeps its sixteen entries and every entry of
    a comparator is 0 or has the live bit; the entries beyond
    [hw_breakpoint_max] are never written; [bpc0] is 0 exactly when the
    entry of slot 0 is, if it was so at the start; and nothing but the
    table and [bpc0] changes in the driver's state. *)
Theorem breakpoint_requests_keep_the_table_in_shape ops : forall t,
  priv_wf (priv t) -> table_ok (priv t) ->
  exists xs t',
    run_bp_ops env ops t = (Done xs, t') /\
    length xs = length ops /\
    Forall (fun x => x = 0 \/ x = -1) xs /\
    priv_wf (priv t') /\ table_ok (priv t') /\
    same_but_table (priv t) (priv t') /\
    (free_slots (priv t') <= hw_breakpoint_max (priv t))%nat /\
    (bpc0_in_step (priv t) -> bpc0_in_step (priv t')).
Proof.
  induction ops as [| op ops IH]; intros t Hwf Hok.
  - exists [], t. split; [reflexivity |]. split; [reflexivity |].
    split; [constructor |]. split; [exact Hwf |]. split; [exact Hok |].
    split; [apply same_but_table_refl |]. split; [| auto].
    unfold free_slots. etransitivity; [apply filter_length_le |].
    rewrite length_take. lia.
  - assert (exists x t1,
              match op with
              | Set_bp addr len => cortexa_set_hw_bp env addr len
              | Clear_bp addr len => cortexa_clear_hw_bp env addr len
              end t = (Done x, t1) /\
              (x = 0 \/ x = -1) /\ priv_wf (priv t1) /\ table_ok (priv t1) /\
              same_but_table (priv t) (priv t1) /\
              (bpc0_in_step (priv t) -> bpc0_in_step (priv t1))) as Hop.
    { pose proof Hwf as (W1 & W2 & _).
      destruct op as [addr len | addr len].
      - destruct (first_slot_or_no_slot slot_free (priv t) Hwf) as [[i Hi] | Hno].
        + destruct (cortexa_set_hw_bp_spec env Hrel addr len t i Hi)
            as (x & t1 & E & -> & P & _).
          pose proof Hi as (Hlt & _).
          exists 0, t1. rewrite P. split; [exact E |]. split; [auto |].
          split; [apply priv_wf_bp_set; exact Hwf |].
          split; [apply table_ok_bp_set; exact Hok |].
          split; [apply same_but_table_bp_set; exact Hlt |].
          apply bpc0_in_step_bp_set. lia.
        + exists (-1), t. split; [apply cortexa_set_hw_bp_full; assumption |].
          split; [auto |]. split; [exact Hwf |]. split; [exact Hok |].
          split; [apply same_but_table_refl | auto].
      - destruct (first_slot_or_no_slot (slot_at addr) (priv t) Hwf) as [[i Hi] | Hno].
        + destruct (cortexa_clear_hw_bp_spec env Hrel addr len t i Hi)
            as (x & t1 & E & -> & P & _).
          pose proof Hi as (Hlt & _).
          exists 0, t1. rewrite P. split; [exact E |]. split; [auto |].
          split; [apply priv_wf_bp_clear; exact Hwf |].
          split; [apply table_ok_bp_clear; exact Hok |].
          split; [apply same_but_table_bp_clear; exact Hlt |].
          apply bpc0_in_step_bp_clear. lia.
        + exists (-1), t. split; [apply cortexa_clear_hw_bp_none; assumption |].
          split; [auto |]. split; [exact Hwf |]. split; [exact Hok |].
          split; [apply same_but_table_refl | auto]. }
    destruct Hop as (x & t1 & E1 & Hx & Hwf1 & Hok1 & Hsame1 & Hstep1).
    destruct (IH t1 Hwf1 Hok1) as (xs & t' & E' & L & F & Hwf' & Hok' & Hsame' & Hfree & Hstep').
    exists (x :: xs), t'. split.
    { cbn [run_bp_ops]. unfold bind at 1. rewrite E1. unfold bind. rewrite E'.
      reflexivity. }
    split; [simpl; lia |]. split; [constructor; assumption |].
    split; [exact Hwf' |]. split; [exact Hok' |].
    split; [eapply same_but_table_trans; eassumption |].
    destruct Hsame1 as (_ & _ & _ & M1 & _). split; [lia | auto].
Qed.

End Session.

(** ** The register file as gdb sees it *)

Lemma double_u64 hi lo : is_u32 hi -> is_u32 lo -> is_u64 (Z.lor (Z.shiftl hi 32) lo).
Proof.
  unfold is_u32, is_u64. intros Hhi Hlo.
  assert (Z.land (Z.shiftl hi 32) lo = 0) as Hdisj.
  { apply Z.bits_inj'. intros n Hn. rewrite Z.land_spec, Z.bits_0.
    destruct (Z.ltb_spec n 32).
    - rewrite Z.shiftl_spec_low by lia. reflexivity.
    - rewrite <- (Z.mod_small lo (2 ^ 32)) by lia.
      rewrite Z.mod_pow2_bits_high by lia. apply andb_false_r. }
  rewrite <- (Z.add_nocarry_lor _ _ Hdisj), Z.shiftl_mul_pow2 by lia. lia.
Qed.

Lemma doubles_u64 ws : Forall is_u32 ws -> Forall is_u64 (doubles ws).
Proof.
  assert (forall n ws, (length ws <= n)%nat -> Forall is_u32 ws ->
            Forall is_u64 (doubles ws)) as H.
  { induction n as [| n IH]; intros ws0 Hn F.
    - destruct ws0; [constructor | simpl in Hn; lia].
    - destruct ws0 as [| hi [| lo ws0]]; try constructor.
      + inversion F as [| ? ? Uhi F1]. subst. inversion F1 as [| ? ? Ulo F2]. subst.
        apply double_u64; assumption.
      + inversion F as [| ? ? Uhi F1]. subst. inversion F1 as [| ? ? Ulo F2]. subst.
        apply IH; [simpl in Hn; lia | exact F2]. }
  apply (H (length ws)). lia.
Qed.

Section GdbRegisters.

Variable env : environment.
Hypothesis Hrel : reliable env.

(** X20.  What gdb reads after a halt is what the snapshot read from the
    core: after [cortexa_regs_read_internal], [cortexa_regs_read] fills
    the first [regs_size] bytes of the caller's buffer, leaves the rest of
    it alone and changes nothing in the driver, and those bytes decode,
    little-endian, to the words read in the order r0 .. r14, the PC, CPSR,
    FPSCR and the doubles d0 .. d15, each double made of its high word read
    first and its low word; only the PC differs from the word read, by the
    4 (Thumb) or 8 subtracted. *)
Theorem registers_read_after_the_snapshot_decode_to_the_words_read buf t :
  priv_wf (priv t) -> (regs_size <= length buf)%nat ->
  exists t1 data regs raw_pc c f ws,
    cortexa_regs_read_internal env t = (Done tt, t1) /\
    io env (trace t) (trace t1) (snapshot_calls (base (priv t)))
       (regs ++ [raw_pc; c; f] ++ ws) /\
    length regs = 15%nat /\ length ws = 32%nat /\
    cortexa_regs_read buf t1 = (Done data, t1) /\
    length data = length buf /\
    drop regs_size data = drop regs_size buf /\
    reg_cache_of_repr (take regs_size data)
    = mk_reg_cache (regs ++ [u32 (raw_pc - (if Z.testbit c 5 then 4 else 8))])
                   c f (doubles ws).
Proof.
  intros Hwf Hbuf.
  destruct (cortexa_regs_read_internal_spec env Hrel t Hwf)
    as ([] & t1 & E1 & regs & pc & c & f & ws & Hregs & Hws & U & I1 & P1).
  assert (length (r (reg_cache (priv t1))) = 16%nat) as Hr1
    by (rewrite P1; simpl_priv; rewrite length_app, Hregs; reflexivity).
  assert (length (d (reg_cache (priv t1))) = 16%nat) as Hd1
    by (rewrite P1; simpl_priv; apply length_doubles; exact Hws).
  assert (priv_wf (priv t1)) as Hwf1.
  { destruct Hwf as (W1 & W2 & _). unfold priv_wf.
    split; [rewrite P1; exact W1 |]. split; [rewrite P1; exact W2 |].
    split; assumption. }
  pose proof (length_reg_cache_repr _ Hr1 Hd1) as L.
  exists t1, (reg_cache_repr (reg_cache (priv t1)) ++ drop regs_size buf),
    regs, pc, c, f, ws.
  split; [exact E1 |]. split; [exact I1 |]. split; [exact Hregs |].
  split; [exact Hws |].
  split; [apply cortexa_regs_read_run; assumption |].
  split; [rewrite length_app, L, length_drop; lia |].
  split; [apply drop_app_length'; symmetry; exact L |].
  rewrite take_app_length' by (symmetry; exact L).
  pose proof (io_words_u32 _ _ _ _ _ I1) as F.
  apply Forall_app in F as [Fregs F]. inversion F as [| ? ? _ F1]. subst.
  inversion F1 as [| ? ? Uc F2]. subst. inversion F2 as [| ? ? Uf Fws]. subst.
  rewrite reg_cache_of_repr_repr; [rewrite P1; reflexivity | exact Hr1 | exact Hd1 |].
  rewrite P1. unfold reg_cache_ok. simpl_priv.
  split; [apply Forall_app; split; [exact Fregs | repeat constructor; apply u32_range] |].
  split; [exact Uc |]. split; [exact Uf |]. apply doubles_u64. exact Fws.
Qed.

End GdbRegisters.

(** ** The further properties at concrete inputs *)

Lemma write_back_sends_the_cache_scratch_registers_last_witness :
  priv_wf (priv target0) /\
  exists t',
    cortexa_regs_write_internal env_count target0 = (Done tt, t') /\
    priv t' = priv target0.
Proof.
  assert (priv_wf (priv target0)) as Hwf by wf_priv.
  split; [exact Hwf |].
  destruct (write_back_sends_the_cache_scratch_registers_last env_count
              ltac:(reliable_env) target0 Hwf) as (t' & E & P & _).
  exists t'. split; [exact E | exact P].
Defined.

Lemma write_back_after_snapshot_returns_the_words_read_witness :
  priv_wf (priv target0) /\
  exists t1 t2 sent,
    cortexa_regs_read_internal env_count target0 = (Done tt, t1) /\
    cortexa_regs_write_internal env_count t1 = (Done tt, t2) /\
    written_to (base (priv target0)) DBGDTRRX
      (restore_calls (base (priv target0)) (reg_cache (priv t1))) = sent /\
    length sent = 50%nat.
Proof.
  assert (priv_wf (priv target0)) as Hwf by wf_priv.
  split; [exact Hwf |].
  destruct (write_back_after_snapshot_returns_the_words_read env_count
              ltac:(reliable_env) target0 Hwf)
    as (t1 & t2 & regs & raw_pc & c & f & ws & E1 & _ & Lr & Lw & E2 & _ & _ & W).
  exists t1, t2, (ws ++ [f; c; u32 (raw_pc - (if Z.testbit c 5 then 4 else 8))] ++ regs).
  split; [exact E1 |]. split; [exact E2 |]. split; [exact W |].
  rewrite !length_app, Lr, Lw. reflexivity.
Defined.

Lemma detach_frees_every_slot_and_leaves_debug_state_witness :
  priv_wf (priv target0) /\
  exists t',
    cortexa_detach env_abort target0 = (Done tt, t') /\
    free_slots (priv t') = 6%nat.
Proof.
  assert (priv_wf (priv target0)) as Hwf by wf_priv.
  split; [exact Hwf |].
  destruct (detach_frees_every_slot_and_leaves_debug_state env_abort
              ltac:(reliable_env) target0 Hwf)
    as (t' & dscr & E & _ & _ & _ & _ & _ & Hfree & _).
  exists t'. split; [exact E | exact Hfree].
Defined.

Lemma resume_repeats_the_restart_request_until_restarted_witness :
  priv_wf (priv target0) /\ never_restarts env_running /\
  (exists t', cortexa_halt_resume env_running 7 false target0 = (Done None, t')) /\
  (exists res t', cortexa_halt_resume env_abort 7 true target0 = (Done res, t')).
Proof.
  assert (priv_wf (priv target0)) as Hwf by wf_priv.
  assert (never_restarts env_running) as Hnever
    by (intros h val; exists 0; split; reflexivity).
  split; [exact Hwf |]. split; [exact Hnever |]. split.
  - destruct (resume_repeats_the_restart_request_until_restarted env_running
                ltac:(reliable_env) 7 false target0 Hwf)
      as (res & t' & dscr & polls & E & _ & _ & _ & _ & _ & _ & _ & _ & Hnone).
    exists t'. rewrite E, (Hnone Hnever). reflexivity.
  - destruct (resume_repeats_the_restart_request_until_restarted env_abort
                ltac:(reliable_env) 7 true target0 Hwf)
      as (res & t' & dscr & polls & E & _).
    exists res, t'. exact E.
Defined.

Lemma single_step_arms_a_mismatch_breakpoint_at_the_pc_witness :
  priv_wf (priv target0) /\ r (reg_cache (priv target0)) !! 15%nat = Some 0 /\
  exists res t' dscr polls,
    cortexa_halt_resume env_abort 3 true target0 = (Done res, t') /\
    io env_abort (trace target0) (trace t')
       (resume_calls (priv target0) true 0 0x4001e1 dscr (length polls))
       (dscr :: polls).
Proof.
  assert (priv_wf (priv target0)) as Hwf by wf_priv.
  split; [exact Hwf |]. split; [reflexivity |].
  destruct (single_step_arms_a_mismatch_breakpoint_at_the_pc env_abort
              ltac:(reliable_env) 3 target0 0 Hwf eq_refl)
    as (res & t' & dscr & polls & bcr & E & I & Hbcr & _).
  exists res, t', dscr, polls. split; [exact E |].
  rewrite Hbcr in I. exact I.
Defined.

Lemma resume_rewrites_the_breakpoint_of_slot0_after_a_step_witness :
  priv_wf (priv target0) /\ first_slot slot_free (priv target0) 0 /\
  exists t1 res2 t2 res3 t3,
    cortexa_set_hw_bp env_abort 0x8002 2 target0 = (Done 0, t1) /\
    cortexa_halt_resume env_abort 2 true t1 = (Done res2, t2) /\
    cortexa_halt_resume env_abort 2 false t2 = (Done res3, t3).
Proof.
  assert (priv_wf (priv target0)) as Hwf by wf_priv.
  assert (first_slot slot_free (priv target0) 0) as Hfirst.
  { split; [simpl; lia |]. split; [exists 0; split; reflexivity |].
    intros j e Hj. lia. }
  split; [exact Hwf |]. split; [exact Hfirst |].
  destruct (resume_rewrites_the_breakpoint_of_slot0_after_a_step env_abort
              ltac:(reliable_env) 2 2 0x8002 2 target0 Hwf Hfirst)
    as (t1 & res2 & t2 & res3 & t3 & dscr2 & polls2 & dscr3 & polls3
        & E1 & _ & E2 & _ & E3 & _).
  exists t1, res2, t2, res3, t3. auto.
Defined.

Lemma resume_after_reattach_arms_comparator0_from_stale_bpc0_witness :
  priv_wf (priv target0) /\ first_slot slot_free (priv target0) 0 /\
  exists t1 t2 res t3,
    cortexa_set_hw_bp env_halted 0x8000 4 target0 = (Done 0, t1) /\
    cortexa_attach env_halted t1 = (Done true, t2) /\
    free_slots (priv t2) = hw_breakpoint_max (priv t2) /\
    cortexa_halt_resume env_halted 4 false t2 = (Done res, t3) /\
    written_to (base (priv t2)) (DBGBCR 0) (calls (drop (length (trace t2)) (trace t3)))
    = [0x1e1].
Proof.
  assert (priv_wf (priv target0)) as Hwf by wf_priv.
  assert (first_slot slot_free (priv target0) 0) as Hfirst.
  { split; [simpl; lia |]. split; [exists 0; split; reflexivity |].
    intros j e Hj. lia. }
  split; [exact Hwf |]. split; [exact Hfirst |].
  destruct (resume_after_reattach_arms_comparator0_from_stale_bpc0 env_halted
              ltac:(reliable_env) 4 0x8000 4 target0 Hwf Hfirst)
    as (t1 & E1 & _ & _ & _ & (b & t2 & E2 & Hb)).
  assert (b = true) as ->.
  { destruct b; [reflexivity |]. exfalso.
    assert (t1 = snd (cortexa_set_hw_bp env_halted 0x8000 4 target0)) as ->
      by (rewrite E1; reflexivity).
    pose proof E2 as E2'. vm_compute in E2'. discriminate. }
  destruct (Hb eq_refl) as (Hfree & res & t3 & dscr & polls & E3 & I3).
  exists t1, t2, res, t3. split; [exact E1 |]. split; [exact E2 |].
  split; [exact Hfree |]. split; [exact E3 |].
  assert (t1 = snd (cortexa_set_hw_bp env_halted 0x8000 4 target0)) as ->
    by (rewrite E1; reflexivity).
  assert (t2 = snd (cortexa_attach env_halted
                      (snd (cortexa_set_hw_bp env_halted 0x8000 4 target0)))) as ->
    by (rewrite E2; reflexivity).
  assert (t3 = snd (cortexa_halt_resume env_halted 4 false
                      (snd (cortexa_attach env_halted
                         (snd (cortexa_set_hw_bp env_halted 0x8000 4 target0)))))) as ->
    by (rewrite E3; reflexivity).
  vm_compute. reflexivity.
Defined.

Lemma slow_mem_write_of_unaligned_data_stops_at_the_first_abort_witness :
  0 < 3 /\ (Z.land 0x1001 3 <> 0 \/ Z.land 3 3 <> 0) /\
  (Z.to_nat 3 <= length [x11; x22; x33])%nat /\
  (exists t', cortexa_slow_mem_write env_running 0x1001 [x11; x22; x33] 3 target0
              = (Done tt, t') /\ priv t' = priv target0) /\
  (exists t', cortexa_slow_mem_write env_abort 0x1001 [x11; x22; x33] 3 target0
              = (Done tt, t') /\ mmu_fault (priv t') = true).
Proof.
  assert (Z.land 0x1001 3 <> 0 \/ Z.land 3 3 <> 0) as Hun by (left; discriminate).
  assert (Z.to_nat 3 <= length [x11; x22; x33])%nat as Hsrc by (simpl; lia).
  split; [lia |]. split; [exact Hun |]. split; [exact Hsrc |]. split.
  - destruct (slow_mem_write_of_unaligned_data_stops_at_the_first_abort env_running
                ltac:(reliable_env) 0x1001 [x11; x22; x33] 3 target0 ltac:(lia) Hun Hsrc)
      as (t' & abort & ss & E & _ & I & _ & _ & Hno & Hab).
    exists t'. split; [exact E |].
    destruct abort; [| apply Hno; reflexivity].
    exfalso. destruct (Hab eq_refl) as ((ss' & s & -> & _ & Bs) & _).
    destruct I as (evs & _ & _ & W & A).
    assert (forall evs h, answered env_running h evs ->
              Forall (fun w => w = 0) (words_read evs)) as Hz.
    { clear. induction evs as [| [c rp] evs IH]; intros h A; [constructor |].
      destruct A as [E A]. specialize (IH _ A). unfold words_read in *. simpl.
      destruct c; try exact IH. destruct rnw, reg; try exact IH.
      destruct rp as [v |]; [| exact IH]. constructor; [| exact IH].
      unfold env_running in E. injection E as <-. reflexivity. }
    pose proof (Hz _ _ A) as F. rewrite W in F.
    apply Forall_app in F as [_ F]. inversion F. subst. discriminate.
  - destruct (slow_mem_write_of_unaligned_data_stops_at_the_first_abort env_abort
                ltac:(reliable_env) 0x1001 [x11; x22; x33] 3 target0 ltac:(lia) Hun Hsrc)
      as (t' & abort & ss & E & _).
    exists t'. split; [exact E |].
    pose proof E as E'. vm_compute in E'. injection E' as <-. reflexivity.
Defined.

Lemma slow_mem_write_of_aligned_data_sends_words_witness :
  0 < 8 /\ Z.land 0x2000 3 = 0 /\ Z.land 8 3 = 0 /\
  (Z.to_nat 8 <= length [x01; x02; x03; x04; x05; x06; x07; x08])%nat /\
  exists t' dscr0 dscr1,
    cortexa_slow_mem_write env_running 0x2000
      [x01; x02; x03; x04; x05; x06; x07; x08] 8 target0 = (Done tt, t') /\
    written_to (base (priv target0)) DBGDTRRX
      (slow_mem_write_calls (base (priv target0)) 0x2000
         [0x04030201; 0x08070605] dscr0 (Z.testbit dscr1 6))
    = [0x2000; 0x04030201; 0x08070605].
Proof.
  assert (Z.to_nat 8 <= length [x01; x02; x03; x04; x05; x06; x07; x08])%nat as Hsrc
    by (simpl; lia).
  split; [lia |]. split; [reflexivity |]. split; [reflexivity |].
  split; [exact Hsrc |].
  destruct (slow_mem_write_of_aligned_data_sends_words env_running ltac:(reliable_env)
              0x2000 [x01; x02; x03; x04; x05; x06; x07; x08] 8 target0)
    as (_ & Hal).
  destruct (Hal ltac:(lia) eq_refl eq_refl Hsrc)
    as (t' & ws & dscr0 & dscr1 & E & Hws & _ & _ & _ & W & _).
  exists t', dscr0, dscr1. split; [exact E |].
  rewrite Hws in W. exact W.
Defined.

Lemma ahb_access_cleans_each_line_of_the_range_witness :
  0 <= 0x1010 /\ 0 <= 0x30 /\ 0x1010 + 0x30 <= 2 ^ 32 - 32 /\
  ahb (priv target_ahb) = Some AHB_AP /\
  (lines_upto (line_of 0x1010) (0x1010 + 0x30) <= 2)%nat /\
  exists t1 par,
    io env_running (trace target_ahb) (trace t1)
       (clean_calls (base (priv target_ahb)) DCCMVAC 0x1000 2
        ++ va_to_pa_calls (base (priv target_ahb)) 0x1010)
       [par] /\
    cortexa_mem_read env_running mem_read_zeros 2 0x1010 0x30 target_ahb
    = (Done (Some (replicate 48 x00)), t1).
Proof.
  assert (lines_upto (line_of 0x1010) (0x1010 + 0x30) <= 2)%nat as Hfuel
    by (vm_compute; lia).
  split; [lia |]. split; [lia |]. split; [lia |]. split; [reflexivity |].
  split; [exact Hfuel |].
  destruct (ahb_access_cleans_each_line_of_the_range env_running ltac:(reliable_env)
              mem_read_zeros mem_write_dropped 2 0x1010 0x30 [] target_ahb AHB_AP
              ltac:(lia) ltac:(lia) ltac:(lia) eq_refl Hfuel)
    as (_ & _ & _ & _ & (t1 & par & I & _ & E) & _).
  exists t1, par. split; [exact I |]. rewrite E. reflexivity.
Defined.

Lemma ahb_access_to_the_last_cache_line_never_ends_witness :
  0 <= 0xfffffff0 /\ 0 <= 8 /\ 2 ^ 32 - 32 < 0xfffffff0 + 8 < 2 ^ 32 /\
  (exists t', cortexa_mem_read env_running mem_read_zeros 1000 0xfffffff0 8 target_ahb
              = (Done None, t')) /\
  (exists t', cortexa_mem_write env_running mem_write_dropped 1000 0xfffffff0
                [x00; x00; x00; x00; x00; x00; x00; x00] 8 target_ahb
              = (Done None, t')).
Proof.
  split; [lia |]. split; [lia |]. split; [lia |].
  destruct (ahb_access_to_the_last_cache_line_never_ends env_running ltac:(reliable_env)
              mem_read_zeros mem_write_dropped 0xfffffff0 8
              [x00; x00; x00; x00; x00; x00; x00; x00] target_ahb
              ltac:(lia) ltac:(lia) ltac:(lia) 1000%nat)
    as ((t1 & E1 & _) & (t2 & E2 & _)).
  split; [exists t1; exact E1 | exists t2; exact E2].
Defined.

Lemma ahb_access_up_to_the_top_of_memory_cleans_no_line_witness :
  0 <= 0xfffffff0 < 2 ^ 32 /\ 0 <= 16 < 2 ^ 32 /\
  2 ^ 32 <= 0xfffffff0 + 16 <= 2 ^ 32 + line_of 0xfffffff0 /\
  ahb (priv target_ahb) = Some AHB_AP /\
  exists t1 par,
    io env_running (trace target_ahb) (trace t1)
       (va_to_pa_calls (base (priv target_ahb)) 0xfffffff0) [par] /\
    cortexa_mem_read env_running mem_read_zeros 0 0xfffffff0 16 target_ahb
    = (Done (Some (replicate 16 x00)), t1).
Proof.
  assert (2 ^ 32 <= 0xfffffff0 + 16 <= 2 ^ 32 + line_of 0xfffffff0) as Hend
    by (vm_compute; split; discriminate).
  split; [lia |]. split; [lia |]. split; [exact Hend |]. split; [reflexivity |].
  destruct (ahb_access_up_to_the_top_of_memory_cleans_no_line env_running
              ltac:(reliable_env) mem_read_zeros mem_write_dropped 0 0xfffffff0 16 []
              target_ahb AHB_AP ltac:(lia) ltac:(lia) Hend eq_refl)
    as ((t1 & par & I & E) & _).
  exists t1, par. split; [exact I |]. rewrite E. reflexivity.
Defined.

Lemma halt_wait_turns_a_failed_status_read_into_a_result_witness :
  apb_read env_wfi DBGDSCR target0
  = (Throw EXCEPTION_TIMEOUT, snd (apb_read env_wfi DBGDSCR target0)) /\
  cortexa_halt_wait env_wfi target0 = (Done 0, snd (apb_read env_wfi DBGDSCR target0)) /\
  apb_read env_dead DBGDSCR target0
  = (Throw EXCEPTION_ERROR, snd (apb_read env_dead DBGDSCR target0)) /\
  fst (cortexa_halt_wait env_dead target0) = Done SIGLOST.
Proof.
  split; [reflexivity |]. split.
  - exact (halt_wait_turns_a_failed_status_read_into_a_result env_wfi target0
             EXCEPTION_TIMEOUT _ eq_refl).
  - split; [reflexivity |].
    rewrite (halt_wait_turns_a_failed_status_read_into_a_result env_dead target0
               EXCEPTION_ERROR _ eq_refl 0 0 eq_refl eq_refl).
    reflexivity.
Defined.

Lemma halt_request_swallows_a_timeout_and_passes_an_error_witness :
  apb_write env_wfi DBGDRCR DBGDRCR_HRQ target0
  = (Throw EXCEPTION_TIMEOUT, snd (apb_write env_wfi DBGDRCR DBGDRCR_HRQ target0)) /\
  fst (cortexa_halt_request env_wfi target0) = Done tt /\
  apb_write env_dead DBGDRCR DBGDRCR_HRQ target0
  = (Throw EXCEPTION_ERROR, snd (apb_write env_dead DBGDRCR DBGDRCR_HRQ target0)) /\
  fst (cortexa_halt_request env_dead target0) = Throw EXCEPTION_ERROR.
Proof.
  split; [reflexivity |]. split.
  - rewrite (halt_request_swallows_a_timeout_and_passes_an_error env_wfi target0
               EXCEPTION_TIMEOUT _ eq_refl 0 eq_refl).
    reflexivity.
  - split; [reflexivity |].
    rewrite (halt_request_swallows_a_timeout_and_passes_an_error env_dead target0
               EXCEPTION_ERROR _ eq_refl).
    reflexivity.
Defined.

Lemma attach_ends_in_the_exception_of_its_first_read_witness :
  cortexa_check_error env_wfi target_fault
  = (Done true, snd (cortexa_check_error env_wfi target_fault)) /\
  env_wfi (trace (snd (cortexa_check_error env_wfi target_fault)))
    (AP_WRITE APB_AP ADIV5_AP_TAR
       (u32 (base (priv (snd (cortexa_check_error env_wfi target_fault))) + 4 * DBGDSCR)))
  = Raise EXCEPTION_TIMEOUT /\
  fst (cortexa_attach env_wfi target_fault) = Throw EXCEPTION_TIMEOUT.
Proof.
  split; [reflexivity |]. split; [reflexivity |].
  destruct (attach_ends_in_the_exception_of_its_first_read env_wfi target_fault true _
              EXCEPTION_TIMEOUT eq_refl eq_refl) as (E & _).
  rewrite E. reflexivity.
Defined.

Lemma attach_poll_takes_a_lost_link_for_a_halt_witness :
  env_dead (trace target0) SRST_GET_VAL = Ret 0 /\
  apb_read env_dead DBGDSCR (answered_with target0 SRST_GET_VAL 0)
  = (Throw EXCEPTION_ERROR,
     snd (apb_read env_dead DBGDSCR (answered_with target0 SRST_GET_VAL 0))) /\
  fst (attach_poll env_dead 10 target0) = Done 10%nat /\
  fst (attach_poll env_wfi 1 target0) = Done 0%nat.
Proof.
  split; [reflexivity |]. split; [reflexivity |]. split.
  - rewrite (attach_poll_takes_a_lost_link_for_a_halt env_dead 9 target0
               EXCEPTION_ERROR _ eq_refl eq_refl 0 0 eq_refl eq_refl).
    reflexivity.
  - destruct (attach_poll_takes_a_lost_link_for_a_halt env_wfi 0 target0
                EXCEPTION_TIMEOUT _ eq_refl eq_refl) as (E & _).
    rewrite E. reflexivity.
Defined.

Lemma halt_wait_tells_a_halt_request_from_a_trap_witness :
  priv_wf (priv target0) /\
  (exists t', cortexa_halt_wait env_halted target0 = (Done SIGINT, t')) /\
  (exists t', cortexa_halt_wait env_abort target0 = (Done SIGTRAP, t')) /\
  (exists t', cortexa_halt_wait env_running target0 = (Done 0, t')).
Proof.
  assert (priv_wf (priv target0)) as Hwf by wf_priv.
  split; [exact Hwf |].
  assert (forall env, reliable env ->
            exists t', cortexa_halt_wait env target0
                       = (fst (cortexa_halt_wait env target0), t')) as H.
  { intros env Hrel.
    destruct (halt_wait_tells_a_halt_request_from_a_trap env Hrel target0 Hwf)
      as (sig & t' & dscr & rest & E & _).
    exists t'. rewrite E. reflexivity. }
  split; [| split].
  - destruct (H env_halted ltac:(reliable_env)) as (t' & E). exists t'. exact E.
  - destruct (H env_abort ltac:(reliable_env)) as (t' & E). exists t'. exact E.
  - destruct (H env_running ltac:(reliable_env)) as (t' & E). exists t'. exact E.
Defined.

Lemma probe_keeps_the_ahb_reference_only_for_an_ahb_witness :
  exists t',
    cortexa_probe env_running 2 0x23000040 0x80090000 target0 = (Done true, t') /\
    ahb (priv t') = None /\ hw_breakpoint_max (priv t') = 1%nat.
Proof.
  destruct (probe_keeps_the_ahb_reference_only_for_an_ahb env_running
              ltac:(reliable_env) 2 0x23000040 0x80090000 target0)
    as (t' & evs & v_idr & didr & E & _).
  exists t'. split; [exact E |].
  pose proof E as E'. vm_compute in E'. injection E' as <-. split; reflexivity.
Defined.

Lemma breakpoint_requests_keep_the_table_in_shape_witness :
  priv_wf (priv target0) /\ table_ok (priv target0) /\
  exists xs t',
    run_bp_ops env_running
      [Set_bp 0x8000 4; Set_bp 0x8002 2; Clear_bp 0x8000 4; Clear_bp 0x9000 4;
       Set_bp 0xa000 4] target0 = (Done xs, t') /\
    length xs = 5%nat /\ table_ok (priv t').
Proof.
  assert (priv_wf (priv target0)) as Hwf by wf_priv.
  assert (table_ok (priv target0)) as Hok.
  { intros j e _ E. apply lookup_replicate in E as [-> _]. auto. }
  split; [exact Hwf |]. split; [exact Hok |].
  destruct (breakpoint_requests_keep_the_table_in_shape env_running ltac:(reliable_env)
              [Set_bp 0x8000 4; Set_bp 0x8002 2; Clear_bp 0x8000 4; Clear_bp 0x9000 4;
               Set_bp 0xa000 4] target0 Hwf Hok)
    as (xs & t' & E & L & _ & _ & Hok' & _).
  exists xs, t'. auto.
Defined.

Lemma registers_read_after_the_snapshot_decode_to_the_words_read_witness :
  priv_wf (priv target0) /\ (regs_size <= length buffer_ones)%nat /\
  exists t1 data,
    cortexa_regs_read_internal env_count target0 = (Done tt, t1) /\
    cortexa_regs_read buffer_ones t1 = (Done data, t1) /\
    length data = 200%nat.
Proof.
  assert (priv_wf (priv target0)) as Hwf by wf_priv.
  assert (regs_size <= length buffer_ones)%nat as Hbuf by (vm_compute; lia).
  split; [exact Hwf |]. split; [exact Hbuf |].
  destruct (registers_read_after_the_snapshot_decode_to_the_words_read env_count
              ltac:(reliable_env) buffer_ones target0 Hwf Hbuf)
    as (t1 & data & regs & raw_pc & c & f & ws & E1 & _ & _ & _ & E2 & L & _).
  exists t1, data. split; [exact E1 |]. split; [exact E2 |]. rewrite L. reflexivity.
Defined.

(** ** Attach under reset *)

Section AttachUnderReset.

Variable env : environment.
Hypothesis Hrel : reliable env.

Lemma attach_poll_under_reset n t :
  reset_held env -> priv_wf (priv t) ->
  returns (attach_poll env (S n)) t (fun tries t' =>
    tries = S n /\ priv t' = priv t /\
    io env (trace t) (trace t') [SRST_GET_VAL] []).
Proof.
  intros Hheld Hwf.
  destruct (attach_poll_spec env Hrel n t Hwf)
    as (tries & t' & E & k & e & ws & fin & Hk & I & Lws & _ & Hfin & Htries & _ & _ & _ & Pe).
  exists tries, t'. split; [exact E |].
  pose proof I as (evs & T & C & W & S & A).
  pose proof (answered_reset_held env evs _ Hheld A) as F.
  rewrite S in F. apply Forall_app in F as [F1 F2].
  assert (k = O) as ->.
  { destruct k as [| k]; [reflexivity |]. simpl in F1. inversion F1. discriminate. }
  inversion F2 as [| x l Hx _]. subst x l.
  destruct e; try discriminate.
  simpl in Htries. rewrite Nat.sub_0_r in Htries.
  split; [exact Htries |]. split; [exact Pe |].
  apply io_of_io_srst in I. simpl in Hfin. subst fin.
  destruct ws; [| discriminate]. exact I.
Qed.

(** X21.  [cortexa_attach] on a target whose reset line is held asserted
    returns true after a single poll that reads the reset line only: it
    never reads DBGDSCR for a halt and takes no snapshot, so the register
    cache is what it was before the attach, and what [cortexa_regs_read]
    hands to gdb afterwards are the registers of the cache as it was, not
    registers read from the core. *)
Theorem attach_under_reset_takes_no_snapshot t :
  reset_held env -> priv_wf (priv t) ->
  exists t' dscr0,
    cortexa_attach env t = (Done true, t') /\
    io env (trace t) (trace t') (attach_calls (priv t) dscr0 0 Reset_asserted) [dscr0] /\
    reg_cache (priv t') = reg_cache (priv t) /\
    (forall buf, fst (cortexa_regs_read buf t') = fst (cortexa_regs_read buf t)).
Proof.
  intros Hheld Hwf.
  assert (returns (cortexa_attach env) t (fun b t' => exists dscr0,
    b = true /\
    io env (trace t) (trace t') (attach_calls (priv t) dscr0 0 Reset_asserted) [dscr0] /\
    reg_cache (priv t') = reg_cache (priv t))) as R.
  { unfold cortexa_attach, target_check_error, target_halt_request.
    mstep. muse (cortexa_check_error_spec env Hrel) as err t1 H1.
    destruct H1 as (_ & P1 & cs & I1 & Hcs).
    mstep. muse (apb_read_spec env Hrel) as dscr0 t2 H2. destruct H2 as (P2 & _ & I2).
    mstep. muse (apb_write_spec env Hrel) as u3 t3 H3. destruct H3 as (P3 & I3).
    mstep. muse (cortexa_halt_request_spec env Hrel) as u4 t4 H4.
    destruct H4 as (P4 & I4).
    assert (priv t4 = set_mmu_fault false (priv t)) as P4'
      by (rewrite P4, P3, P2, P1; reflexivity).
    mstep. muse (attach_poll_under_reset 9) as tries t5 H5; [exact Hheld | |].
    { rewrite P4'. exact Hwf. }
    destruct H5 as (-> & P5 & I5).
    mstep. mstep. mstep.
    muse (clear_breakpoints_spec env Hrel) as u6 t6 H6.
    { rewrite P5, P4'. simpl_priv. destruct Hwf as (W1 & W2 & _). lia. }
    destruct H6 as (I6 & P6).
    mstep. muse (platform_srst_set_val_spec env Hrel) as u7 t7 H7.
    destruct H7 as (P7 & I7).
    mstep. exists dscr0. split; [reflexivity |].
    rewrite P7, P6, P5, P4'. simpl_priv. split; [| reflexivity].
    rewrite P2, P1 in I3. rewrite P1 in I2. rewrite P3, P2, P1 in I4.
    rewrite P5, P4' in I6. simpl_priv.
    unfold attach_calls, poll_calls, dscr_attach, dscr_mode. cbn [gave_up replicate concat].
    rewrite Hcs in I1. io_chain.
    match goal with H : io _ _ _ _ _ |- _ => eapply io_eq; [exact H | |] end;
      rewrite <- ?app_assoc; reflexivity. }
  destruct R as (b & t' & E & dscr0 & -> & I & Hc).
  exists t', dscr0. split; [exact E |]. split; [exact I |]. split; [exact Hc |].
  intros buf. unfold cortexa_regs_read, bind, get_priv. rewrite Hc.
  unfold memcpy, ret, undef. repeat destruct (decide _); reflexivity.
Qed.

End AttachUnderReset.

Lemma attach_under_reset_takes_no_snapshot_witness :
  reset_held env_reset_held /\ priv_wf (priv target0) /\
  exists t',
    cortexa_attach env_reset_held target0 = (Done true, t') /\
    reg_cache (priv t') = reg_cache (priv target0).
Proof.
  assert (reset_held env_reset_held) as Hheld
    by (intros h; exists 1; split; [reflexivity | lia]).
  assert (priv_wf (priv target0)) as Hwf by wf_priv.
  split; [exact Hheld |]. split; [exact Hwf |].
  destruct (attach_under_reset_takes_no_snapshot env_reset_held ltac:(reliable_env)
              target0 Hheld Hwf) as (t' & dscr0 & E & _ & Hc & _).
  exists t'. split; [exact E | exact Hc].
Defined.

(** ** The register file that gdb writes *)

Lemma le_value_app bs1 bs2 :
  le_value (bs1 ++ bs2) = le_value bs1 + 2 ^ (8 * Z.of_nat (length bs1)) * le_value bs2.
Proof.
  induction bs1 as [| b bs1 IH].
  - simpl. lia.
  - cbn [app le_value length]. rewrite IH.
    replace (8 * Z.of_nat (S (length bs1))) with (8 + 8 * Z.of_nat (length bs1)) by lia.
    rewrite Z.pow_add_r by lia. change (2 ^ 8) with 256. lia.
Qed.

Lemma le_value_range bs : 0 <= le_value bs < 2 ^ (8 * Z.of_nat (length bs)).
Proof.
  induction bs as [| b bs IH]; [simpl; lia |].
  cbn [le_value length]. pose proof (Z_of_byte_range b) as Hb.
  replace (8 * Z.of_nat (S (length bs))) with (8 + 8 * Z.of_nat (length bs)) by lia.
  rewrite Z.pow_add_r by lia. change (2 ^ 8) with 256. nia.
Qed.

Lemma halves_le_value bs :
  (8 <= length bs)%nat ->
  halves (le_value (take 8 bs))
  = [le_value (take 4 (drop 4 bs)); le_value (take 4 bs)].
Proof.
  intros Hlen.
  assert (take 8 bs = take 4 bs ++ take 4 (drop 4 bs)) as ->.
  { symmetry. apply (take_take_drop bs 4 4). }
  rewrite le_value_app, length_take, Nat.min_l by lia.
  pose proof (le_value_range (take 4 bs)) as Hlo.
  pose proof (le_value_range (take 4 (drop 4 bs))) as Hhi.
  rewrite !length_take, length_drop in *.
  rewrite Nat.min_l in Hlo by lia. rewrite Nat.min_l in Hhi by lia.
  change (8 * Z.of_nat 4) with 32 in *.
  unfold halves, u32. rewrite Z.shiftr_div_pow2 by lia.
  f_equal; [| f_equal].
  - rewrite (Z.mul_comm (2 ^ 32)), Z.div_add by lia.
    rewrite Z.div_small by lia. rewrite Z.add_0_l. apply Z.mod_small. lia.
  - rewrite (Z.mul_comm (2 ^ 32)), Z.mod_add by lia. apply Z.mod_small. lia.
Qed.

Lemma array_of_repr_plus w n m : forall bs,
  array_of_repr w (n + m) bs
  = array_of_repr w n bs ++ array_of_repr w m (drop (w * n) bs).
Proof.
  induction n as [| n IH]; intros bs.
  - rewrite Nat.mul_0_r. reflexivity.
  - change (array_of_repr w (S n + m) bs)
      with (le_value (take w bs) :: array_of_repr w (n + m) (drop w bs)).
    change (array_of_repr w (S n) bs)
      with (le_value (take w bs) :: array_of_repr w n (drop w bs)).
    rewrite IH, drop_drop. replace (w * S n)%nat with (w + w * n)%nat by lia.
    reflexivity.
Qed.

Lemma halves_array_of_repr n : forall bs,
  (8 * n <= length bs)%nat ->
  flat_map halves (array_of_repr 8 n bs) = swap_pairs (array_of_repr 4 (2 * n) bs).
Proof.
  induction n as [| n IH]; intros bs Hlen; [reflexivity |].
  replace (2 * S n)%nat with (S (S (2 * n))) by lia.
  change (array_of_repr 8 (S n) bs)
    with (le_value (take 8 bs) :: array_of_repr 8 n (drop 8 bs)).
  change (array_of_repr 4 (S (S (2 * n))) bs)
    with (le_value (take 4 bs) :: le_value (take 4 (drop 4 bs))
          :: array_of_repr 4 (2 * n) (drop 4 (drop 4 bs))).
  cbn [flat_map swap_pairs].
  rewrite halves_le_value by lia. cbn [app]. do 2 f_equal.
  rewrite drop_drop. change (4 + 4)%nat with 8%nat.
  apply IH. rewrite length_drop. lia.
Qed.

Section GdbWrites.

Variable env : environment.
Hypothesis Hrel : reliable env.

(** X22.  What gdb writes is what the core gets: after
    [cortexa_regs_write] of a buffer of [regs_size] bytes, the next
    write-back of the cache ([cortexa_regs_write_internal], as on resume
    and detach) sends through DBGDTRRX the fifty little-endian words of the
    buffer, in the order of the write-back: the words 18 to 49 in pairs
    with the high word of each double first, then the words 17 (FPSCR),
    16 (CPSR) and 15 (PC, sent as it is in the buffer), then the words 0 to
    14 (r0 .. r14). *)
Theorem registers_written_by_gdb_are_the_words_sent data t :
  priv_wf (priv t) -> length data = regs_size ->
  exists t1 t2,
    cortexa_regs_write data t = (Done tt, t1) /\
    trace t1 = trace t /\
    cortexa_regs_write_internal env t1 = (Done tt, t2) /\
    io env (trace t1) (trace t2)
       (restore_calls (base (priv t)) (reg_cache (priv t1))) [] /\
    written_to (base (priv t)) DBGDTRRX
       (restore_calls (base (priv t)) (reg_cache (priv t1)))
    = swap_pairs (drop 18 (buffer_words data))
      ++ [nth 17 (buffer_words data) 0; nth 16 (buffer_words data) 0;
          nth 15 (buffer_words data) 0]
      ++ take 15 (buffer_words data).
Proof.
  intros Hwf Hlen. unfold regs_size, sizeof_reg_cache in Hlen.
  pose proof (cortexa_regs_write_run data t Hwf ltac:(unfold regs_size, sizeof_reg_cache; lia))
    as E1.
  rewrite take_ge in E1 by (unfold regs_size, sizeof_reg_cache; lia).
  set (t1 := mk_target (set_reg_cache (reg_cache_of_repr data) (priv t)) (trace t)) in *.
  assert (priv_wf (priv t1)) as Hwf1 by (apply priv_wf_set_reg_cache; exact Hwf).
  destruct (cortexa_regs_write_internal_spec env Hrel t1 Hwf1) as ([] & t2 & E2 & P2 & I2).
  exists t1, t2. split; [exact E1 |]. split; [reflexivity |]. split; [exact E2 |].
  split; [exact I2 |].
  destruct Hwf1 as (_ & _ & Hr1 & Hd1).
  change (base (priv t)) with (base (priv t1)).
  rewrite written_dtrrx_restore by assumption.
  unfold restore_words, t1, reg_cache_of_repr, buffer_words. simpl_priv.
  change 50%nat with (16 + (1 + (1 + 32)))%nat.
  rewrite !array_of_repr_plus.
  change (4 * 16)%nat with 64%nat. change (4 * 1)%nat with 4%nat.
  rewrite !drop_drop. change (64 + 4)%nat with 68%nat. change (68 + 4)%nat with 72%nat.
  set (rr := array_of_repr 4 16 data).
  assert (length rr = 16%nat) as Lrr by apply length_array_of_repr.
  change (array_of_repr 4 1 (drop 64 data)) with [le_value (take 4 (drop 64 data))].
  change (array_of_repr 4 1 (drop 68 data)) with [le_value (take 4 (drop 68 data))].
  rewrite halves_array_of_repr by (rewrite length_drop; lia).
  change (2 * 16)%nat with 32%nat.
  rewrite (drop_app_ge rr) by lia. rewrite Lrr. change (18 - 16)%nat with 2%nat.
  cbn [app drop].
  rewrite !app_nth2 by lia. rewrite Lrr.
  change (17 - 16)%nat with 1%nat. change (16 - 16)%nat with 0%nat. cbn [nth].
  rewrite app_nth1 by lia. rewrite take_app_le by lia. reflexivity.
Qed.

End GdbWrites.

Lemma registers_written_by_gdb_are_the_words_sent_witness :
  priv_wf (priv target0) /\ length buffer_count = regs_size /\
  exists t1 t2 sent,
    cortexa_regs_write buffer_count target0 = (Done tt, t1) /\
    cortexa_regs_write_internal env_running t1 = (Done tt, t2) /\
    written_to (base (priv target0)) DBGDTRRX
      (restore_calls (base (priv target0)) (reg_cache (priv t1))) = sent /\
    take 3 sent = [0x4f4e4d4c; 0x4b4a4948; 0x57565554].
Proof.
  assert (priv_wf (priv target0)) as Hwf by wf_priv.
  split; [exact Hwf |]. split; [reflexivity |].
  destruct (registers_written_by_gdb_are_the_words_sent env_running ltac:(reliable_env)
              buffer_count target0 Hwf eq_refl) as (t1 & t2 & E1 & _ & E2 & _ & W).
  eexists t1, t2, _. split; [exact E1 |]. split; [exact E2 |]. split; [exact W |].
  vm_compute. reflexivity.
Defined.

(** ** The shape that every operation keeps *)




Section Shape.

Variable env : environment.
Hypothesis Hrel : reliable env.


End Shape.

